(** * Verification of the used-car price pipeline (gradientboosting.py)

    The script is a straight-line pandas / scikit-learn pipeline.  Its
    stages are embedded here as functions over a column-oriented data
    frame.  Python floats are IEEE-754 binary64 numbers and are modelled by
    Rocq's primitive floats, which are the same numbers with the same
    correctly rounded operations; missing values are NaN as in pandas.
    Calls that can raise are modelled in an exception monad. *)

From Stdlib Require Import ZArith Floats Uint63 Lia.
From stdpp Require Import base option list strings sorting pretty.

Local Open Scope Z_scope.
Set Warnings "-inexact-float".

(** * The model *)

(** ** Exceptions

    [KeyError], [ValueError], [TypeError] and [IndexError] are the Python
    exceptions the libraries raise.  [DataError] is the error class of the
    specification; the script has no such class.  [NoTermination] is not
    an exception: it marks a run in which a loop of the model exceeded its
    bound. *)

Inductive exn : Type :=
  | KeyError (key : string)
  | ValueError (msg : string)
  | TypeError (msg : string)
  | IndexError (msg : string)
  | DataError (msg : string)
  | NoTermination (loop : string).

Inductive result (A : Type) : Type :=
  | Ok (a : A)
  | Raise (e : exn).
Arguments Ok {A} a.
Arguments Raise {A} e.

#[global] Instance result_ret : MRet result := @Ok.
#[global] Instance result_bind : MBind result := fun A B k r =>
  match r with
  | Ok a => k a
  | Raise e => Raise e
  end.

#[global] Instance result_fmap : FMap result := fun A B f r =>
  match r with
  | Ok a => Ok (f a)
  | Raise e => Raise e
  end.

Definition from_option {A} (e : exn) (o : option A) : result A :=
  match o with
  | Some a => Ok a
  | None => Raise e
  end.

(** ** Numbers *)

Module Num.

(** int64 -> float64 conversion, rounding to nearest: magnitudes below
    2^63 go through the 63-bit unsigned integers, and the magnitude 2^63
    itself (of the least int64) is a float. *)
Definition of_Z (z : Z) : float :=
  let magnitude :=
    if Z.abs z =? 2 ^ 63 then 9223372036854775808%float
    else PrimFloat.of_uint63 (Uint63.of_Z (Z.abs z)) in
  if z <? 0 then PrimFloat.opp magnitude else magnitude.

Definition of_nat (n : nat) : float := of_Z (Z.of_nat n).

(** [np.sum] of a float64 array is NumPy's pairwise summation
    ([DOUBLE_pairwise_sum]), added to the initial value 0 of the reduction.
    Fewer than eight numbers are added from left to right.  Up to 128
    numbers are added in eight interleaved partial sums, which are then
    combined in pairs, and the numbers left over after the last full group
    of eight are added one by one.  A longer array is cut in two, the first
    part a multiple of eight long, and the sums of the two parts are
    added. *)
Definition PW_BLOCKSIZE : nat := 128.

(** [r[0] += a[i + 0]; ...; r[7] += a[i + 7]] for every full group of
    eight: the accumulators and the numbers left over. *)
Fixpoint accumulate (groups : nat) (r l : list float) : list float * list float :=
  match groups with
  | O => (r, l)
  | S groups => accumulate groups (zip_with PrimFloat.add r (take 8 l)) (drop 8 l)
  end.

Definition combine (r : list float) : float :=
  match r with
  | [r0; r1; r2; r3; r4; r5; r6; r7] =>
      (((r0 + r1) + (r2 + r3)) + ((r4 + r5) + (r6 + r7)))%float
  | _ => fold_left PrimFloat.add r (-0)%float
  end.

(** The block of [8 <= n <= 128] numbers. *)
Definition block_sum (l : list float) : float :=
  let '(r, rest) := accumulate (length l / 8 - 1) (take 8 l) (drop 8 l) in
  fold_left PrimFloat.add rest (combine r).

(** The recursion halves the array, so [fuel] at least the length is
    enough. *)
Fixpoint pairwise_sum (fuel : nat) (l : list float) : float :=
  let n := length l in
  if (n <? 8)%nat then fold_left PrimFloat.add l (-0)%float
  else
    match fuel with
    | S fuel' =>
        if (n <=? PW_BLOCKSIZE)%nat then block_sum l
        else
          let n2 := (n / 2 - (n / 2) mod 8)%nat in
          (pairwise_sum fuel' (take n2 l) + pairwise_sum fuel' (drop n2 l))%float
    | O => block_sum l
    end.

Definition sum (l : list float) : float := (0 + pairwise_sum (length l) l)%float.

(** [np.mean] / [np.average] without weights. *)
Definition mean (l : list float) : float :=
  (sum l / of_nat (length l))%float.

Definition square (x : float) : float := (x * x)%float.

Definition is_nan (x : float) : bool := negb (PrimFloat.eqb x x).

Definition is_inf (x : float) : bool := PrimFloat.eqb (PrimFloat.abs x) PrimFloat.infinity.

Definition is_finite (x : float) : bool := negb (is_nan x) && negb (is_inf x).

(** Rounding of the fraction [num / den] ([0 < den]) to the nearest
    integer, ties to even. *)
Definition round_half_even (num den : Z) : Z :=
  let q := num / den in
  let r := num mod den in
  match 2 * r ?= den with
  | Lt => q
  | Gt => q + 1
  | Eq => if Z.even q then q else q + 1
  end.

Definition two_digits (d : Z) : string :=
  if d <? 10 then "0" +:+ pretty d else pretty d.

(** Python's [f"{x:.2f}"]: the exact binary value rounded to two
    decimals, ties to even. *)
Definition format_2f (x : float) : string :=
  match Prim2SF x with
  | S754_nan => "nan"
  | S754_infinity s => if s then "-inf" else "inf"
  | S754_zero s => if s then "-0.00" else "0.00"
  | S754_finite s m e =>
      let n := if 0 <=? e then Z.pos m * 2 ^ e * 100
               else round_half_even (Z.pos m * 100) (2 ^ (- e)) in
      (if s then "-" else "") +:+ pretty (n / 100) +:+ "." +:+ two_digits (n mod 100)
  end.

(** Python's [round(x)] and [math.ceil(x)]; both raise on NaN and
    infinities ([None]). *)
Definition round (x : float) : option Z :=
  match Prim2SF x with
  | S754_zero _ => Some 0
  | S754_finite s m e =>
      let n := if 0 <=? e then Z.pos m * 2 ^ e
               else round_half_even (Z.pos m) (2 ^ (- e)) in
      Some (if s then - n else n)
  | _ => None
  end.

Definition ceil (x : float) : option Z :=
  match Prim2SF x with
  | S754_zero _ => Some 0
  | S754_finite s m e =>
      if 0 <=? e then Some ((if s then -1 else 1) * (Z.pos m * 2 ^ e))
      else
        let q := Z.pos m / 2 ^ (- e) in
        let r := Z.pos m mod 2 ^ (- e) in
        Some (if s then - q else if r =? 0 then q else q + 1)
  | _ => None
  end.

End Num.

(** ** NumPy's legacy generator

    [np.random.RandomState(seed)] is the Mersenne Twister MT19937 seeded by
    [mt19937_seed]; pandas' [sample] and scikit-learn's [train_test_split]
    draw their permutations from it.  Words are 32-bit unsigned integers,
    kept in [Z] with the wrap-around written out. *)

Module MT19937.

Definition RK_STATE_LEN : nat := 624.
Definition MATRIX_A : Z := 0x9908b0df.
Definition UPPER_MASK : Z := 0x80000000.
Definition LOWER_MASK : Z := 0x7fffffff.

Definition u32 (x : Z) : Z := Z.land x 0xffffffff.

Record state : Type := mkState { key : list Z; pos : nat }.

Fixpoint seed_loop (n : nat) (pos : Z) (seed : Z) : list Z :=
  match n with
  | O => []
  | S n' =>
      seed :: seed_loop n' (pos + 1)
                (u32 (1812433253 * Z.lxor seed (Z.shiftr seed 30) + pos + 1))
  end.

Definition mt19937_seed (seed : Z) : state :=
  {| key := seed_loop RK_STATE_LEN 0 (u32 seed); pos := RK_STATE_LEN |}.

(** One step of the in-place regeneration of the key array. *)
Definition gen_step (key : list Z) (i : nat) : list Z :=
  let y := Z.lor (Z.land (nth i key 0) UPPER_MASK)
                 (Z.land (nth ((i + 1) mod 624) key 0) LOWER_MASK) in
  <[i := Z.lxor (Z.lxor (nth ((i + 397) mod 624) key 0) (Z.shiftr y 1))
                (if Z.odd y then MATRIX_A else 0)]> key.

Definition mt19937_gen (st : state) : state :=
  {| key := foldl gen_step (key st) (seq 0 RK_STATE_LEN); pos := 0 |}.

Definition temper (y : Z) : Z :=
  let y := Z.lxor y (Z.shiftr y 11) in
  let y := Z.lxor y (Z.land (u32 (Z.shiftl y 7)) 0x9d2c5680) in
  let y := Z.lxor y (Z.land (u32 (Z.shiftl y 15)) 0xefc60000) in
  Z.lxor y (Z.shiftr y 18).

Definition next_uint32 (st : state) : Z * state :=
  let st := if (pos st =? RK_STATE_LEN)%nat then mt19937_gen st else st in
  (temper (nth (pos st) (key st) 0), {| key := key st; pos := S (pos st) |}).

(** [random_double]: 53 random bits scaled to [0, 1). *)
Definition random_double (st : state) : float * state :=
  let '(a, st) := next_uint32 st in
  let '(b, st) := next_uint32 st in
  ((PrimFloat.of_uint63 (Uint63.of_Z (Z.shiftr a 5 * 67108864 + Z.shiftr b 6))
    / 9007199254740992)%float, st).

(** The smallest bit mask not below [max]. *)
Definition smear (max : Z) : Z :=
  let m := max in
  let m := Z.lor m (Z.shiftr m 1) in
  let m := Z.lor m (Z.shiftr m 2) in
  let m := Z.lor m (Z.shiftr m 4) in
  let m := Z.lor m (Z.shiftr m 8) in
  let m := Z.lor m (Z.shiftr m 16) in
  Z.lor m (Z.shiftr m 32).

(** [next_uint64]: two words, the first one the upper half. *)
Definition next_uint64 (st : state) : Z * state :=
  let '(hi, st) := next_uint32 st in
  let '(lo, st) := next_uint32 st in
  (Z.lor (Z.shiftl hi 32) lo, st).

(** What [random_interval(max)] draws: 32 bits when [max] fits in a word,
    64 bits otherwise. *)
Definition draw (max : Z) (st : state) : Z * state :=
  if max <=? 0xffffffff then next_uint32 st else next_uint64 st.

(** The rejection loop of [random_interval]: draw until the masked value
    is at most [max].  The loop has no bound in NumPy; here it gives up
    ([None]) after [fuel] draws. *)
Fixpoint interval_loop (fuel : nat) (mask max : Z) (st : state) : option (Z * state) :=
  match fuel with
  | O => None
  | S fuel' =>
      let '(r, st') := draw max st in
      let value := Z.land r mask in
      if max <? value then interval_loop fuel' mask max st' else Some (value, st')
  end.

Definition random_interval (fuel : nat) (max : Z) (st : state) : option (Z * state) :=
  if max =? 0 then Some (0, st) else interval_loop fuel (smear max) max st.

Definition swap {A} (i j : nat) (l : list A) : list A :=
  match l !! i, l !! j with
  | Some x, Some y => <[i := y]> (<[j := x]> l)
  | _, _ => l
  end.

(** [for i in reversed(range(1, n)): j = random_interval(i); swap x[i], x[j]] *)
Fixpoint shuffle_loop {A} (fuel : nat) (i : nat) (x : list A) (st : state)
  : option (list A * state) :=
  match i with
  | O => Some (x, st)
  | S i' =>
      '(j, st') ← random_interval fuel (Z.of_nat i) st;
      shuffle_loop fuel i' (swap i (Z.to_nat j) x) st'
  end.

Definition shuffle {A} (fuel : nat) (x : list A) (st : state) : option (list A * state) :=
  shuffle_loop fuel (length x - 1) x st.

(** [RandomState.permutation(n)] *)
Definition permutation (fuel : nat) (n : nat) (st : state) : option (list nat * state) :=
  shuffle fuel (seq 0 n) st.

End MT19937.

(** The bound on the draws of one [random_interval] call; a call that
    exceeds it is reported as [NoTermination]. *)
Definition draw_limit : nat := 4096.

(** ** Data frames *)

(** A cell: float64, int64 or a Python string.  A missing value is the
    float NaN, also inside a column of strings. *)
Inductive value : Type :=
  | VFloat (x : float)
  | VInt (z : Z)
  | VStr (s : string).

Abbreviation Series := (list value).

(** A data frame: the row labels and the named columns, in column order. *)
Record DataFrame : Type := mkDataFrame {
  index : list nat;
  columns : list (string * Series)
}.

Definition column_names (df : DataFrame) : list string := (columns df).*1.
Definition n_rows (df : DataFrame) : nat := length (index df).

(** Every column has one cell per row label and names are not repeated. *)
Definition wf (df : DataFrame) : Prop :=
  Forall (fun c => length c.2 = n_rows df) (columns df) ∧ NoDup (column_names df).

(** The columns of a frame behave as a Python [dict] keyed by name, in
    insertion order: assigning to an existing key keeps its position,
    assigning to a new key appends. *)
Fixpoint dict_get {V} (key : string) (d : list (string * V)) : option V :=
  match d with
  | [] => None
  | (k, v) :: rest => if String.eqb k key then Some v else dict_get key rest
  end.

Fixpoint dict_set {V} (key : string) (v : V) (d : list (string * V)) : list (string * V) :=
  match d with
  | [] => [(key, v)]
  | (k, v') :: rest =>
      if String.eqb k key then (key, v) :: rest else (k, v') :: dict_set key v rest
  end.

(** [dict(pairs)] *)
Definition dict {V} (pairs : list (string * V)) : list (string * V) :=
  foldl (fun d p => dict_set p.1 p.2 d) [] pairs.

(** [df[name]] *)
Definition getitem (df : DataFrame) (name : string) : result Series :=
  from_option (KeyError name) (dict_get name (columns df)).

(** Selection of the entries where the mask is true ([np.compress]). *)
Fixpoint compress {A} (mask : list bool) (l : list A) : list A :=
  match mask, l with
  | b :: mask', x :: l' => if b then x :: compress mask' l' else compress mask' l'
  | _, _ => []
  end.

Definition select_rows (mask : list bool) (df : DataFrame) : DataFrame :=
  {| index := compress mask (index df);
     columns := prod_map id (compress mask) <$> columns df |}.

(** [df[mask]] for a boolean mask. *)
Definition getitem_mask (df : DataFrame) (mask : list bool) : result DataFrame :=
  if (length mask =? n_rows df)%nat then Ok (select_rows mask df)
  else Raise (ValueError "Item wrong length").

(** [df[[n1, n2, ...]]] *)
Definition getitem_columns (df : DataFrame) (names : list string) : result DataFrame :=
  cols ← mapM (fun n => c ← getitem df n; Ok (n, c)) names;
  Ok {| index := index df; columns := cols |}.

(** [df[name] = col]: an existing column is replaced where it stands, a
    new one is appended. *)
Definition setitem (df : DataFrame) (name : string) (col : Series) : result DataFrame :=
  if (length col =? n_rows df)%nat then
    Ok {| index := index df; columns := dict_set name col (columns df) |}
  else Raise (ValueError "Length of values does not match length of index").

(** [df.drop(columns=names)] *)
Definition drop_columns (df : DataFrame) (names : list string) : result DataFrame :=
  match filter (fun n => n ∉ column_names df) names with
  | n :: _ => Raise (KeyError n)
  | [] => Ok {| index := index df;
                columns := filter (fun c => c.1 ∉ names) (columns df) |}
  end.

(** [l.take(locs)]: entries by position. *)
Definition take_list {A} (locs : list nat) (l : list A) : result (list A) :=
  mapM (fun i => from_option (IndexError "indices are out-of-bounds") (l !! i)) locs.

(** [df.take(locs)]: rows by position. *)
Definition take_rows (df : DataFrame) (locs : list nat) : result DataFrame :=
  idx ← take_list locs (index df);
  cols ← mapM (fun c => col ← take_list locs c.2; Ok (c.1, col)) (columns df);
  Ok {| index := idx; columns := cols |}.

(** ** Series arithmetic *)

(** The cell as a float64; a string raises the given exception. *)
Definition to_float_or (e : exn) (v : value) : result float :=
  match v with
  | VFloat x => Ok x
  | VInt z => Ok (Num.of_Z z)
  | VStr _ => Raise e
  end.

(** The cell as an operand of float arithmetic. *)
Definition to_float (v : value) : result float :=
  to_float_or (TypeError "unsupported operand type(s) for /: 'str' and 'float'") v.

(** The values of a series in NumPy arithmetic, as [zscore] uses them. *)
Definition to_floats (s : Series) : result (list float) := mapM to_float s.

(** [np.asarray(series, dtype=float)], the conversion scikit-learn applies
    to what it is given. *)
Definition as_float_array (s : Series) : result (list float) :=
  mapM (to_float_or (ValueError "could not convert string to float")) s.

(** [series > k] and [series < k] for an integer literal [k]. *)
Definition gt_int (k : Z) (v : value) : result bool :=
  match v with
  | VFloat x => Ok (PrimFloat.ltb (Num.of_Z k) x)
  | VInt z => Ok (k <? z)
  | VStr _ => Raise (TypeError "'>' not supported between instances of 'str' and 'int'")
  end.

Definition lt_int (k : Z) (v : value) : result bool :=
  match v with
  | VFloat x => Ok (PrimFloat.ltb x (Num.of_Z k))
  | VInt z => Ok (z <? k)
  | VStr _ => Raise (TypeError "'<' not supported between instances of 'str' and 'int'")
  end.

(** int64 arithmetic wraps around. *)
Definition wrap64 (z : Z) : Z := (z + 2 ^ 63) mod 2 ^ 64 - 2 ^ 63.

(** [k - series], [series + k], [a / b] and [a * b], cell by cell. *)
Definition rsub_int (k : Z) (v : value) : result value :=
  match v with
  | VFloat x => Ok (VFloat (Num.of_Z k - x))
  | VInt z => Ok (VInt (wrap64 (k - z)))
  | VStr _ => Raise (TypeError "unsupported operand type(s) for -: 'int' and 'str'")
  end.

Definition add_int (k : Z) (v : value) : result value :=
  match v with
  | VFloat x => Ok (VFloat (x + Num.of_Z k))
  | VInt z => Ok (VInt (wrap64 (z + k)))
  | VStr _ => Raise (TypeError "can only concatenate str (not 'int') to str")
  end.

Definition truediv (a b : value) : result value :=
  x ← to_float a;
  y ← to_float b;
  Ok (VFloat (x / y)).

Definition str_repeat (s : string) (k : Z) : string :=
  String.concat "" (replicate (Z.to_nat k) s).

Definition mul (a b : value) : result value :=
  match a, b with
  | VInt x, VInt y => Ok (VInt (wrap64 (x * y)))
  | VFloat x, VFloat y => Ok (VFloat (x * y))
  | VFloat x, VInt y => Ok (VFloat (x * Num.of_Z y))
  | VInt x, VFloat y => Ok (VFloat (Num.of_Z x * y))
  | VStr s, VInt k | VInt k, VStr s => Ok (VStr (str_repeat s k))
  | _, _ => Raise (TypeError "can't multiply sequence by non-int")
  end.

(** A binary operation on two series of one frame. *)
Definition zip_withM {A B C} (f : A → B → result C) (l : list A) (k : list B)
  : result (list C) :=
  mapM (fun p => f p.1 p.2) (zip l k).

(** ** Cleaning stage *)

Definition projected_columns : list string :=
  ["price"; "year"; "manufacturer"; "fuel"; "odometer"; "transmission"; "drive";
   "paint_color"; "type"].

(** [data[(data['price'] > 500) & (data['price'] < 80000)]] *)
Definition price_filter (data : DataFrame) : result DataFrame :=
  price ← getitem data "price";
  above ← mapM (gt_int 500) price;
  price ← getitem data "price";
  below ← mapM (lt_int 80000) price;
  getitem_mask data (zip_with andb above below).

(** [RandomState(seed).choice(n, size=size, replace=False)]: the first
    [size] entries of a seeded permutation of [0 .. n-1]. *)
Definition choice (random_state : Z) (n : nat) (size : Z) : result (list nat) :=
  if (random_state <? 0) || (2 ^ 32 <=? random_state) then
    Raise (ValueError "Seed must be between 0 and 2**32 - 1")
  else if Z.of_nat n <? size then
    Raise (ValueError "Cannot take a larger sample than population when 'replace=False'")
  else if size <? 0 then
    Raise (ValueError "negative dimensions are not allowed")
  else
    p ← from_option (NoTermination "random_interval")
          (MT19937.permutation draw_limit n (MT19937.mt19937_seed random_state));
    Ok (take (Z.to_nat size) p.1).

(** [data.sample(frac=frac, random_state=random_state)] *)
Definition sample (frac : float) (random_state : Z) (data : DataFrame) : result DataFrame :=
  size ← from_option (ValueError "cannot convert float NaN to integer")
           (Num.round (frac * Num.of_nat (n_rows data)));
  locs ← choice random_state (n_rows data) size;
  take_rows data locs.

Definition cleaning (data : DataFrame) : result DataFrame :=
  data ← price_filter data;
  data ← getitem_columns data projected_columns;
  sample 0.3 42 data.

(** ** Library functions left abstract

    The nearest-neighbour imputer, the mutual-information estimator and the
    regression-tree learner of scikit-learn enter as parameters.  A matrix
    is the list of its rows.  The estimator and the learner draw from a
    generator state; the learner returns the state it leaves behind. *)
Abbreviation matrix := (list (list float)).

Class Sklearn : Type := {
  KNNImputer_fit_transform : nat → matrix → result matrix;
  mutual_info_regression : MT19937.state → matrix → list float → result (list float);
  Tree : Type;
  fit_tree : MT19937.state → matrix → list float → Tree * MT19937.state;
  tree_predict : Tree → list float → float
}.

(** ** Imputation *)

Definition numerical_columns : list string := ["year"; "odometer"].

(** Rows from columns and columns from rows. *)
Definition transpose (n : nat) (lists : matrix) : matrix :=
  (fun i => (fun l => nth i l PrimFloat.nan) <$> lists) <$> seq 0 n.

(** The frame as a float matrix, as an estimator receives it. *)
Definition to_matrix (data : DataFrame) : result matrix :=
  cols ← mapM (fun c => as_float_array c.2) (columns data);
  Ok (transpose (n_rows data) cols).

(** The columns of an array of the given width, as series. *)
Definition of_matrix (width : nat) (X : matrix) : list Series :=
  (fun column : list float => VFloat <$> column) <$> transpose width X.

Fixpoint setitem_each (data : DataFrame) (cols : list (string * Series)) : result DataFrame :=
  match cols with
  | [] => Ok data
  | (name, col) :: rest => data ← setitem data name col; setitem_each data rest
  end.

(** [data[keys] = array] for a two-dimensional array. *)
Definition setitem_columns (data : DataFrame) (keys : list string) (array : matrix)
  : result DataFrame :=
  if negb (forallb (fun row => length row =? length keys)%nat array) then
    Raise (ValueError "Columns must be same length as key")
  else if negb (length array =? n_rows data)%nat then
    Raise (ValueError "Length of values does not match length of index")
  else setitem_each data (zip keys (of_matrix (length keys) array)).

Definition impute `{Sklearn} (data : DataFrame) : result DataFrame :=
  sub ← getitem_columns data numerical_columns;
  X ← to_matrix sub;
  X ← KNNImputer_fit_transform 5 X;
  setitem_columns data numerical_columns X.

(** ** Outlier filter *)

(** [np.std] with [ddof = 0]: the deviations from the computed mean are
    squared, summed as [np.sum] sums, divided by the count, and the root
    is taken. *)
Definition std (xs : list float) : float :=
  let mn := Num.mean xs in
  PrimFloat.sqrt (Num.mean (map (fun x => Num.square (x - mn)%float) xs)).

(** SciPy's test for a constant input, [(a[0] == a).all()]: every cell
    compares equal to the first one (a NaN equals nothing). *)
Definition isconst (xs : list float) : bool :=
  match xs with
  | [] => false
  | x :: _ => forallb (PrimFloat.eqb x) xs
  end.

(** [scipy.stats.zscore] with its defaults: [(x - mean) / std] with the
    population standard deviation, and NaN in every place when the input
    is constant.  A zero deviation of an input that is not constant
    divides by zero, and the scores are infinite or NaN. *)
Definition zscore (xs : list float) : list float :=
  let mn := Num.mean xs in
  let sd := std xs in
  if isconst xs then map (fun _ => PrimFloat.nan) xs
  else map (fun x => ((x - mn) / sd)%float) xs.

(** [series.abs() < 3] *)
Definition abs_lt_3 (z : float) : bool := PrimFloat.ltb (PrimFloat.abs z) 3.

Definition outlier_filter (data : DataFrame) : result DataFrame :=
  odometer ← getitem data "odometer";
  xs ← to_floats odometer;
  data ← setitem data "odometer_zscore" (VFloat <$> zscore xs);
  z ← getitem data "odometer_zscore";
  zs ← to_floats z;
  data ← getitem_mask data (abs_lt_3 <$> zs);
  drop_columns data ["odometer_zscore"].

(** ** Categorical encoder *)

Definition categorical_columns : list string :=
  ["manufacturer"; "fuel"; "transmission"; "drive"; "paint_color"; "type"].

(** The encoder of the script is scikit-learn's [LabelEncoder], whose code
    is not part of the repository; the definitions below follow section
    4.4 of the specification and the documented behaviour of the class.
    The class encodes a column of strings (dtype [object]) by the sorted
    distinct strings, the missing value last, and a column of numbers by
    the sorted distinct numbers ([np.unique]). *)

(** The category of a cell of a column of strings: the string, or [None]
    for a missing value (NaN).  Other numbers do not mix with strings. *)
Definition category (v : value) : result (option string) :=
  match v with
  | VStr s => Ok (Some s)
  | VFloat x =>
      if Num.is_nan x then Ok None
      else Raise (TypeError "Encoders require their input argument must be uniformly strings or numbers")
  | VInt _ =>
      Raise (TypeError "Encoders require their input argument must be uniformly strings or numbers")
  end.

(** Modelled from the spec: [LabelEncoder.classes_], the distinct observed
    values in a deterministic order, sorted by value; the missing value,
    if there is one, comes last. *)
Definition classes_ (y : list (option string)) : list (option string) :=
  (Some <$> merge_sort String.le (remove_dups (omap id y)))
  ++ (if decide (None ∈ y) then [None] else []).

(** Modelled from the spec: the code of a value of [LabelEncoder], its
    zero-based position in [classes_]. *)
Definition code (classes : list (option string)) (k : option string) : option nat :=
  fst <$> list_find (fun c => c = k) classes.

(** Modelled from the spec: [LabelEncoder.transform], every cell replaced
    by its code; a value outside the classes is an error. *)
Definition transform (classes : list (option string)) (y : list (option string))
  : result (list nat) :=
  mapM (fun k => from_option (ValueError "y contains previously unseen labels")
                   (code classes k)) y.

(** The codes as an int64 series. *)
Definition of_codes (codes : list nat) : Series := (fun c => VInt (Z.of_nat c)) <$> codes.

(** [np.unique] with [return_inverse]: the distinct numbers in increasing
    order and, for every number, the position of its equal among them. *)
Section Unique.
Context {A : Type} (eqb ltb : A → A → bool).

Fixpoint insert_unique (x : A) (l : list A) : list A :=
  match l with
  | [] => [x]
  | c :: l' =>
      if eqb x c then l else if ltb x c then x :: l else c :: insert_unique x l'
  end.

Definition unique (l : list A) : list A := foldr insert_unique [] l.

Definition inverse (classes : list A) (x : A) : option nat :=
  fst <$> list_find (fun c => eqb x c = true) classes.

Definition inverse_all (classes keys : list A) : result (list nat) :=
  mapM (fun x => from_option (ValueError "y contains previously unseen labels")
                   (inverse classes x)) keys.

End Unique.

(** Floats as [np.unique] orders them: by value, all NaNs equal to one
    another and above every number. *)
Definition key_eqb (a b : float) : bool :=
  (Num.is_nan a && Num.is_nan b) || PrimFloat.eqb a b.

Definition key_ltb (a b : float) : bool :=
  if Num.is_nan a then false else if Num.is_nan b then true else PrimFloat.ltb a b.

Definition is_str (v : value) : bool := match v with VStr _ => true | _ => false end.
Definition is_int (v : value) : bool := match v with VInt _ => true | _ => false end.

Definition int_cell (v : value) : option Z :=
  match v with VInt z => Some z | _ => None end.

Definition number_cell (v : value) : option float :=
  match v with
  | VFloat x => Some x
  | VInt z => Some (Num.of_Z z)
  | VStr _ => None
  end.

(** Modelled from the spec: [LabelEncoder().fit_transform(series)], the
    classes built from the column and the column transformed by them.  A
    column with a string in it has dtype [object] and is encoded as
    strings; a column of integers is int64 and a column of other numbers
    float64, and both are encoded as numbers. *)
Definition fit_transform (series : Series) : result Series :=
  if existsb is_str series then
    y ← mapM category series;
    codes ← transform (classes_ y) y;
    Ok (of_codes codes)
  else if forallb is_int series then
    let zs := omap int_cell series in
    codes ← inverse_all Z.eqb (unique Z.eqb Z.ltb zs) zs;
    Ok (of_codes codes)
  else
    let xs := omap number_cell series in
    codes ← inverse_all key_eqb (unique key_eqb key_ltb xs) xs;
    Ok (of_codes codes).

(** [for col in cols: data[col] = label_encoder.fit_transform(data[col])] *)
Fixpoint encode_columns (cols : list string) (data : DataFrame) : result DataFrame :=
  match cols with
  | [] => Ok data
  | col :: rest =>
      series ← getitem data col;
      codes ← fit_transform series;
      data ← setitem data col codes;
      encode_columns rest data
  end.

Definition encode (data : DataFrame) : result DataFrame :=
  encode_columns categorical_columns data.

(** ** Feature engineer *)

(** The columns the Feature Engineer adds. *)
Definition derived_columns : list string := ["car_age"; "price_per_km"; "odometer_fuel"].

Definition feature_engineer (current_year : Z) (data : DataFrame) : result DataFrame :=
  year ← getitem data "year";
  car_age ← mapM (rsub_int current_year) year;
  data ← setitem data "car_age" car_age;
  price ← getitem data "price";
  odometer ← getitem data "odometer";
  odometer1 ← mapM (add_int 1) odometer;
  price_per_km ← zip_withM truediv price odometer1;
  data ← setitem data "price_per_km" price_per_km;
  odometer ← getitem data "odometer";
  fuel ← getitem data "fuel";
  odometer_fuel ← zip_withM mul odometer fuel;
  setitem data "odometer_fuel" odometer_fuel.

(** ** Feature selector *)

(** [[feature for feature, score in importance_dict.items() if score > 0.01]] *)
Definition select_features (importance_dict : list (string * float)) : list string :=
  (filter (fun p => PrimFloat.ltb 0.01 p.2 = true) importance_dict).*1.

(** ** Splitter *)

Record Split : Type := mkSplit {
  X_train : DataFrame;
  X_test : DataFrame;
  y_train : list float;
  y_test : list float
}.

(** [train_test_split(X, y, test_size=test_size, random_state=random_state)]:
    the first [ceil(test_size * n)] entries of a seeded permutation are the
    test rows, the others the training rows. *)
Definition train_test_split (X : DataFrame) (y : list float) (test_size : float)
    (random_state : Z) : result Split :=
  let n := n_rows X in
  if negb (length y =? n)%nat then
    Raise (ValueError "Found input variables with inconsistent numbers of samples")
  else
    n_test ← from_option (ValueError "cannot convert float NaN to integer")
               (Num.ceil (test_size * Num.of_nat n));
    let n_test := Z.to_nat n_test in
    let n_train := (n - n_test)%nat in
    if (n_train =? 0)%nat then Raise (ValueError "the resulting train set will be empty")
    else
      permutation ← choice random_state n (Z.of_nat n);
      let ind_test := take n_test permutation in
      let ind_train := take n_train (drop n_test permutation) in
      X_train ← take_rows X ind_train;
      X_test ← take_rows X ind_test;
      y_train ← take_list ind_train y;
      y_test ← take_list ind_test y;
      Ok {| X_train := X_train; X_test := X_test; y_train := y_train; y_test := y_test |}.

(** ** Boosting engine *)

(** Modelled from the spec: the additive ensemble of section 4.8, which in
    the script is scikit-learn's [GradientBoostingRegressor]: a constant
    initial prediction and the trees, each scaled by the learning rate. *)
Record Ensemble `{Sklearn} : Type := mkEnsemble {
  init_ : float;
  learning_rate : float;
  estimators_ : list Tree
}.

(** The error of scikit-learn's input validation for an array without
    columns. *)
Definition no_features : exn :=
  ValueError "Found array with 0 feature(s) while a minimum of 1 is required by GradientBoostingRegressor".

Section Boosting.
Context `{Sklearn}.

(** Modelled from the spec: one boosting iteration adds the scaled output
    of a tree to the running prediction of every row. *)
Definition add_stage (learning_rate : float) (tree : Tree) (X : matrix) (raw : list float)
  : list float :=
  zip_with (fun f row => (f + learning_rate * tree_predict tree row)%float) raw X.

(** Modelled from the spec: the transition of section 4.8, [n_estimators]
    times: fit a tree to the residuals [y - prediction] and add its scaled
    output to the prediction of the training rows. *)
Fixpoint boost (n_estimators : nat) (learning_rate : float) (rng : MT19937.state)
    (X : matrix) (y raw : list float) : list Tree :=
  match n_estimators with
  | O => []
  | S n =>
      let residual := zip_with PrimFloat.sub y raw in
      let '(tree, rng) := fit_tree rng X residual in
      tree :: boost n learning_rate rng X y (add_stage learning_rate tree X raw)
  end.

(** Modelled from the spec: [GradientBoostingRegressor(random_state=seed).fit(X, y)]
    with the defaults of section 4.8 (100 trees, learning rate 0.1, initial
    prediction the mean of the target).  scikit-learn validates its input
    first and rejects an array without samples or without features. *)
Definition GradientBoostingRegressor_fit (random_state : Z) (X_train : DataFrame)
    (y_train : list float) : result Ensemble :=
  X ← to_matrix X_train;
  if (n_rows X_train =? 0)%nat then
    Raise (ValueError "Found array with 0 sample(s) while a minimum of 1 is required by GradientBoostingRegressor")
  else if (length (columns X_train) =? 0)%nat then Raise no_features
  else if negb (length y_train =? n_rows X_train)%nat then
    Raise (ValueError "Found input variables with inconsistent numbers of samples")
  else
    let init := Num.mean y_train in
    Ok {| init_ := init;
          learning_rate := 0.1;
          estimators_ := boost 100 0.1 (MT19937.mt19937_seed random_state) X y_train
                           (replicate (length y_train) init) |}.

(** Modelled from the spec: the predictions after each prefix of the
    trees, one vector per tree. *)
Fixpoint staged (learning_rate : float) (trees : list Tree) (X : matrix) (raw : list float)
  : list (list float) :=
  match trees with
  | [] => []
  | tree :: trees =>
      let raw := add_stage learning_rate tree X raw in
      raw :: staged learning_rate trees X raw
  end.

Definition staged_predict (model : Ensemble) (X : DataFrame) : result (list (list float)) :=
  X ← to_matrix X;
  Ok (staged (learning_rate model) (estimators_ model) X (replicate (length X) (init_ model))).

(** Modelled from the spec: the prediction of the whole ensemble. *)
Definition predict (model : Ensemble) (X : DataFrame) : result (list float) :=
  X ← to_matrix X;
  Ok (foldl (fun raw tree => add_stage (learning_rate model) tree X raw)
        (replicate (length X) (init_ model)) (estimators_ model)).

End Boosting.

(** ** Evaluator (sklearn.metrics as called by [evaluate_model]) *)

Definition zip_with_sub (a b : list float) : list float :=
  zip_with PrimFloat.sub a b.

(** [check_array]'s [_assert_all_finite]: a NaN anywhere is reported
    before an infinity. *)
Definition assert_all_finite (y : list float) : result unit :=
  if existsb Num.is_nan y then Raise (ValueError "Input contains NaN.")
  else if existsb Num.is_inf y then
    Raise (ValueError "Input contains infinity or a value too large for dtype('float64').")
  else Ok tt.

(** [check_array(y, ensure_2d=False)]: all entries finite, then at least
    one sample. *)
Definition check_array (y : list float) : result unit :=
  _ ← assert_all_finite y;
  if (length y =? 0)%nat then
    Raise (ValueError "Found array with 0 sample(s) while a minimum of 1 is required")
  else Ok tt.

(** [_check_reg_targets]: [check_consistent_length], then [check_array]
    on [y_true] and on [y_pred]. *)
Definition check_reg_targets (y_true y_pred : list float) : result unit :=
  if negb (length y_true =? length y_pred)%nat then
    Raise (ValueError "Found input variables with inconsistent numbers of samples")
  else
    _ ← check_array y_true;
    check_array y_pred.

Definition mean_absolute_error (y_true y_pred : list float) : result float :=
  _ ← check_reg_targets y_true y_pred;
  Ok (Num.mean (map PrimFloat.abs (zip_with_sub y_pred y_true))).

Definition mean_squared_error (y_true y_pred : list float) : result float :=
  _ ← check_reg_targets y_true y_pred;
  Ok (Num.mean (map Num.square (zip_with_sub y_true y_pred))).

(** Residual and total sums of squares of [r2_score]; the total is taken
    about the mean of [y_true]. *)
Definition ss_res (y_true y_pred : list float) : float :=
  Num.sum (map Num.square (zip_with_sub y_true y_pred)).

Definition ss_tot (y_true : list float) : float :=
  let m := Num.mean y_true in
  Num.sum (map (fun y => Num.square (y - m)%float) y_true).

Definition r2_score (y_true y_pred : list float) : result float :=
  _ ← check_reg_targets y_true y_pred;
  if (length y_pred <? 2)%nat then Ok PrimFloat.nan
  else
    let numerator := ss_res y_true y_pred in
    let denominator := ss_tot y_true in
    if PrimFloat.eqb denominator 0 then
      Ok (if PrimFloat.eqb numerator 0 then 1%float else 0%float)
    else Ok (1 - numerator / denominator)%float.

(** [evaluate_model] returns the three metrics; the lines it prints are
    returned next to them. *)
Definition evaluate_model (y_test y_pred : list float) (model_name : string)
  : result (list string * (float * float * float)) :=
  mae ← mean_absolute_error y_test y_pred;
  mse ← mean_squared_error y_test y_pred;
  r2 ← r2_score y_test y_pred;
  Ok ([ model_name +:+ " Performance:";
        "Mean Absolute Error (MAE): " +:+ Num.format_2f mae;
        "Mean Squared Error (MSE): " +:+ Num.format_2f mse;
        "R² Score: " +:+ Num.format_2f r2;
        "----------------------------------------" ],
      (mae, mse, r2)).

(** ** The script *)

(** What a run reads besides the table: the wall clock
    ([datetime.datetime.now().year]) and the state of NumPy's global
    generator, which [mutual_info_regression] draws from because it is
    called without [random_state]. *)
Record World : Type := mkWorld {
  clock_year : Z;
  global_rng : MT19937.state
}.

Record Outputs `{Sklearn} : Type := mkOutputs {
  importance_dict : list (string * float);
  selected_features : list string;
  split : Split;
  gbr_model : Ensemble;
  y_pred : list float;
  printed : list string;
  metrics : float * float * float;
  test_errors : list float
}.

Section Script.
Context `{Sklearn}.

(** Lines 15 to 41: the table up to the Feature Engineer. *)
Definition prepare (w : World) (data : DataFrame) : result DataFrame :=
  data ← cleaning data;
  data ← impute data;
  data ← outlier_filter data;
  data ← encode data;
  feature_engineer (clock_year w) data.

(** Lines 44 to 52: scores and selection. *)
Definition score_features (w : World) (data : DataFrame)
  : result (DataFrame * Series * list (string * float)) :=
  X ← drop_columns data ["price"];
  y ← getitem data "price";
  Xm ← to_matrix X;
  ym ← as_float_array y;
  importance ← mutual_info_regression (global_rng w) Xm ym;
  Ok (X, y, dict (zip (column_names X) importance)).

(** Lines 51 to 115: selection, split, fit, evaluation, staged errors. *)
Definition train (X : DataFrame) (y : Series) (importance_dict : list (string * float))
  : result Outputs :=
  let selected_features := select_features importance_dict in
  X ← getitem_columns X selected_features;
  ym ← as_float_array y;
  s ← train_test_split X ym 0.1 42;
  gbr_model ← GradientBoostingRegressor_fit 42 (X_train s) (y_train s);
  y_pred ← predict gbr_model (X_test s);
  report ← evaluate_model (y_test s) y_pred "Gradient Boosting Regressor";
  results ← staged_predict gbr_model (X_test s);
  test_errors ← mapM (mean_squared_error (y_test s)) results;
  Ok {| importance_dict := importance_dict;
        selected_features := selected_features;
        split := s;
        gbr_model := gbr_model;
        y_pred := y_pred;
        printed := report.1;
        metrics := report.2;
        test_errors := test_errors |}.

Definition script (w : World) (data : DataFrame) : result Outputs :=
  data ← prepare w data;
  scored ← score_features w data;
  train scored.1.1 scored.1.2 scored.2.

End Script.

(** ** Vocabulary of the properties *)

(** The positions at which a mask is true, in increasing order. *)
Fixpoint true_positions (mask : list bool) : list nat :=
  match mask with
  | [] => []
  | b :: mask' => (if b then [0%nat] else []) ++ (S <$> true_positions mask')
  end.

(** [out] keeps some rows of [df], in the order they have in [df]. *)
Definition drops_rows (df out : DataFrame) : Prop :=
  ∃ locs, StronglySorted lt locs ∧ take_rows df locs = Ok out.

(** [out] holds rows of [df], none of them twice, in any order. *)
Definition picks_rows (df out : DataFrame) : Prop :=
  ∃ locs, NoDup locs ∧ take_rows df locs = Ok out.

(** The order of the classes: strings in string order, the missing value
    last. *)
Definition key_lt (a b : option string) : Prop :=
  match a, b with
  | Some s, Some t => String.le s t ∧ s ≠ t
  | Some _, None => True
  | None, _ => False
  end.

Definition sorted_strings (y : list (option string)) : list string :=
  merge_sort String.le (remove_dups (omap id y)).

(** A computation that does not end in the specification's [DataError]. *)
Definition no_DataError {A} (r : result A) : Prop := ∀ msg, r ≠ Raise (DataError msg).

(** A column whose numbers are all equal, as floats compare. *)
Definition all_equal (xs : list float) : Prop :=
  ∀ x y, x ∈ xs → y ∈ xs → PrimFloat.eqb x y = true.

(** The three formulas of the Feature Engineer as section 4.5 writes them,
    cell by cell on numbers: between a float and any number the arithmetic
    is that of float64, between two integers that of int64, and a quotient
    is always the float64 quotient of the two numbers as floats. *)
Definition car_age_formula (current_year : Z) (year : value) : option value :=
  match year with
  | VFloat y => Some (VFloat (Num.of_Z current_year - y))
  | VInt y => Some (VInt (wrap64 (current_year - y)))
  | VStr _ => None
  end.

Definition price_per_km_formula (price odometer : value) : option value :=
  match number_cell price, odometer with
  | Some p, VFloat o => Some (VFloat (p / (o + 1)))
  | Some p, VInt o => Some (VFloat (p / Num.of_Z (wrap64 (o + 1))))
  | _, _ => None
  end.

Definition odometer_fuel_formula (odometer fuel_code : value) : option value :=
  match odometer, fuel_code with
  | VFloat o, VFloat f => Some (VFloat (o * f))
  | VFloat o, VInt f => Some (VFloat (o * Num.of_Z f))
  | VInt o, VFloat f => Some (VFloat (Num.of_Z o * f))
  | VInt o, VInt f => Some (VInt (wrap64 (o * f)))
  | _, _ => None
  end.

(** A price the Cleaning Stage keeps: a number strictly between 500 and
    80000.  NaN is not one. *)
Definition price_in_range (v : value) : bool :=
  match v with
  | VInt z => (500 <? z) && (z <? 80000)
  | VFloat x => PrimFloat.ltb 500 x && PrimFloat.ltb x 80000
  | VStr _ => false
  end.

(** Kinds of cells: a number (int64 or float64), a float64, and an
    encoder's code below [n]. *)
Definition is_number (v : value) : Prop :=
  match v with VStr _ => False | _ => True end.

Definition is_float (v : value) : Prop :=
  match v with VFloat _ => True | _ => False end.

Definition is_code (n : nat) (v : value) : Prop :=
  ∃ c : nat, v = VInt (Z.of_nat c) ∧ (c < n)%nat.

(** The column of a matrix at a position, as a float64 series. *)
Definition matrix_column (i : nat) (X : matrix) : Series :=
  (fun row : list float => VFloat (nth i row PrimFloat.nan)) <$> X.

(** A 32-bit word, and a generator state as NumPy keeps it: 624 words and
    a position among them or just behind them. *)
Definition word32 (z : Z) : Prop := 0 ≤ z < 2 ^ 32.

(** The values that [random_interval(max)] tests in its first [n] rounds:
    the draws, masked. *)
Fixpoint masked_draws (n : nat) (max : Z) (st : MT19937.state) : list Z :=
  match n with
  | O => []
  | S n =>
      let '(r, st') := MT19937.draw max st in
      Z.land r (MT19937.smear max) :: masked_draws n max st'
  end.

Definition state_ok (st : MT19937.state) : Prop :=
  Forall word32 (MT19937.key st) ∧ length (MT19937.key st) = 624%nat ∧
  (MT19937.pos st ≤ 624)%nat.

(** Every cell of a column of a frame satisfies [P]. *)
Definition column_all (P : value → Prop) (df : DataFrame) (name : string) : Prop :=
  ∃ col, getitem df name = Ok col ∧ Forall P col.

(** ** Sample tables *)

(** Ten listings; nine odometers read 50000 and the last reads 150000, so
    the mean is 60000, the deviation 30000 and the last score exactly 3. *)
Definition cars10 : DataFrame :=
  {| index := seq 0 10;
     columns :=
       [("price", VInt <$> [4500; 12000; 8900; 15500; 7200; 23000; 5600; 9800; 31000; 6400]);
        ("year", VFloat <$> [2012; 2015; 2010; 2018; 2011; 2019; 2009; 2014; 2020; 2008]%float);
        ("manufacturer", VStr <$> ["ford"; "toyota"; "bmw"; "toyota"; "ford"; "audi";
                                   "honda"; "ford"; "bmw"; "honda"]);
        ("fuel", VStr <$> ["gas"; "gas"; "diesel"; "hybrid"; "gas"; "diesel"; "gas";
                           "gas"; "electric"; "gas"]);
        ("odometer", VFloat <$> [50000; 50000; 50000; 50000; 50000; 50000; 50000;
                                 50000; 50000; 150000]%float);
        ("transmission", VStr <$> ["automatic"; "automatic"; "manual"; "automatic";
                                   "manual"; "automatic"; "manual"; "automatic";
                                   "automatic"; "manual"]);
        ("drive", VStr <$> ["fwd"; "fwd"; "rwd"; "4wd"; "fwd"; "4wd"; "fwd"; "rwd";
                            "rwd"; "fwd"]);
        ("paint_color", VStr <$> ["white"; "black"; "blue"; "red"; "white"; "grey";
                                  "silver"; "black"; "white"; "red"]);
        ("type", VStr <$> ["sedan"; "SUV"; "coupe"; "SUV"; "pickup"; "sedan";
                           "hatchback"; "pickup"; "sedan"; "hatchback"])] |}.

(** Three listings with the same odometer reading. *)
Definition cars3 : DataFrame :=
  {| index := seq 0 3;
     columns :=
       [("price", VInt <$> [4500; 12000; 8900]);
        ("year", VFloat <$> [2012; 2015; 2010]%float);
        ("manufacturer", VStr <$> ["ford"; "toyota"; "bmw"]);
        ("fuel", VStr <$> ["gas"; "gas"; "diesel"]);
        ("odometer", VFloat <$> [60000; 60000; 60000]%float);
        ("transmission", VStr <$> ["automatic"; "automatic"; "manual"]);
        ("drive", VStr <$> ["fwd"; "fwd"; "rwd"]);
        ("paint_color", VStr <$> ["white"; "black"; "blue"]);
        ("type", VStr <$> ["sedan"; "SUV"; "coupe"])] |}.

(** The listings of [cars10] four times over, labelled 0 to 39. *)
Definition cars40 : DataFrame :=
  {| index := seq 0 40;
     columns := prod_map id (fun c => c ++ c ++ c ++ c) <$> columns cars10 |}.

(** A stand-in for the library functions, to run the script on the sample
    tables: the imputer returns its matrix as it is (as scikit-learn's does
    when no value is missing), the estimator gives every feature the first
    word of its generator's key, scaled to [0, 1), as score, and every tree
    is the constant mean of the residuals it is fitted to. *)
Definition stub_sklearn : Sklearn :=
  {| KNNImputer_fit_transform := fun _ X => Ok X;
     mutual_info_regression := fun rng X _ =>
       Ok ((fun _ => (Num.of_Z (hd 0%Z (MT19937.key rng)) / 4294967296)%float)
             <$> default [] (head X));
     Tree := float;
     fit_tree := fun rng _ residual => (Num.mean residual, rng);
     tree_predict := fun tree _ => tree |}.

(** Two states of the world: the same clock, two states of NumPy's global
    generator.  Under [stub_sklearn] the scores are 0.5 in the first and
    below 0.01 in the second. *)
Definition world_a : World :=
  {| clock_year := 2026; global_rng := MT19937.mt19937_seed 2147483648 |}.

Definition world_b : World :=
  {| clock_year := 2026; global_rng := MT19937.mt19937_seed 1 |}.

(** * Properties *)

(** ** The exception monad *)

Lemma bind_Ok {A B} (r : result A) (k : A → result B) (b : B) :
  r ≫= k = Ok b ↔ ∃ a, r = Ok a ∧ k a = Ok b.
Proof.
  split.
  - destruct r as [a|e]; [|discriminate]. intros H. by exists a.
  - intros (a & -> & H). exact H.
Qed.

Lemma bind_Ok_l {A B} (a : A) (k : A → result B) : Ok a ≫= k = k a.
Proof. reflexivity. Qed.

Lemma from_option_Ok {A} (e : exn) (o : option A) (a : A) :
  from_option e o = Ok a ↔ o = Some a.
Proof. destruct o; simpl; split; congruence. Qed.

(** Splits a successful sequence of binds into its steps. *)
Ltac inv_ok H :=
  repeat match type of H with
  | _ ≫= _ = Ok _ =>
      let a := fresh "a" in let Ha := fresh "H" a in
      apply bind_Ok in H as (a & Ha & H)
  | mret ?x = Ok _ => change (mret x) with (Ok x) in H
  | Ok _ = Ok _ => injection H as H
  | Raise _ = Ok _ => discriminate H
  | (if ?c then _ else _) = Ok _ =>
      let Hc := fresh "Hc" in destruct c eqn:Hc; [|try discriminate H]
  end.

Section mapM_result.
Context {A B : Type} (f : A → result B).

Lemma mapM_Ok_cons x l l' :
  mapM f (x :: l) = Ok l' ↔ ∃ y k, f x = Ok y ∧ mapM f l = Ok k ∧ l' = y :: k.
Proof.
  simpl. split.
  - intros H. inv_ok H. subst. eauto.
  - intros (y & k & -> & -> & ->). reflexivity.
Qed.

Lemma mapM_Ok_length l l' : mapM f l = Ok l' → length l' = length l.
Proof.
  revert l'. induction l as [|x l IH]; intros l' H.
  - injection H as <-. reflexivity.
  - apply mapM_Ok_cons in H as (y & k & _ & Hk & ->). simpl. by rewrite (IH k).
Qed.

Lemma mapM_Ok_lookup l l' i x :
  mapM f l = Ok l' → l !! i = Some x → ∃ y, f x = Ok y ∧ l' !! i = Some y.
Proof.
  revert l' i. induction l as [|a l IH]; intros l' i H Hi; [done|].
  apply mapM_Ok_cons in H as (y & k & Hy & Hk & ->).
  destruct i as [|i]; simpl in *.
  - injection Hi as <-. eauto.
  - eauto.
Qed.

Lemma mapM_Ok_all (g : A → B) l : (∀ x, x ∈ l → f x = Ok (g x)) → mapM f l = Ok (g <$> l).
Proof.
  induction l as [|x l IH]; intros H; [done|].
  apply mapM_Ok_cons. exists (g x), (g <$> l). split_and!; [| |done].
  - apply H. left.
  - apply IH. intros y Hy. apply H. by right.
Qed.
End mapM_result.

Lemma to_floats_VFloat (zs : list float) : to_floats (VFloat <$> zs) = Ok zs.
Proof.
  unfold to_floats. induction zs as [|z zs IH]; [done|].
  apply mapM_Ok_cons. eauto.
Qed.

(** ** The model against known outputs of the libraries *)

(** [np.random.RandomState(42).randint(2**32)] begins with 1608637542 and
    [RandomState(42).rand()] is 0.3745401188473625. *)
Example mt19937_first_word :
  (MT19937.next_uint32 (MT19937.mt19937_seed 42)).1 = 1608637542.
Proof. by vm_compute. Qed.

Example mt19937_first_double :
  (MT19937.random_double (MT19937.mt19937_seed 42)).1 = 0.3745401188473625%float.
Proof. by vm_compute. Qed.

(** [np.random.RandomState(seed).permutation(10)] for the seeds 42 and 0. *)
Example permutation_seed_42 :
  fst <$> MT19937.permutation draw_limit 10 (MT19937.mt19937_seed 42)
  = Some [8; 1; 5; 0; 7; 2; 9; 4; 3; 6]%nat.
Proof. by vm_compute. Qed.

Example permutation_seed_0 :
  fst <$> MT19937.permutation draw_limit 10 (MT19937.mt19937_seed 0)
  = Some [2; 8; 4; 9; 1; 6; 7; 3; 0; 5]%nat.
Proof. by vm_compute. Qed.

(** [f"{x:.2f}"] rounds the binary value: 2.675 is stored just below the
    tie and 0.125 is a tie, which goes to the even digit. *)
(** The sums of NumPy: ten tenths add up to 1 pairwise and to less from
    left to right, and on a column of ten readings of which one stands
    out the score of that one is exactly 3. *)
Example pairwise_sum_examples :
  Num.sum (replicate 10 0.1%float) = 1%float ∧
  fold_left PrimFloat.add (replicate 10 0.1%float) 0%float = 0.99999999999999989%float ∧
  Num.sum (replicate 300 0.1%float) = 29.999999999999996%float ∧
  zscore ([6609; 8467] ++ replicate 8 6609)%float !! 1%nat = Some 3%float ∧
  length (filter (fun z => abs_lt_3 z = true) (zscore ([6609; 8467] ++ replicate 8 6609)%float))
    = 9%nat.
Proof. split_and!; by vm_compute. Qed.

(** A constant column has NaN scores whether or not its computed mean is
    the constant. *)
Example zscore_constant_examples :
  Num.mean (replicate 3 0.1%float) = 0.10000000000000002%float ∧
  zscore (replicate 3 0.1%float) = replicate 3 PrimFloat.nan ∧
  zscore (replicate 10 0.1%float) = replicate 10 PrimFloat.nan.
Proof. split_and!; by vm_compute. Qed.

Example of_Z_examples :
  Num.of_Z (- 2 ^ 63) = (-9223372036854775808)%float ∧
  Num.of_Z (2 ^ 63 - 1) = 9223372036854775808%float ∧
  Num.of_Z (-5) = (-5)%float.
Proof. split_and!; by vm_compute. Qed.

Example format_2f_examples :
  Num.format_2f 2.675 = "2.67" ∧ Num.format_2f 0.125 = "0.12" ∧
  Num.format_2f 0.375 = "0.38" ∧ Num.format_2f (-0.001) = "-0.00" ∧
  Num.format_2f 1234.5 = "1234.50" ∧ Num.format_2f 0.999 = "1.00".
Proof. split_and!; by vm_compute. Qed.

(** [round(0.3 * 10) = 3], [round(2.5) = 2], [ceil(0.1 * 10) = 1] and
    [ceil(0.1 * 12) = 2]. *)
Example round_ceil_examples :
  Num.round (0.3 * 10) = Some 3 ∧ Num.round 2.5 = Some 2 ∧
  Num.ceil (0.1 * 10) = Some 1 ∧ Num.ceil (0.1 * 12) = Some 2.
Proof. split_and!; by vm_compute. Qed.

(** [LabelEncoder().fit(["gas", "diesel", nan, "gas"]).classes_] *)
Example classes_example :
  classes_ [Some "gas"; Some "diesel"; None; Some "gas"] = [Some "diesel"; Some "gas"; None].
Proof. by vm_compute. Qed.

Example fit_transform_numbers :
  fit_transform (VInt <$> [3; 1; 2; 3]) = Ok (VInt <$> [2; 0; 1; 2]) ∧
  fit_transform (VFloat <$> [2.5; PrimFloat.nan; 1; PrimFloat.nan; -0; 0]%float)
    = Ok (VInt <$> [2; 3; 1; 3; 0; 0]) ∧
  fit_transform [VStr "gas"; VFloat PrimFloat.nan; VStr "diesel"] = Ok (VInt <$> [1; 2; 0]) ∧
  fit_transform [VStr "gas"; VInt 3]
    = Raise (TypeError "Encoders require their input argument must be uniformly strings or numbers").
Proof. split_and!; by vm_compute. Qed.

Example draw_64_bits :
  (MT19937.next_uint32 (MT19937.next_uint32 (MT19937.mt19937_seed 42)).2).1 = 3421126067 ∧
  (MT19937.draw (2 ^ 40) (MT19937.mt19937_seed 42)).1 = 1608637542 * 2 ^ 32 + 3421126067 ∧
  MT19937.pos (MT19937.draw (2 ^ 40) (MT19937.mt19937_seed 42)).2 = 2%nat ∧
  MT19937.pos (MT19937.draw 9 (MT19937.mt19937_seed 42)).2 = 1%nat.
Proof. split_and!; by vm_compute. Qed.

Example fit_transform_example :
  fit_transform (VStr <$> ["gas"; "diesel"; "hybrid"; "gas"]) = Ok (VInt <$> [1; 0; 2; 1]).
Proof. by vm_compute. Qed.

(** ** Data frame operations *)

Lemma filter_Forall_id {A} (P : A → Prop) `{!∀ x, Decision (P x)} (l : list A) :
  Forall P l → filter P l = l.
Proof.
  induction 1 as [|x l Hx _ IH]; [done|].
  by rewrite filter_cons_True, IH.
Qed.

Lemma dict_get_dict_set_eq {V} name (col : V) cols :
  dict_get name (dict_set name col cols) = Some col.
Proof.
  induction cols as [|[n c] cols IH]; simpl.
  - by rewrite String.eqb_refl.
  - destruct (String.eqb n name) eqn:E; simpl.
    + by rewrite String.eqb_refl.
    + by rewrite E.
Qed.

Lemma dict_set_fresh {V} name (col : V) cols :
  name ∉ cols.*1 → dict_set name col cols = cols ++ [(name, col)].
Proof.
  induction cols as [|[n c] cols IH]; intros Hn; [done|]. simpl in *.
  apply not_elem_of_cons in Hn as [Hne Hn].
  destruct (String.eqb_spec n name) as [->|_]; [done|]. by rewrite IH.
Qed.

Lemma dict_set_names_fresh {V} name (col : V) cols :
  name ∉ cols.*1 → (dict_set name col cols).*1 = cols.*1 ++ [name].
Proof. intros H. by rewrite dict_set_fresh, fmap_app. Qed.

Lemma dict_get_Some {V} name (cols : list (string * V)) c :
  dict_get name cols = Some c → (name, c) ∈ cols.
Proof.
  induction cols as [|[n c'] cols IH]; [done|]. simpl.
  destruct (String.eqb_spec n name) as [->|_].
  - intros [= ->]. left.
  - intros H. right. auto.
Qed.

Lemma getitem_length df name col : wf df → getitem df name = Ok col → length col = n_rows df.
Proof.
  intros [Hlen _] H. apply from_option_Ok, dict_get_Some in H.
  rewrite Forall_forall in Hlen. exact (Hlen _ H).
Qed.

Lemma dict_get_None {V} name (cols : list (string * V)) :
  dict_get name cols = None ↔ name ∉ cols.*1.
Proof.
  induction cols as [|[n c'] cols IH]; simpl.
  - split; [intros _; apply not_elem_of_nil|done].
  - rewrite not_elem_of_cons. destruct (String.eqb_spec n name) as [->|Hne].
    + split; [done|]. by intros [? _].
    + rewrite IH. split; [intros ?; split; [congruence|done]|by intros [_ ?]].
Qed.

Lemma dict_get_fmap {V} (g : V → V) name (cols : list (string * V)) :
  dict_get name (prod_map id g <$> cols) = g <$> dict_get name cols.
Proof.
  induction cols as [|[n c] cols IH]; [done|]. simpl.
  by destruct (String.eqb n name).
Qed.

Lemma compress_length_le {A} (mask : list bool) (l : list A) :
  (length (compress mask l) ≤ length l)%nat.
Proof.
  revert l. induction mask as [|b mask IH]; intros [|x l]; simpl; try lia.
  specialize (IH l). destruct b; simpl; lia.
Qed.

Lemma compress_fmap {A B} (f : A → B) (mask : list bool) (l : list A) :
  compress mask (f <$> l) = f <$> compress mask l.
Proof.
  revert l. induction mask as [|b mask IH]; intros [|x l]; simpl; try done.
  destruct b; simpl; by rewrite IH.
Qed.

Lemma compress_all_false {A} (mask : list bool) (l : list A) :
  Forall (fun b => b = false) mask → compress mask l = [].
Proof.
  intros H. revert l. induction H as [|b mask -> _ IH]; intros [|x l]; simpl; auto.
Qed.

Lemma compress_sublist {A} (mask : list bool) (l : list A) : compress mask l `sublist_of` l.
Proof.
  revert l. induction mask as [|b mask IH]; intros [|x l]; simpl;
    try apply sublist_nil_l.
  destruct b; [apply sublist_skip|apply sublist_cons]; apply IH.
Qed.

Lemma true_positions_lt mask i : i ∈ true_positions mask → (i < length mask)%nat.
Proof.
  revert i. induction mask as [|b mask IH]; intros i; simpl; [by intros ?%elem_of_nil|].
  rewrite elem_of_app, list_elem_of_fmap. intros [Hi|(j & -> & Hj)].
  - destruct b; [apply list_elem_of_singleton in Hi as ->; lia|by apply elem_of_nil in Hi].
  - apply IH in Hj. lia.
Qed.

Lemma true_positions_sorted mask : StronglySorted lt (true_positions mask).
Proof.
  induction mask as [|b mask IH]; simpl; [constructor|].
  assert (StronglySorted lt (S <$> true_positions mask)) as HS.
  { clear -IH. induction IH as [|x l _ IH Hx]; simpl; constructor; [done|].
    apply Forall_fmap. eapply Forall_impl; [exact Hx|]. simpl. lia. }
  destruct b; simpl; [|done]. constructor; [done|].
  apply Forall_fmap, Forall_true. simpl. lia.
Qed.

Lemma take_list_S {A} (x : A) (l : list A) (locs : list nat) :
  take_list (S <$> locs) (x :: l) = take_list locs l.
Proof.
  unfold take_list. induction locs as [|i locs IH]; [done|].
  rewrite fmap_cons. cbn [mapM]. rewrite IH. done.
Qed.

Lemma take_list_app {A} (l : list A) (locs1 locs2 : list nat) k1 k2 :
  take_list locs1 l = Ok k1 → take_list locs2 l = Ok k2 →
  take_list (locs1 ++ locs2) l = Ok (k1 ++ k2).
Proof.
  unfold take_list. revert k1. induction locs1 as [|i locs1 IH]; intros k1 H1 H2.
  - injection H1 as <-. exact H2.
  - apply mapM_Ok_cons in H1 as (y & k & Hy & Hk & ->).
    simpl app. apply mapM_Ok_cons. exists y, (k ++ k2). eauto.
Qed.

(** Selecting by a mask is taking the positions where it is true. *)
Lemma compress_take_list {A} (mask : list bool) (l : list A) :
  length mask = length l →
  take_list (true_positions mask) l = Ok (compress mask l).
Proof.
  revert l. induction mask as [|b mask IH]; intros [|x l] Hlen; try done.
  injection Hlen as Hlen. simpl true_positions. simpl compress.
  specialize (IH l Hlen). rewrite <- (take_list_S x) in IH.
  destruct b; [|exact IH].
  change (x :: compress mask l) with ([x] ++ compress mask l).
  by apply take_list_app.
Qed.

Lemma select_rows_names mask df : column_names (select_rows mask df) = column_names df.
Proof.
  unfold column_names, select_rows. simpl. rewrite <- list_fmap_compose.
  apply list_fmap_ext. by intros _ [n c] _.
Qed.

Lemma select_rows_take_rows mask df :
  wf df → length mask = n_rows df →
  take_rows df (true_positions mask) = Ok (select_rows mask df).
Proof.
  intros [Hlen _] Hm. unfold take_rows.
  rewrite (compress_take_list mask (index df)), bind_Ok_l by done.
  erewrite (mapM_Ok_all _ (prod_map id (compress mask) : string * Series → string * Series));
    [done|].
  intros [n c] Hc. cbn [fst snd].
  rewrite (compress_take_list mask c); [done|].
  rewrite Forall_forall in Hlen. rewrite Hm. symmetry. exact (Hlen _ Hc).
Qed.

Lemma dict_get_dict_set_ne {V} name (col : V) cols n :
  n ≠ name → dict_get n (dict_set name col cols) = dict_get n cols.
Proof.
  intros Hne. induction cols as [|[n' c] cols IH]; simpl.
  - by destruct (String.eqb_spec name n) as [->|_].
  - destruct (String.eqb_spec n' name) as [->|Hn']; simpl.
    + destruct (String.eqb_spec name n) as [->|_]; [done|].
      by destruct (String.eqb_spec name n) as [->|_].
    + by rewrite IH.
Qed.

Lemma setitem_Ok df name col df' :
  setitem df name col = Ok df' →
  length col = n_rows df ∧
  df' = {| index := index df; columns := dict_set name col (columns df) |}.
Proof.
  unfold setitem. destruct (Nat.eqb_spec (length col) (n_rows df)); [|done].
  by intros [= <-].
Qed.

Lemma setitem_fresh df name col df' :
  name ∉ column_names df → setitem df name col = Ok df' →
  df' = {| index := index df; columns := columns df ++ [(name, col)] |}.
Proof. intros Hfresh [_ ->]%setitem_Ok. by rewrite dict_set_fresh. Qed.

Lemma getitem_setitem_ne df name col df' n :
  setitem df name col = Ok df' → n ≠ name → getitem df' n = getitem df n.
Proof.
  intros [_ ->]%setitem_Ok Hne. unfold getitem. simpl.
  by rewrite dict_get_dict_set_ne.
Qed.

Lemma setitem_index df name col df' : setitem df name col = Ok df' → index df' = index df.
Proof. by intros [_ ->]%setitem_Ok. Qed.

Lemma dict_set_names_elem_of {V} name (col : V) cols n :
  n ∈ (dict_set name col cols).*1 ↔ n = name ∨ n ∈ cols.*1.
Proof.
  induction cols as [|[n' c] cols IH]; simpl.
  - rewrite list_elem_of_singleton. split; [by left|]. intros [?|H]; [done|].
    by apply elem_of_nil in H.
  - destruct (String.eqb_spec n' name) as [->|Hne]; simpl.
    + rewrite !elem_of_cons. tauto.
    + rewrite !elem_of_cons, IH. tauto.
Qed.

(** ** Row selection *)

Lemma StronglySorted_lt_NoDup (locs : list nat) : StronglySorted lt locs → NoDup locs.
Proof.
  induction 1 as [|i locs _ IH Hi]; constructor; [|done].
  intros Hin. rewrite Forall_forall in Hi. specialize (Hi _ Hin). lia.
Qed.

Lemma drops_rows_picks_rows df out : drops_rows df out → picks_rows df out.
Proof. intros (locs & Hs & H). exists locs. split; [by apply StronglySorted_lt_NoDup|done]. Qed.

Lemma mapM_Ok_lookup_inv {A B} (f : A → result B) l l' i y :
  mapM f l = Ok l' → l' !! i = Some y → ∃ x, l !! i = Some x ∧ f x = Ok y.
Proof.
  revert l' i. induction l as [|a l IH]; intros l' i H Hi.
  - injection H as <-. done.
  - apply mapM_Ok_cons in H as (b & k & Hb & Hk & ->).
    destruct i as [|i]; simpl in *; [injection Hi as <-; eauto|eauto].
Qed.

Lemma take_list_lookup {A} (l : list A) locs k j v :
  take_list locs l = Ok k → k !! j = Some v → ∃ i, locs !! j = Some i ∧ l !! i = Some v.
Proof.
  intros H Hj. destruct (mapM_Ok_lookup_inv _ _ _ _ _ H Hj) as (i & Hi & Hv).
  exists i. split; [done|]. by apply from_option_Ok in Hv.
Qed.

Lemma take_list_cons {A} (l : list A) i locs k :
  take_list (i :: locs) l = Ok k ↔
  ∃ v k', l !! i = Some v ∧ take_list locs l = Ok k' ∧ k = v :: k'.
Proof.
  unfold take_list. rewrite mapM_Ok_cons. split.
  - intros (v & k' & Hv%from_option_Ok & Hk' & ->). eauto.
  - intros (v & k' & Hv & Hk' & ->). exists v, k'. by rewrite from_option_Ok.
Qed.

(** Taking from a taken list is taking at the composed positions. *)
Lemma take_list_compose {A} (l : list A) a b la lb :
  take_list a l = Ok la → take_list b la = Ok lb →
  ∃ c, take_list b a = Ok c ∧ take_list c l = Ok lb.
Proof.
  intros Ha. revert lb. induction b as [|j b IH]; intros lb Hb.
  - injection Hb as <-. by exists [].
  - apply take_list_cons in Hb as (v & k & Hv & Hk & ->).
    destruct (take_list_lookup _ _ _ _ _ Ha Hv) as (i & Hi & Hl).
    destruct (IH k Hk) as (c & Hc & Hcl).
    exists (i :: c). split; apply take_list_cons; eauto.
Qed.

Lemma take_list_NoDup (a b c : list nat) :
  take_list b a = Ok c → NoDup a → NoDup b → NoDup c.
Proof.
  intros H Ha Hb. apply NoDup_alt. intros j1 j2 v H1 H2.
  destruct (take_list_lookup _ _ _ _ _ H H1) as (i1 & Hi1 & Hv1).
  destruct (take_list_lookup _ _ _ _ _ H H2) as (i2 & Hi2 & Hv2).
  assert (i1 = i2) as -> by exact (NoDup_lookup a i1 i2 v Ha Hv1 Hv2).
  exact (NoDup_lookup b j1 j2 i2 Hb Hi1 Hi2).
Qed.

Lemma take_rows_Ok df locs out :
  take_rows df locs = Ok out ↔
  ∃ idx cols,
    take_list locs (index df) = Ok idx ∧
    mapM (fun c => col ← take_list locs c.2; Ok (c.1, col)) (columns df) = Ok cols ∧
    out = {| index := idx; columns := cols |}.
Proof.
  unfold take_rows. split.
  - intros H. apply bind_Ok in H as (idx & Hidx & H).
    apply bind_Ok in H as (cols & Hcols & [= <-]). eauto.
  - intros (idx & cols & -> & -> & ->). reflexivity.
Qed.

Lemma take_rows_compose df a b da db :
  take_rows df a = Ok da → take_rows da b = Ok db →
  ∃ c, take_list b a = Ok c ∧ take_rows df c = Ok db.
Proof.
  intros (idx & cols & Hidx & Hcols & ->)%take_rows_Ok
         (idx' & cols' & Hidx' & Hcols' & ->)%take_rows_Ok.
  simpl in *.
  destruct (take_list_compose _ _ _ _ _ Hidx Hidx') as (c & Hc & Hcidx).
  exists c. split; [done|]. apply take_rows_Ok. exists idx', cols'. split_and!; [done| |done].
  clear Hidx Hidx' Hcidx. revert cols cols' Hcols Hcols'.
  induction (columns df) as [|[n col] l IH]; intros cols cols' Hcols Hcols'.
  - injection Hcols as <-. by injection Hcols' as <-.
  - apply mapM_Ok_cons in Hcols as ([n1 col1] & k & H1 & Hk & ->).
    apply mapM_Ok_cons in Hcols' as ([n2 col2] & k' & H2 & Hk' & ->).
    apply bind_Ok in H1 as (t1 & Ht1 & [= <- <-]).
    apply bind_Ok in H2 as (t2 & Ht2 & [= <- <-]). cbn [fst snd] in *.
    destruct (take_list_compose _ _ _ _ _ Ht1 Ht2) as (c' & Hc' & Hcol).
    assert (c' = c) as -> by congruence.
    apply mapM_Ok_cons. exists (n, t2), k'. split_and!; [|by eapply IH|done].
    cbn [fst snd]. by rewrite Hcol.
Qed.

Lemma picks_rows_compose df d out : drops_rows df d → picks_rows d out → picks_rows df out.
Proof.
  intros (a & Ha & Hda) (b & Hb & Hout).
  destruct (take_rows_compose _ _ _ _ _ Hda Hout) as (c & Hc & Hdf).
  exists c. split; [|done]. eapply take_list_NoDup; [done| |done].
  by apply StronglySorted_lt_NoDup.
Qed.

(** ** Shuffling *)

Lemma insert_Permutation_cons {A} (l : list A) j x y :
  l !! j = Some y → y :: <[j := x]> l ≡ₚ x :: l.
Proof.
  revert j. induction l as [|a l IH]; intros [|j] Hj; simplify_eq/=.
  - apply perm_swap.
  - rewrite perm_swap, (IH j Hj). apply perm_swap.
Qed.

Lemma swap_Permutation {A} (i j : nat) (l : list A) : MT19937.swap i j l ≡ₚ l.
Proof.
  unfold MT19937.swap.
  destruct (l !! i) as [x|] eqn:Hi; [|done].
  destruct (l !! j) as [y|] eqn:Hj; [|done].
  revert i j Hi Hj. induction l as [|a l IH]; intros [|i] [|j] Hi Hj; simplify_eq/=.
  - done.
  - by apply insert_Permutation_cons.
  - by apply insert_Permutation_cons.
  - by rewrite (IH i j).
Qed.

Lemma shuffle_loop_Permutation {A} fuel i (x x' : list A) st st' :
  MT19937.shuffle_loop fuel i x st = Some (x', st') → x' ≡ₚ x.
Proof.
  revert x st. induction i as [|i IH]; intros x st H; simpl in H.
  - by injection H as <- _.
  - destruct (MT19937.random_interval fuel (Z.of_nat (S i)) st) as [[j st1]|]; [|done].
    simpl in H. apply IH in H. by rewrite H, swap_Permutation.
Qed.

Lemma permutation_Permutation fuel n st p st' :
  MT19937.permutation fuel n st = Some (p, st') → p ≡ₚ seq 0 n.
Proof. apply shuffle_loop_Permutation. Qed.

(** The positions drawn by [choice] are distinct and in range. *)
Lemma choice_Ok random_state n size locs :
  choice random_state n size = Ok locs →
  NoDup locs ∧ Forall (fun i => (i < n)%nat) locs ∧ length locs = Z.to_nat size.
Proof.
  unfold choice. intros H.
  destruct ((random_state <? 0) || (2 ^ 32 <=? random_state)); [done|].
  destruct (Z.ltb_spec (Z.of_nat n) size) as [|Hsize]; [done|].
  destruct (size <? 0); [done|].
  apply bind_Ok in H as ([p st'] & Hp%from_option_Ok & [= <-]).
  apply permutation_Permutation in Hp. simpl. split_and!.
  - apply (sublist_NoDup _ p); [|apply sublist_take]. rewrite Hp. apply NoDup_seq.
  - apply Forall_take, Forall_forall. intros i Hi. rewrite Hp in Hi.
    apply elem_of_seq in Hi. lia.
  - rewrite length_take, Hp, length_seq. lia.
Qed.

(** ** Cleaning stage *)

Lemma getitem_mask_Ok df mask out :
  getitem_mask df mask = Ok out ↔ length mask = n_rows df ∧ out = select_rows mask df.
Proof.
  unfold getitem_mask. destruct (Nat.eqb_spec (length mask) (n_rows df)); split.
  - by intros [= <-].
  - by intros [_ ->].
  - done.
  - by intros [? _].
Qed.

Lemma price_filter_Ok data out :
  price_filter data = Ok out →
  ∃ price above below,
    getitem data "price" = Ok price ∧
    mapM (gt_int 500) price = Ok above ∧
    mapM (lt_int 80000) price = Ok below ∧
    length (zip_with andb above below) = n_rows data ∧
    out = select_rows (zip_with andb above below) data.
Proof.
  unfold price_filter. intros H.
  apply bind_Ok in H as (price & Hprice & H).
  apply bind_Ok in H as (above & Habove & H).
  apply bind_Ok in H as (price' & Hprice' & H).
  apply bind_Ok in H as (below & Hbelow & H).
  assert (price' = price) as -> by congruence.
  apply getitem_mask_Ok in H as [Hlen ->].
  by exists price, above, below.
Qed.

Lemma price_filter_drops_rows data out :
  wf data → price_filter data = Ok out → drops_rows data out.
Proof.
  intros Hwf (price & above & below & _ & _ & _ & Hlen & ->)%price_filter_Ok.
  exists (true_positions (zip_with andb above below)).
  split; [apply true_positions_sorted|]. by apply select_rows_take_rows.
Qed.

Lemma sample_picks_rows frac random_state data out :
  sample frac random_state data = Ok out → picks_rows data out.
Proof.
  unfold sample. intros H.
  apply bind_Ok in H as (size & _ & H).
  apply bind_Ok in H as (locs & (Hnd & _ & _)%choice_Ok & H).
  by exists locs.
Qed.

Lemma getitem_select_rows mask df name :
  getitem (select_rows mask df) name = compress mask <$> getitem df name.
Proof.
  unfold getitem, select_rows. simpl. rewrite dict_get_fmap.
  by destruct (dict_get name (columns df)).
Qed.

Lemma getitem_columns_Ok df names p :
  getitem_columns df names = Ok p ↔
  ∃ cols, mapM (fun n => c ← getitem df n; Ok (n, c)) names = Ok cols ∧
          p = {| index := index df; columns := cols |}.
Proof.
  unfold getitem_columns. split.
  - intros (cols & Hcols & [= <-])%bind_Ok. eauto.
  - intros (cols & -> & ->). reflexivity.
Qed.

Lemma getitem_columns_names df names p :
  getitem_columns df names = Ok p → column_names p = names.
Proof.
  intros (cols & Hcols & ->)%getitem_columns_Ok. unfold column_names. simpl.
  revert cols Hcols. induction names as [|n names IH]; intros cols Hcols.
  - by injection Hcols as <-.
  - apply mapM_Ok_cons in Hcols as ([n' c] & k & (c' & _ & [= <- <-])%bind_Ok & Hk & ->).
    rewrite fmap_cons. cbn [fst]. by rewrite (IH k).
Qed.

Lemma getitem_columns_elem_of df names p n c :
  getitem_columns df names = Ok p → (n, c) ∈ columns p → getitem df n = Ok c.
Proof.
  intros (cols & Hcols & ->)%getitem_columns_Ok. simpl.
  revert cols Hcols. induction names as [|n' names IH]; intros cols Hcols Hin.
  - injection Hcols as <-. by apply elem_of_nil in Hin.
  - apply mapM_Ok_cons in Hcols as ([n1 c1] & k & (c' & Hc' & [= <- <-])%bind_Ok & Hk & ->).
    apply elem_of_cons in Hin as [[= -> ->]|Hin]; [done|]. by eapply IH.
Qed.

Lemma getitem_columns_wf df names p :
  wf df → NoDup names → getitem_columns df names = Ok p → wf p.
Proof.
  intros Hwf Hnd Hp. split.
  - apply Forall_forall. intros [n c] Hc. simpl.
    apply (getitem_columns_elem_of _ _ _ _ _ Hp) in Hc.
    apply getitem_columns_Ok in Hp as (cols & _ & ->).
    by apply (getitem_length df n).
  - by rewrite (getitem_columns_names _ _ _ Hp).
Qed.

(** Projection commutes with the selection of rows. *)
Lemma getitem_columns_select_rows mask df names p' :
  getitem_columns (select_rows mask df) names = Ok p' →
  ∃ p, getitem_columns df names = Ok p ∧ p' = select_rows mask p.
Proof.
  intros (cols' & Hcols' & ->)%getitem_columns_Ok.
  assert (∃ cols, mapM (fun n => c ← getitem df n; Ok (n, c)) names = Ok cols ∧
                  cols' = prod_map id (compress mask) <$> cols) as (cols & Hcols & ->).
  { revert cols' Hcols'. induction names as [|n names IH]; intros cols' Hcols'.
    - injection Hcols' as <-. by exists [].
    - apply mapM_Ok_cons in Hcols' as ([n' c'] & k' & Hc' & Hk' & ->).
      destruct (IH k' Hk') as (k & Hk & ->).
      rewrite getitem_select_rows in Hc'.
      destruct (getitem df n) as [c|] eqn:Hc; [|done]. injection Hc' as <- <-.
      exists ((n, c) :: k). split; [|done].
      apply mapM_Ok_cons. exists (n, c), k. by rewrite Hc. }
  exists {| index := index df; columns := cols |}. split; [|done].
  apply getitem_columns_Ok. eauto.
Qed.

Lemma cleaning_picks_rows raw out :
  wf raw → cleaning raw = Ok out →
  ∃ projected, getitem_columns raw projected_columns = Ok projected ∧
               picks_rows projected out.
Proof.
  intros Hwf H. unfold cleaning in H.
  apply bind_Ok in H as (d1 & Hd1 & H).
  apply bind_Ok in H as (d2 & Hd2 & H).
  apply price_filter_Ok in Hd1 as (price & above & below & _ & _ & _ & Hlen & ->).
  apply getitem_columns_select_rows in Hd2 as (projected & Hp & ->).
  exists projected. split; [done|].
  apply picks_rows_compose with (select_rows (zip_with andb above below) projected);
    [|by eapply sample_picks_rows].
  exists (true_positions (zip_with andb above below)).
  split; [apply true_positions_sorted|]. apply select_rows_take_rows.
  - apply (getitem_columns_wf raw projected_columns); [done|compute_done|done].
  - apply getitem_columns_Ok in Hp as (cols & _ & ->). exact Hlen.
Qed.

(** ** Stages that keep the rows *)

Lemma setitem_each_Ok data cols out :
  setitem_each data cols = Ok out →
  index out = index data ∧ ∀ n, n ∉ cols.*1 → getitem out n = getitem data n.
Proof.
  revert data. induction cols as [|[name col] cols IH]; intros data H; simpl in H.
  - by injection H as <-.
  - apply bind_Ok in H as (data1 & Hdata1 & H).
    destruct (IH _ H) as [Hindex Hget]. split.
    + by rewrite Hindex, (setitem_index _ _ _ _ Hdata1).
    + intros n [Hne Hn]%not_elem_of_cons.
      by rewrite Hget, (getitem_setitem_ne _ _ _ _ _ Hdata1).
Qed.

Lemma impute_Ok `{Sklearn} data out :
  impute data = Ok out →
  index out = index data ∧ ∀ n, n ∉ numerical_columns → getitem out n = getitem data n.
Proof.
  unfold impute. intros H0.
  apply bind_Ok in H0 as (sub & _ & H0).
  apply bind_Ok in H0 as (X & _ & H0).
  apply bind_Ok in H0 as (X' & _ & H0).
  unfold setitem_columns in H0.
  destruct (negb (forallb _ X')); [done|].
  destruct (negb (length X' =? n_rows data)%nat); [done|].
  apply setitem_each_Ok in H0 as [Hindex Hget]. split; [done|].
  intros n Hn. apply Hget. intros Hin. apply Hn.
  apply list_elem_of_fmap in Hin as ([n' c] & -> & Hin).
  by apply elem_of_zip_l in Hin.
Qed.

Lemma encode_columns_Ok cols data out :
  encode_columns cols data = Ok out →
  index out = index data ∧ ∀ n, n ∉ cols → getitem out n = getitem data n.
Proof.
  revert data. induction cols as [|col cols IH]; intros data H; simpl in H.
  - by injection H as <-.
  - apply bind_Ok in H as (series & _ & H).
    apply bind_Ok in H as (codes & _ & H).
    apply bind_Ok in H as (data1 & Hdata1 & H).
    destruct (IH _ H) as [Hindex Hget]. split.
    + by rewrite Hindex, (setitem_index _ _ _ _ Hdata1).
    + intros n [Hne Hn]%not_elem_of_cons.
      by rewrite Hget, (getitem_setitem_ne _ _ _ _ _ Hdata1).
Qed.

Lemma feature_engineer_index current_year data out :
  feature_engineer current_year data = Ok out → index out = index data.
Proof.
  unfold feature_engineer. intros H.
  apply bind_Ok in H as (year & _ & H).
  apply bind_Ok in H as (car_age & _ & H).
  apply bind_Ok in H as (data1 & Hdata1 & H).
  apply bind_Ok in H as (price & _ & H).
  apply bind_Ok in H as (odometer & _ & H).
  apply bind_Ok in H as (odometer1 & _ & H).
  apply bind_Ok in H as (price_per_km & _ & H).
  apply bind_Ok in H as (data2 & Hdata2 & H).
  apply bind_Ok in H as (odometer' & _ & H).
  apply bind_Ok in H as (fuel & _ & H).
  apply bind_Ok in H as (odometer_fuel & _ & H).
  by rewrite (setitem_index _ _ _ _ H), (setitem_index _ _ _ _ Hdata2),
    (setitem_index _ _ _ _ Hdata1).
Qed.

(** ** Outlier filter *)

Lemma zscore_length xs : length (zscore xs) = length xs.
Proof. unfold zscore. destruct (isconst xs); by rewrite length_map. Qed.

Lemma outlier_filter_eq df odometer xs :
  "odometer_zscore" ∉ column_names df →
  getitem df "odometer" = Ok odometer →
  to_floats odometer = Ok xs →
  length xs = n_rows df →
  outlier_filter df = Ok (select_rows (abs_lt_3 <$> zscore xs) df).
Proof.
  intros Hfresh Hodo Hxs Hlen. unfold outlier_filter.
  rewrite Hodo, bind_Ok_l, Hxs, bind_Ok_l.
  unfold setitem. rewrite length_fmap, zscore_length, Hlen, Nat.eqb_refl, bind_Ok_l.
  unfold getitem at 1. cbn [columns].
  rewrite (dict_get_dict_set_eq "odometer_zscore" (VFloat <$> zscore xs) (columns df)).
  cbn [from_option].
  rewrite bind_Ok_l, to_floats_VFloat, bind_Ok_l.
  unfold getitem_mask, n_rows. cbn [index].
  rewrite length_fmap, zscore_length, Hlen. fold (n_rows df).
  rewrite Nat.eqb_refl, bind_Ok_l.
  set (mask := abs_lt_3 <$> zscore xs).
  unfold drop_columns. rewrite select_rows_names.
  unfold column_names at 1. cbn [columns index select_rows].
  destruct (filter _ ["odometer_zscore"]) as [|n ns] eqn:Hmissing.
  2:{ assert (n ∈ n :: ns) as Hn by left. rewrite <- Hmissing in Hn.
      apply list_elem_of_filter in Hn as [Hn ->%list_elem_of_singleton].
      destruct Hn. rewrite dict_set_names_fresh by done.
      apply elem_of_app. right. left. }
  f_equal. unfold select_rows. f_equal.
  rewrite dict_set_fresh by done.
  rewrite fmap_app, filter_app. cbn [fmap list_fmap].
  rewrite (filter_cons_False _ _ []), filter_nil, app_nil_r.
  2:{ cbn. intros H. apply H. left. }
  apply filter_Forall_id. apply Forall_fmap, Forall_forall.
  intros [n c] Hc. cbn. intros ->%list_elem_of_singleton.
  apply Hfresh. unfold column_names. apply list_elem_of_fmap. by exists ("odometer_zscore", c).
Qed.

Lemma outlier_filter_Ok df out :
  "odometer_zscore" ∉ column_names df →
  outlier_filter df = Ok out →
  ∃ odometer xs,
    getitem df "odometer" = Ok odometer ∧ to_floats odometer = Ok xs ∧
    length xs = n_rows df ∧
    out = select_rows (abs_lt_3 <$> zscore xs) df.
Proof.
  intros Hfresh H. pose proof H as H'. unfold outlier_filter in H'.
  apply bind_Ok in H' as (odometer & Hodo & H').
  apply bind_Ok in H' as (xs & Hxs & H').
  apply bind_Ok in H' as (df1 & Hset & _).
  unfold setitem in Hset. rewrite length_fmap, zscore_length in Hset.
  destruct (Nat.eqb_spec (length xs) (n_rows df)) as [Hlen|]; [|discriminate].
  exists odometer, xs. split_and!; try done.
  rewrite (outlier_filter_eq df odometer xs) in H by done. by injection H.
Qed.

(** A quotient by a zero divisor is NaN or infinite, never below 3 in
    magnitude. *)
Lemma abs_lt_3_div_zero (d sd : float) :
  PrimFloat.eqb sd 0 = true → abs_lt_3 (d / sd) = false.
Proof.
  unfold abs_lt_3.
  rewrite FloatAxioms.eqb_spec, FloatAxioms.ltb_spec, FloatAxioms.abs_spec,
    FloatAxioms.div_spec.
  change (Prim2SF 0) with (S754_zero false).
  change (Prim2SF 3) with (S754_finite false 6755399441055744 (-51)).
  destruct (Prim2SF sd) as [s| | |s m e]; try discriminate.
  - intros _. destruct (Prim2SF d) as [sd'|sd'| |sd' md ed]; reflexivity.
  - destruct s; discriminate.
  - destruct s; discriminate.
Qed.

Lemma abs_lt_3_boundary (z : float) :
  PrimFloat.eqb (PrimFloat.abs z) 3 = true → abs_lt_3 z = false.
Proof.
  unfold abs_lt_3. rewrite FloatAxioms.eqb_spec, FloatAxioms.ltb_spec.
  unfold SFeqb, SFltb. by destruct (SFcompare _ _) as [[]|].
Qed.

Lemma zscore_zero_std_mask xs :
  PrimFloat.eqb (std xs) 0 = true →
  Forall (fun b => b = false) (abs_lt_3 <$> zscore xs).
Proof.
  intros Hsd. unfold zscore.
  destruct (isconst xs); apply Forall_fmap, Forall_fmap, Forall_forall; intros x _; simpl.
  - reflexivity.
  - by apply abs_lt_3_div_zero.
Qed.

Lemma zscore_isconst xs :
  isconst xs = true → zscore xs = replicate (length xs) PrimFloat.nan.
Proof.
  intros Hconst. unfold zscore. rewrite Hconst. clear Hconst.
  induction xs as [|x xs IH]; [done|]. simpl. by rewrite IH.
Qed.

Lemma zscore_isconst_mask xs :
  isconst xs = true → Forall (fun b => b = false) (abs_lt_3 <$> zscore xs).
Proof.
  intros ->%zscore_isconst. apply Forall_fmap, Forall_forall.
  intros z [-> _]%elem_of_replicate. reflexivity.
Qed.

Lemma all_equal_isconst x xs : all_equal (x :: xs) → isconst (x :: xs) = true.
Proof.
  intros Heq. unfold isconst. apply forallb_forall. intros y Hy%list_elem_of_In.
  apply Heq; [left|done].
Qed.

Lemma select_rows_all_false mask df :
  Forall (fun b => b = false) mask →
  select_rows mask df = {| index := []; columns := prod_map id (fun _ => []) <$> columns df |}.
Proof.
  intros H. unfold select_rows. rewrite compress_all_false by done. f_equal.
  apply list_fmap_ext. intros _ [n c] _. simpl. by rewrite compress_all_false.
Qed.

Lemma wf_cars10 : wf cars10.
Proof. split; [by repeat constructor|]. compute_done. Qed.

Lemma wf_cars3 : wf cars3.
Proof. split; [by repeat constructor|]. compute_done. Qed.

Lemma zscore_fresh_in_projection df :
  column_names df = projected_columns → "odometer_zscore" ∉ column_names df.
Proof. intros ->. compute_done. Qed.

(** ** Categorical encoder *)

Lemma StronglySorted_NoDup_strict {A} (R : relation A) (l : list A) :
  StronglySorted R l → NoDup l → StronglySorted (fun x y => R x y ∧ x ≠ y) l.
Proof.
  induction 1 as [|x l _ IH Hx]; intros Hnd; [constructor|].
  apply NoDup_cons in Hnd as [Hxl Hnd]. constructor; [by apply IH|].
  rewrite Forall_forall in Hx |- *. intros y Hy. split; [by apply Hx|].
  by intros ->.
Qed.

Lemma StronglySorted_lookup_lt {A} (R : relation A) (l : list A) i j x y :
  StronglySorted R l → l !! i = Some x → l !! j = Some y → (i < j)%nat → R x y.
Proof.
  intros Hs. revert i j. induction Hs as [|a l _ IH Ha]; intros i j Hi Hj Hij; [done|].
  destruct j as [|j]; [lia|]. destruct i as [|i]; simpl in *.
  - injection Hi as ->. rewrite Forall_forall in Ha.
    apply Ha. by eapply list_elem_of_lookup_2.
  - apply (IH i j); [done..|lia].
Qed.

Lemma sorted_strings_elem_of y s : s ∈ sorted_strings y ↔ Some s ∈ y.
Proof.
  unfold sorted_strings. rewrite merge_sort_Permutation, elem_of_remove_dups.
  rewrite list_elem_of_omap. split.
  - by intros ([s'|] & Hin & [= ->]).
  - intros Hin. by exists (Some s).
Qed.

Lemma sorted_strings_NoDup y : NoDup (sorted_strings y).
Proof. unfold sorted_strings. rewrite merge_sort_Permutation. apply NoDup_remove_dups. Qed.

Lemma sorted_strings_sorted y : StronglySorted String.le (sorted_strings y).
Proof. apply StronglySorted_merge_sort; apply _. Qed.

Lemma classes_unfold y :
  classes_ y = (Some <$> sorted_strings y) ++ (if decide (None ∈ y) then [None] else []).
Proof. reflexivity. Qed.

Lemma classes_elem_of y k : k ∈ classes_ y ↔ k ∈ y.
Proof.
  rewrite classes_unfold, elem_of_app, list_elem_of_fmap. split.
  - intros [(s & -> & Hs)|Hk].
    + by apply sorted_strings_elem_of.
    + destruct (decide (None ∈ y)) as [Hn|_]; [|by apply elem_of_nil in Hk].
      by apply list_elem_of_singleton in Hk as ->.
  - intros Hk. destruct k as [s|].
    + left. exists s. split; [done|]. by apply sorted_strings_elem_of.
    + right. rewrite decide_True by done. left.
Qed.

Lemma classes_NoDup y : NoDup (classes_ y).
Proof.
  rewrite classes_unfold. apply NoDup_app. split_and!.
  - apply (NoDup_fmap_2 Some), sorted_strings_NoDup.
  - intros k (s & -> & _)%list_elem_of_fmap Hk.
    destruct (decide (None ∈ y)); [|by apply elem_of_nil in Hk].
    by apply list_elem_of_singleton in Hk.
  - destruct (decide (None ∈ y)); [apply NoDup_singleton|apply NoDup_nil_2].
Qed.

Lemma classes_sorted y : StronglySorted key_lt (classes_ y).
Proof.
  rewrite classes_unfold. apply StronglySorted_app_2.
  - intros k k' (s & -> & _)%list_elem_of_fmap Hk'.
    destruct (decide (None ∈ y)); [|by apply elem_of_nil in Hk'].
    by apply list_elem_of_singleton in Hk' as ->.
  - apply (StronglySorted_fmap Some (fun s t => String.le s t ∧ s ≠ t) key_lt); [done|].
    apply StronglySorted_NoDup_strict; [apply sorted_strings_sorted|apply sorted_strings_NoDup].
  - destruct (decide (None ∈ y)); repeat constructor.
Qed.

(** The classes depend only on the set of observed values. *)
Lemma classes_ext y y' : (∀ k, k ∈ y ↔ k ∈ y') → classes_ y = classes_ y'.
Proof.
  intros Hyy'. rewrite !classes_unfold. f_equal.
  - f_equal. apply (Sorted_unique String.le).
    + apply Sorted_merge_sort, _.
    + apply Sorted_merge_sort, _.
    + apply NoDup_Permutation; [apply sorted_strings_NoDup..|].
      intros s. by rewrite !sorted_strings_elem_of.
  - destruct (decide (None ∈ y)) as [Hn|Hn], (decide (None ∈ y')) as [Hn'|Hn'];
      try done; [by apply Hyy' in Hn|by apply Hyy' in Hn'].
Qed.

(** On a list without repetition the code of a value is its position. *)
Lemma code_Some classes k i : NoDup classes → code classes k = Some i ↔ classes !! i = Some k.
Proof.
  intros Hnd. unfold code. split.
  - intros H. apply fmap_Some in H as ([i' k'] & Hfind & ->).
    by apply list_find_Some in Hfind as (Hi & -> & _).
  - intros Hi. apply fmap_Some. exists (i, k). split; [|done].
    apply list_find_Some. split_and!; [done..|].
    intros j k' Hj Hlt ->. pose proof (NoDup_lookup _ _ _ _ Hnd Hi Hj). lia.
Qed.

Lemma transform_Ok classes y :
  NoDup classes → (∀ k, k ∈ y → k ∈ classes) →
  ∃ codes, transform classes y = Ok codes ∧ length codes = length y ∧
    ∀ i k, y !! i = Some k → ∃ c, codes !! i = Some c ∧ classes !! c = Some k.
Proof.
  intros Hnd. unfold transform. induction y as [|k y IH]; intros Hsub.
  - exists []. split_and!; [done..|]. by intros i k ?.
  - destruct IH as (codes & Hcodes & Hlen & Hlookup).
    { intros k' Hk'. apply Hsub. by right. }
    assert (k ∈ classes) as (c & Hc)%list_elem_of_lookup_1 by (apply Hsub; left).
    exists (c :: codes). split_and!.
    + apply mapM_Ok_cons. exists c, codes. split_and!; [|done..].
      apply from_option_Ok. by apply code_Some.
    + simpl. by rewrite Hlen.
    + intros [|i] k' Hi; simpl in *; [injection Hi as <-; eauto|eauto].
Qed.

(** *** Columns of numbers *)

Section Unique_facts.
Context {A : Type} (eqb ltb : A → A → bool).
Hypothesis eqb_refl : ∀ x, eqb x x = true.

Lemma insert_unique_length x l :
  (length (insert_unique eqb ltb x l) ≤ S (length l))%nat.
Proof.
  induction l as [|c l IH]; simpl; [lia|].
  destruct (eqb x c); [simpl; lia|]. destruct (ltb x c); simpl; lia.
Qed.

Lemma unique_length l : (length (unique eqb ltb l) ≤ length l)%nat.
Proof.
  induction l as [|x l IH]; simpl; [lia|].
  pose proof (insert_unique_length x (unique eqb ltb l)). lia.
Qed.

Lemma insert_unique_keeps x l c : c ∈ l → c ∈ insert_unique eqb ltb x l.
Proof.
  induction l as [|c' l IH]; intros Hc; [by apply elem_of_nil in Hc|]. simpl.
  destruct (eqb x c'); [done|]. destruct (ltb x c'); [by right|].
  apply elem_of_cons in Hc as [->|Hc]; [left|right; by apply IH].
Qed.

Lemma insert_unique_self x l : ∃ c, c ∈ insert_unique eqb ltb x l ∧ eqb x c = true.
Proof.
  induction l as [|c' l (c & Hc & Heq)]; simpl.
  - exists x. split; [left|done].
  - destruct (eqb x c') eqn:Hx; [exists c'; split; [left|done]|].
    destruct (ltb x c'); [exists x; split; [left|done]|].
    exists c. split; [by right|done].
Qed.

Lemma insert_unique_elem_of x l c : c ∈ insert_unique eqb ltb x l → c = x ∨ c ∈ l.
Proof.
  induction l as [|c' l IH]; simpl.
  - intros ->%list_elem_of_singleton. by left.
  - destruct (eqb x c'); [by right|]. destruct (ltb x c').
    + intros [->|Hc]%elem_of_cons; [by left|by right].
    + intros [->|Hc]%elem_of_cons; [right; left|].
      destruct (IH Hc) as [->|?]; [by left|right; by right].
Qed.

Lemma unique_elem_of l c : c ∈ unique eqb ltb l → c ∈ l.
Proof.
  induction l as [|x l IH]; simpl; [done|].
  intros [->|Hc]%insert_unique_elem_of; [left|right; by apply IH].
Qed.

Lemma unique_covers l y : y ∈ l → ∃ c, c ∈ unique eqb ltb l ∧ eqb y c = true.
Proof.
  induction l as [|x l IH]; intros Hy; [by apply elem_of_nil in Hy|]. simpl.
  apply elem_of_cons in Hy as [->|Hy]; [apply insert_unique_self|].
  destruct (IH Hy) as (c & Hc & Heq). exists c. split; [|done].
  by apply insert_unique_keeps.
Qed.

Lemma inverse_Some classes x n :
  inverse eqb classes x = Some n → ∃ c, classes !! n = Some c ∧ eqb x c = true.
Proof.
  unfold inverse. intros ([n' c] & Hfind & ->)%fmap_Some.
  apply list_find_Some in Hfind as (Hc & Heq & _). by exists c.
Qed.

Lemma inverse_all_Ok classes keys :
  (∀ x, x ∈ keys → ∃ c, c ∈ classes ∧ eqb x c = true) →
  ∃ codes, inverse_all eqb classes keys = Ok codes.
Proof.
  unfold inverse_all. induction keys as [|x keys IH]; intros Hcover; [by exists []|].
  destruct IH as [codes Hcodes]; [intros y Hy; apply Hcover; by right|].
  destruct (Hcover x) as (c & Hc & Heq); [left|].
  destruct (list_find_elem_of (fun c => eqb x c = true) classes c Hc Heq) as [[n c'] Hfind].
  exists (n :: codes). apply mapM_Ok_cons. exists n, codes. split_and!; [|done..].
  unfold inverse. by rewrite Hfind.
Qed.

Lemma inverse_all_lookup classes keys codes :
  inverse_all eqb classes keys = Ok codes →
  length codes = length keys ∧
  ∀ i n, codes !! i = Some n →
    ∃ x c, keys !! i = Some x ∧ classes !! n = Some c ∧ eqb x c = true.
Proof.
  unfold inverse_all. intros Hcodes. split; [by eapply mapM_Ok_length|].
  intros i n Hn. destruct (mapM_Ok_lookup_inv _ _ _ _ _ Hcodes Hn) as (x & Hx & Hinv).
  apply from_option_Ok, inverse_Some in Hinv as (c & Hc & Heq). by exists x, c.
Qed.

Lemma unique_inverse_all keys :
  ∃ codes,
    inverse_all eqb (unique eqb ltb keys) keys = Ok codes ∧
    length codes = length keys ∧
    Forall (fun n => (n < length keys)%nat) codes ∧
    ∀ i n, codes !! i = Some n →
      ∃ x c, keys !! i = Some x ∧ unique eqb ltb keys !! n = Some c ∧ eqb x c = true.
Proof.
  destruct (inverse_all_Ok (unique eqb ltb keys) keys) as [codes Hcodes].
  { intros x Hx. by apply unique_covers. }
  destruct (inverse_all_lookup _ _ _ Hcodes) as [Hlen Hlookup].
  exists codes. split_and!; [done..| |done].
  apply Forall_lookup. intros i n Hn. destruct (Hlookup i n Hn) as (x & c & _ & Hc & _).
  apply lookup_lt_Some in Hc. pose proof (unique_length keys). lia.
Qed.

End Unique_facts.

Lemma key_eqb_refl (x : float) : key_eqb x x = true.
Proof. unfold key_eqb, Num.is_nan. by destruct (PrimFloat.eqb x x). Qed.

Lemma unique_Z_sorted zs : StronglySorted Z.lt (unique Z.eqb Z.ltb zs).
Proof.
  induction zs as [|z zs IH]; simpl; [constructor|].
  induction IH as [|c l Hl IHl Hc]; simpl; [by repeat constructor|].
  destruct (Z.eqb_spec z c) as [->|Hne]; [by constructor|].
  destruct (Z.ltb_spec z c) as [Hlt|Hge].
  - constructor; [by constructor|]. constructor; [done|].
    eapply Forall_impl; [exact Hc|]. simpl. lia.
  - constructor; [done|]. apply Forall_forall. intros c' Hc'.
    apply insert_unique_elem_of in Hc' as [->|Hc']; [lia|].
    rewrite Forall_forall in Hc. by apply Hc.
Qed.

Lemma omap_int_cell (zs : list Z) : omap int_cell (VInt <$> zs) = zs.
Proof. induction zs as [|z zs IH]; [done|]. simpl. f_equal. exact IH. Qed.

Lemma omap_number_cell (xs : list float) : omap number_cell (VFloat <$> xs) = xs.
Proof. induction xs as [|x xs IH]; [done|]. simpl. f_equal. exact IH. Qed.

Lemma omap_int_cell_length (series : Series) :
  forallb is_int series = true → length (omap int_cell series) = length series.
Proof.
  induction series as [|v series IH]; [done|]. simpl.
  intros [Hv Hs]%andb_true_iff. destruct v; try done. simpl. f_equal. by apply IH.
Qed.

Lemma omap_number_cell_length (series : Series) :
  existsb is_str series = false → length (omap number_cell series) = length series.
Proof.
  induction series as [|v series IH]; [done|]. simpl.
  intros [Hv Hs]%orb_false_iff. destruct v; try done; simpl; f_equal; by apply IH.
Qed.

Lemma classes_length (y : list (option string)) : (length (classes_ y) ≤ length y)%nat.
Proof.
  apply submseteq_length, NoDup_submseteq; [apply classes_NoDup|].
  intros k. apply classes_elem_of.
Qed.

(** The three cases of [fit_transform]. *)
Lemma fit_transform_object series :
  existsb is_str series = true →
  fit_transform series =
    (y ← mapM category series; codes ← transform (classes_ y) y; Ok (of_codes codes)).
Proof. intros Hstr. unfold fit_transform. by rewrite Hstr. Qed.

Lemma fit_transform_integers (zs : list Z) :
  fit_transform (VInt <$> zs) =
    (codes ← inverse_all Z.eqb (unique Z.eqb Z.ltb zs) zs; Ok (of_codes codes)).
Proof.
  unfold fit_transform.
  assert (existsb is_str (VInt <$> zs) = false) as ->
    by (induction zs as [|z zs IH]; [done|]; exact IH).
  assert (forallb is_int (VInt <$> zs) = true) as ->
    by (induction zs as [|z zs IH]; [done|]; exact IH).
  by rewrite omap_int_cell.
Qed.

Lemma fit_transform_floats (xs : list float) :
  fit_transform (VFloat <$> xs) =
    (codes ← inverse_all key_eqb (unique key_eqb key_ltb xs) xs; Ok (of_codes codes)).
Proof.
  unfold fit_transform.
  assert (existsb is_str (VFloat <$> xs) = false) as ->
    by (induction xs as [|x xs IH]; [done|]; exact IH).
  destruct (forallb is_int (VFloat <$> xs)) eqn:Hint.
  - destruct xs; [done|discriminate Hint].
  - by rewrite omap_number_cell.
Qed.

(** Every successful encoding has one code per cell, each below the
    number of cells. *)
Lemma fit_transform_codes_bound series out :
  fit_transform series = Ok out →
  ∃ codes, out = of_codes codes ∧ length codes = length series ∧
           Forall (fun n => (n < length series)%nat) codes.
Proof.
  unfold fit_transform. intros Hout.
  destruct (existsb is_str series) eqn:Hstr.
  - apply bind_Ok in Hout as (y & Hy & Hout).
    apply bind_Ok in Hout as (codes & Hcodes & [= <-]).
    pose proof (mapM_Ok_length _ _ _ Hy) as Hlen.
    pose proof (mapM_Ok_length _ _ _ Hcodes) as Hlen'.
    exists codes. split_and!; [done|congruence|].
    apply Forall_lookup. intros i n Hn.
    destruct (mapM_Ok_lookup_inv _ _ _ _ _ Hcodes Hn) as (k & Hk & Hcode%from_option_Ok).
    apply code_Some in Hcode; [|apply classes_NoDup].
    apply lookup_lt_Some in Hcode. pose proof (classes_length y). lia.
  - destruct (forallb is_int series) eqn:Hint.
    + apply bind_Ok in Hout as (codes & Hcodes & [= <-]).
      destruct (inverse_all_lookup _ _ _ _ Hcodes) as [Hlen Hlookup].
      rewrite omap_int_cell_length in Hlen by done.
      exists codes. split_and!; [done..|].
      apply Forall_lookup. intros i n Hn. destruct (Hlookup i n Hn) as (x & c & _ & Hc & _).
      apply lookup_lt_Some in Hc.
      pose proof (unique_length Z.eqb Z.ltb (omap int_cell series)).
      rewrite omap_int_cell_length in * by done. lia.
    + apply bind_Ok in Hout as (codes & Hcodes & [= <-]).
      destruct (inverse_all_lookup _ _ _ _ Hcodes) as [Hlen Hlookup].
      rewrite omap_number_cell_length in Hlen by done.
      exists codes. split_and!; [done..|].
      apply Forall_lookup. intros i n Hn. destruct (Hlookup i n Hn) as (x & c & _ & Hc & _).
      apply lookup_lt_Some in Hc.
      pose proof (unique_length key_eqb key_ltb (omap number_cell series)).
      rewrite omap_number_cell_length in * by done. lia.
Qed.

(** A column of nothing but missing values is a float column; its one
    class is the missing value, as on the path of the strings. *)
Lemma category_no_string series y :
  existsb is_str series = false → mapM category series = Ok y →
  Forall (fun v => ∃ x, v = VFloat x ∧ Num.is_nan x = true) series ∧
  y = replicate (length series) None.
Proof.
  revert y. induction series as [|v series IH]; intros y Hstr Hy.
  - injection Hy as <-. by split.
  - simpl in Hstr. apply orb_false_iff in Hstr as [Hv Hstr].
    apply mapM_Ok_cons in Hy as (k & y' & Hk & Hy' & ->).
    destruct (IH y' Hstr Hy') as [Hall ->].
    destruct v as [x| |]; try done. simpl in Hk.
    destruct (Num.is_nan x) eqn:Hnan; [|done]. injection Hk as <-.
    split; [|done]. constructor; [by exists x|done].
Qed.

Lemma unique_all_nan (xs : list float) :
  Forall (fun x => Num.is_nan x = true) xs → xs ≠ [] →
  ∃ c, unique key_eqb key_ltb xs = [c] ∧ Num.is_nan c = true.
Proof.
  induction 1 as [|x xs Hx Hxs IH]; intros Hne; [done|]. simpl.
  destruct xs as [|x' xs]; [by exists x|].
  destruct IH as (c & -> & Hc); [done|]. exists c. split; [|done]. simpl.
  unfold key_eqb. by rewrite Hx, Hc.
Qed.

Lemma inverse_all_nan (c : float) (xs : list float) :
  Num.is_nan c = true → Forall (fun x => Num.is_nan x = true) xs →
  inverse_all key_eqb [c] xs = Ok (replicate (length xs) 0%nat).
Proof.
  intros Hc. unfold inverse_all. induction 1 as [|x xs Hx _ IH]; [done|].
  apply mapM_Ok_cons. exists 0%nat, (replicate (length xs) 0%nat). split_and!; [|done..].
  assert (list_find (fun c' => key_eqb x c' = true) [c] = Some (0%nat, c)) as Hfind.
  { apply list_find_Some. split_and!; [done| |intros j y _ Hj; lia].
    unfold key_eqb. by rewrite Hx, Hc. }
  unfold inverse. by rewrite Hfind.
Qed.

Lemma transform_all_None n :
  transform (classes_ (replicate n None)) (replicate n None) = Ok (replicate n 0%nat).
Proof.
  destruct n as [|n]; [done|].
  assert (classes_ (replicate (S n) None) = [None]) as ->.
  { rewrite classes_unfold.
    assert (sorted_strings (replicate (S n) None) = []) as ->.
    { apply elem_of_nil_inv. intros s Hs%sorted_strings_elem_of.
      by apply elem_of_replicate in Hs as [[=] _]. }
    rewrite decide_True; [done|]. left. }
  unfold transform. generalize (S n). clear n. intros n.
  induction n as [|n IH]; [done|]. simpl replicate.
  apply mapM_Ok_cons. exists 0%nat, (replicate n 0%nat). split_and!; [|done..].
  apply from_option_Ok, code_Some; [|done]. apply NoDup_singleton.
Qed.

Lemma fit_transform_category series y codes :
  mapM category series = Ok y → transform (classes_ y) y = Ok codes →
  fit_transform series = Ok (of_codes codes).
Proof.
  intros Hy Hcodes. destruct (existsb is_str series) eqn:Hstr.
  - by rewrite fit_transform_object, Hy, bind_Ok_l, Hcodes.
  - destruct (category_no_string _ _ Hstr Hy) as [Hnan ->].
    rewrite transform_all_None in Hcodes. injection Hcodes as <-.
    assert (∃ xs, series = VFloat <$> xs ∧ Forall (fun x => Num.is_nan x = true) xs)
      as (xs & -> & Hxs).
    { clear -Hnan. induction Hnan as [|v series (x & -> & Hx) _ (xs & -> & Hxs)].
      - by exists [].
      - exists (x :: xs). split; [done|by constructor]. }
    rewrite fit_transform_floats, length_fmap.
    destruct xs as [|x xs]; [done|].
    destruct (unique_all_nan (x :: xs) Hxs) as (c & -> & Hc); [done|].
    by rewrite inverse_all_nan, bind_Ok_l.
Qed.


Lemma take_list_seq n locs k : take_list locs (seq 0 n) = Ok k → k = locs.
Proof.
  revert k. induction locs as [|i locs IH]; intros k H.
  - by injection H as <-.
  - apply take_list_cons in H as (v & k' & Hv & Hk' & ->).
    apply lookup_seq in Hv as [-> _]. by rewrite (IH k').
Qed.

Lemma sublist_StronglySorted {A} (R : relation A) (l1 l2 : list A) :
  l1 `sublist_of` l2 → StronglySorted R l2 → StronglySorted R l1.
Proof.
  induction 1 as [|x l1 l2 Hsub IH|x l1 l2 Hsub IH]; intros Hs; [done|..].
  - apply StronglySorted_cons in Hs as [Hx Hs]. constructor; [by apply IH|].
    eapply Forall_forall. intros y Hy. rewrite Forall_forall in Hx.
    apply Hx. by eapply elem_of_sublist.
  - apply StronglySorted_cons in Hs as [_ Hs]. by apply IH.
Qed.

Lemma not_sorted_8_1_5 : ¬ StronglySorted lt [8; 1; 5]%nat.
Proof. intros [[Hlt _]%Forall_cons _]%StronglySorted_cons. lia. Qed.

(** ** Feature selection and training *)

Lemma leb_not_ltb (x y : float) : PrimFloat.leb x y = true → PrimFloat.ltb y x = false.
Proof.
  rewrite FloatAxioms.leb_spec, FloatAxioms.ltb_spec. unfold SFleb, SFltb.
  destruct (Prim2SF x) as [[]|[]| |[] m e], (Prim2SF y) as [[]|[]| |[] m' e'];
    simpl; try done.
  all: pose proof (Pos.compare_cont_antisym m m' Eq) as Hm; simpl in Hm;
    rewrite <- Hm, (Z.compare_antisym e e');
    by destruct (e ?= e')%Z, (Pos.compare_cont Eq m m').
Qed.

Lemma select_features_nil (importance_dict : list (string * float)) :
  Forall (fun p => PrimFloat.leb p.2 0.01 = true) importance_dict →
  select_features importance_dict = [].
Proof.
  unfold select_features. induction 1 as [|[feature score] d Hlow _ IH]; [done|].
  rewrite filter_cons_False; [done|].
  simpl in *. by rewrite (leb_not_ltb score 0.01).
Qed.

Lemma no_DataError_bind {A B} (r : result A) (k : A → result B) :
  no_DataError r → (∀ a, no_DataError (k a)) → no_DataError (r ≫= k).
Proof.
  intros Hr Hk msg. destruct r as [a|e]; [apply Hk|].
  intros [= ->]. by apply (Hr msg).
Qed.

Lemma no_DataError_mapM {A B} (f : A → result B) (l : list A) :
  (∀ x, no_DataError (f x)) → no_DataError (mapM f l).
Proof.
  intros Hf. induction l as [|x l IH]; [done|].
  simpl. apply no_DataError_bind; [done|]. intros y.
  apply no_DataError_bind; [done|]. by intros k.
Qed.

Lemma no_DataError_from_option {A} (e : exn) (o : option A) :
  (∀ msg, e ≠ DataError msg) → no_DataError (from_option e o).
Proof. intros He msg. destruct o; [done|]. simpl. intros [= ->]. by eapply He. Qed.

Lemma take_list_no_DataError {A} locs (l : list A) : no_DataError (take_list locs l).
Proof. apply no_DataError_mapM. intros i. by apply no_DataError_from_option. Qed.

Lemma take_rows_no_DataError df locs : no_DataError (take_rows df locs).
Proof.
  apply no_DataError_bind; [apply take_list_no_DataError|]. intros idx.
  apply no_DataError_bind; [|done]. apply no_DataError_mapM. intros c.
  apply no_DataError_bind; [apply take_list_no_DataError|done].
Qed.

Lemma choice_no_DataError random_state n size : no_DataError (choice random_state n size).
Proof.
  unfold choice. repeat case_match; try done.
  apply no_DataError_bind; [by apply no_DataError_from_option|done].
Qed.

Lemma train_test_split_no_DataError X y test_size random_state :
  no_DataError (train_test_split X y test_size random_state).
Proof.
  unfold train_test_split. case_match; [done|].
  apply no_DataError_bind; [by apply no_DataError_from_option|]. intros n_test.
  case_match; [done|].
  apply no_DataError_bind; [apply choice_no_DataError|]. intros p.
  repeat (apply no_DataError_bind;
          [first [apply take_rows_no_DataError|apply take_list_no_DataError]|intros ?]).
  done.
Qed.

Lemma as_float_array_no_DataError y : no_DataError (as_float_array y).
Proof. apply no_DataError_mapM. by intros []. Qed.

Lemma take_rows_no_columns idx locs out :
  take_rows {| index := idx; columns := [] |} locs = Ok out →
  columns out = [] ∧ n_rows out = length locs.
Proof.
  intros (idx' & cols & Hidx & [= <-] & ->)%take_rows_Ok. split; [done|].
  unfold n_rows. simpl. by apply mapM_Ok_length in Hidx.
Qed.

Lemma train_test_split_Ok X y test_size random_state s :
  train_test_split X y test_size random_state = Ok s →
  ∃ ind_train ind_test,
    take_rows X ind_train = Ok (X_train s) ∧ take_rows X ind_test = Ok (X_test s) ∧
    take_list ind_train y = Ok (y_train s) ∧ take_list ind_test y = Ok (y_test s) ∧
    NoDup (ind_test ++ ind_train) ∧
    (length ind_train + length ind_test = n_rows X)%nat ∧
    (0 < length ind_train)%nat.
Proof.
  unfold train_test_split. intros H.
  destruct (negb (length y =? n_rows X)%nat); [done|].
  apply bind_Ok in H as (n_test & _ & H).
  destruct (Nat.eqb_spec (n_rows X - Z.to_nat n_test) 0) as [|Hn]; [done|].
  apply bind_Ok in H as (p & (Hnd & _ & Hlen)%choice_Ok & H).
  apply bind_Ok in H as (Xtr & HXtr & H).
  apply bind_Ok in H as (Xte & HXte & H).
  apply bind_Ok in H as (ytr & Hytr & H).
  apply bind_Ok in H as (yte & Hyte & [= <-]). simpl.
  rewrite Nat2Z.id in Hlen.
  eexists _, _. split_and!; try done.
  - rewrite <- (take_drop (Z.to_nat n_test) p) in Hnd.
    apply NoDup_app in Hnd as (Hnd1 & Hdisj & Hnd2). apply NoDup_app. split_and!; [done| |].
    + intros i Hi Hi'. apply (Hdisj i Hi). by eapply elem_of_sublist, sublist_take.
    + apply (sublist_NoDup _ (drop (Z.to_nat n_test) p)); [done|apply sublist_take].
  - rewrite !length_take, length_drop. lia.
  - rewrite length_take, length_drop. lia.
Qed.

Section Training.
Context `{Sklearn}.

Lemma fit_no_features random_state X y :
  columns X = [] → (0 < n_rows X)%nat →
  GradientBoostingRegressor_fit random_state X y = Raise no_features.
Proof.
  intros Hcols Hrows. unfold GradientBoostingRegressor_fit, to_matrix.
  rewrite Hcols. simpl mapM. rewrite !bind_Ok_l.
  destruct (Nat.eqb_spec (n_rows X) 0) as [|_]; [lia|done].
Qed.

(** Without a selected feature, [train] splits a table without columns
    and the fit rejects it. *)
Lemma train_no_features X y importance_dict :
  select_features importance_dict = [] →
  train X y importance_dict =
    (ym ← as_float_array y;
     s ← train_test_split {| index := index X; columns := [] |} ym 0.1 42;
     Raise no_features).
Proof.
  intros Hsel. unfold train. rewrite Hsel.
  change (getitem_columns X []) with (Ok {| index := index X; columns := [] |}).
  rewrite bind_Ok_l. destruct (as_float_array y) as [ym|e]; [|done]. rewrite !bind_Ok_l.
  destruct (train_test_split _ ym 0.1 42) as [s|e] eqn:Hs; [|done]. rewrite !bind_Ok_l.
  apply train_test_split_Ok in Hs as (ind_train & _ & HX & _ & _ & _ & _ & _ & Hlen).
  apply take_rows_no_columns in HX as [Hcols Hrows].
  rewrite fit_no_features; [done..|lia].
Qed.

End Training.

(** ** Boosting engine *)

Section Staged.
Context `{Sklearn}.

Lemma boost_length n learning_rate rng X y raw :
  length (boost n learning_rate rng X y raw) = n.
Proof.
  revert rng raw. induction n as [|n IH]; intros rng raw; [done|].
  simpl. destruct (fit_tree rng X (zip_with PrimFloat.sub y raw)) as [tree rng'].
  simpl. by rewrite IH.
Qed.

Lemma fit_Ok random_state X_train y_train model :
  GradientBoostingRegressor_fit random_state X_train y_train = Ok model →
  length (estimators_ model) = 100%nat ∧ init_ model = Num.mean y_train.
Proof.
  unfold GradientBoostingRegressor_fit. intros H0.
  apply bind_Ok in H0 as (X & _ & H0).
  destruct (n_rows X_train =? 0)%nat; [discriminate H0|].
  destruct (length (columns X_train) =? 0)%nat; [discriminate H0|].
  destruct (negb (length y_train =? n_rows X_train)%nat); [discriminate H0|].
  remember (boost 100 0.1 (MT19937.mt19937_seed random_state) X y_train
              (replicate (length y_train) (Num.mean y_train))) as trees eqn:Htrees.
  injection H0 as <-. subst trees. split; [apply boost_length|reflexivity].
Qed.

Lemma add_stage_length learning_rate tree X raw :
  length raw = length X → length (add_stage learning_rate tree X raw) = length X.
Proof. intros Hlen. unfold add_stage. rewrite length_zip_with. lia. Qed.

Lemma staged_length learning_rate trees X raw :
  length (staged learning_rate trees X raw) = length trees.
Proof.
  revert raw. induction trees as [|tree trees IH]; intros raw; [done|].
  simpl. by rewrite IH.
Qed.

(** The entry for [i + 1] trees is the prediction of the first [i + 1]
    trees. *)
Lemma staged_lookup learning_rate trees X raw i stage :
  staged learning_rate trees X raw !! i = Some stage →
  stage = foldl (fun raw tree => add_stage learning_rate tree X raw) raw (take (S i) trees).
Proof.
  revert raw i. induction trees as [|tree trees IH]; intros raw i Hi; [done|].
  destruct i as [|i]; simpl in *.
  - by injection Hi as <-.
  - by apply IH.
Qed.

Lemma foldl_add_stage_length learning_rate trees X raw :
  length raw = length X →
  length (foldl (fun raw tree => add_stage learning_rate tree X raw) raw trees) = length X.
Proof.
  revert raw. induction trees as [|tree trees IH]; intros raw Hlen; [done|].
  simpl. apply IH. by apply add_stage_length.
Qed.

Lemma to_matrix_length X Xm : to_matrix X = Ok Xm → length Xm = n_rows X.
Proof.
  unfold to_matrix. intros (cols & _ & [= <-])%bind_Ok.
  unfold transpose. by rewrite length_fmap, length_seq.
Qed.

Lemma staged_predict_Ok model X results :
  staged_predict model X = Ok results ↔
  ∃ Xm, to_matrix X = Ok Xm ∧
        results = staged (learning_rate model) (estimators_ model) Xm
                    (replicate (length Xm) (init_ model)).
Proof.
  unfold staged_predict. split.
  - intros (Xm & HXm & [= <-])%bind_Ok. eauto.
  - intros (Xm & -> & ->). reflexivity.
Qed.

Lemma train_Ok X y importance_dict outputs :
  train X y importance_dict = Ok outputs →
  ∃ Xs results,
    GradientBoostingRegressor_fit 42 (X_train (split outputs)) (y_train (split outputs))
      = Ok (gbr_model outputs) ∧
    predict (gbr_model outputs) (X_test (split outputs)) = Ok (y_pred outputs) ∧
    getitem_columns X (select_features importance_dict) = Ok Xs ∧
    staged_predict (gbr_model outputs) (X_test (split outputs)) = Ok results ∧
    mapM (mean_squared_error (y_test (split outputs))) results = Ok (test_errors outputs).
Proof.
  unfold train. intros H0.
  apply bind_Ok in H0 as (Xs & HXs & H0).
  apply bind_Ok in H0 as (ym & _ & H0).
  apply bind_Ok in H0 as (s & _ & H0).
  apply bind_Ok in H0 as (model & Hmodel & H0).
  apply bind_Ok in H0 as (pred & Hpred & H0).
  apply bind_Ok in H0 as (report & _ & H0).
  apply bind_Ok in H0 as (results & Hresults & H0).
  apply bind_Ok in H0 as (errors & Herrors & [= <-]). simpl.
  by exists Xs, results.
Qed.

End Staged.

(** ** Column names along the script *)

Lemma dict_set_names_existing {V} name (col : V) cols :
  name ∈ cols.*1 → (dict_set name col cols).*1 = cols.*1.
Proof.
  induction cols as [|[n c] cols IH]; intros Hin.
  - by apply elem_of_nil in Hin.
  - cbn [dict_set]. destruct (String.eqb_spec n name) as [->|Hne]; [done|].
    rewrite fmap_cons in Hin. apply elem_of_cons in Hin as [->|Hin]; [done|].
    rewrite !fmap_cons. by rewrite IH.
Qed.

Lemma getitem_elem_of df name col : getitem df name = Ok col → name ∈ column_names df.
Proof.
  intros H%from_option_Ok. destruct (decide (name ∈ column_names df)) as [|Hn]; [done|].
  apply dict_get_None in Hn. congruence.
Qed.

Lemma setitem_names_existing df name col out :
  name ∈ column_names df → setitem df name col = Ok out →
  column_names out = column_names df.
Proof. intros Hin [_ ->]%setitem_Ok. by apply dict_set_names_existing. Qed.

Lemma take_rows_names df locs out :
  take_rows df locs = Ok out → column_names out = column_names df.
Proof.
  intros (idx & cols & _ & Hcols & ->)%take_rows_Ok. unfold column_names. simpl.
  revert cols Hcols. induction (columns df) as [|[n c] l IH]; intros cols Hcols.
  - by injection Hcols as <-.
  - apply mapM_Ok_cons in Hcols as ([n' c'] & k & (t & _ & [= <- <-])%bind_Ok & Hk & ->).
    rewrite !fmap_cons. cbn [fst]. by rewrite (IH k).
Qed.

Lemma cleaning_names raw out : cleaning raw = Ok out → column_names out = projected_columns.
Proof.
  unfold cleaning, sample. intros H.
  apply bind_Ok in H as (d1 & _ & H).
  apply bind_Ok in H as (d2 & Hd2%getitem_columns_names & H).
  apply bind_Ok in H as (size & _ & H).
  apply bind_Ok in H as (locs & _ & H).
  by rewrite (take_rows_names _ _ _ H).
Qed.

Lemma setitem_each_names data cols out :
  Forall (fun n => n ∈ column_names data) cols.*1 →
  setitem_each data cols = Ok out → column_names out = column_names data.
Proof.
  revert data. induction cols as [|[name col] cols IH]; intros data Hin H; simpl in H.
  - by injection H as <-.
  - apply bind_Ok in H as (data1 & Hdata1 & H).
    apply Forall_cons in Hin as [Hname Hin].
    pose proof (setitem_names_existing _ _ _ _ Hname Hdata1) as Hnames.
    rewrite (IH data1), Hnames; [done| |done]. by rewrite Hnames.
Qed.

Lemma impute_names `{Sklearn} data out :
  impute data = Ok out → column_names out = column_names data.
Proof.
  unfold impute. intros H0.
  apply bind_Ok in H0 as (sub & Hsub & H0).
  apply bind_Ok in H0 as (X & _ & H0).
  apply bind_Ok in H0 as (X' & _ & H0).
  unfold setitem_columns in H0.
  destruct (negb (forallb _ X')); [done|].
  destruct (negb (length X' =? n_rows data)%nat); [done|].
  apply setitem_each_names in H0; [done|].
  apply Forall_forall. intros n ([n' c] & -> & Hin%elem_of_zip_l)%list_elem_of_fmap.
  simpl. apply getitem_columns_Ok in Hsub as (cols & Hcols & _).
  clear -Hcols Hin. revert cols Hcols.
  induction numerical_columns as [|k keys IH]; intros cols Hcols;
    [by apply elem_of_nil in Hin|].
  apply mapM_Ok_cons in Hcols as (p & rest & (c & Hc & _)%bind_Ok & Hrest & _).
  apply elem_of_cons in Hin as [->|Hin]; [by eapply getitem_elem_of|by eapply IH].
Qed.

Lemma encode_columns_names cols data out :
  encode_columns cols data = Ok out → column_names out = column_names data.
Proof.
  revert data. induction cols as [|col cols IH]; intros data H; simpl in H.
  - by injection H as <-.
  - apply bind_Ok in H as (series & Hseries%getitem_elem_of & H).
    apply bind_Ok in H as (codes & _ & H).
    apply bind_Ok in H as (data1 & Hdata1 & H).
    by rewrite (IH _ H), (setitem_names_existing _ _ _ _ Hseries Hdata1).
Qed.

Lemma setitem_names_fresh df name col out :
  name ∉ column_names df → setitem df name col = Ok out →
  column_names out = column_names df ++ [name].
Proof. intros Hfresh [_ ->]%setitem_Ok. by apply dict_set_names_fresh. Qed.

Lemma feature_engineer_names current_year data out :
  Forall (fun n => n ∉ column_names data) derived_columns →
  feature_engineer current_year data = Ok out →
  column_names out = column_names data ++ derived_columns.
Proof.
  intros Hfresh H. unfold feature_engineer in H.
  apply Forall_cons in Hfresh as [Hage Hfresh].
  apply Forall_cons in Hfresh as [Hppk Hfresh].
  apply Forall_cons in Hfresh as [Hof _].
  apply bind_Ok in H as (year & _ & H).
  apply bind_Ok in H as (car_age & _ & H).
  apply bind_Ok in H as (data1 & Hdata1%setitem_names_fresh & H); [|done].
  apply bind_Ok in H as (price & _ & H).
  apply bind_Ok in H as (odometer & _ & H).
  apply bind_Ok in H as (odometer1 & _ & H).
  apply bind_Ok in H as (price_per_km & _ & H).
  apply bind_Ok in H as (data2 & Hdata2%setitem_names_fresh & H).
  2:{ rewrite Hdata1, elem_of_app. intros [?|[=]%list_elem_of_singleton]. by apply Hppk. }
  apply bind_Ok in H as (odometer' & _ & H).
  apply bind_Ok in H as (fuel & _ & H).
  apply bind_Ok in H as (odometer_fuel & _ & H%setitem_names_fresh).
  2:{ rewrite Hdata2, Hdata1, !elem_of_app.
      intros [[?|[=]%list_elem_of_singleton]|[=]%list_elem_of_singleton]. by apply Hof. }
  rewrite H, Hdata2, Hdata1. by rewrite <- !app_assoc.
Qed.

(** The table that leaves the Feature Engineer has the nine projected
    columns and the three derived ones. *)
Lemma prepare_names `{Sklearn} w raw data :
  prepare w raw = Ok data → column_names data = projected_columns ++ derived_columns.
Proof.
  unfold prepare. intros H0.
  apply bind_Ok in H0 as (d1 & Hd1%cleaning_names & H0).
  apply bind_Ok in H0 as (d2 & Hd2%impute_names & H0).
  apply bind_Ok in H0 as (d3 & Hd3 & H0).
  apply bind_Ok in H0 as (d4 & Hd4%encode_columns_names & H0).
  rewrite Hd1 in Hd2.
  apply outlier_filter_Ok in Hd3 as (odometer & xs & _ & _ & _ & ->);
    [|by apply zscore_fresh_in_projection].
  rewrite select_rows_names, Hd2 in Hd4.
  apply feature_engineer_names in H0; [|rewrite Hd4; compute_done]. by rewrite H0, Hd4.
Qed.

Lemma dict_keys {V} (pairs : list (string * V)) k : k ∈ (dict pairs).*1 → k ∈ pairs.*1.
Proof.
  unfold dict.
  assert (∀ d, k ∈ (foldl (fun d p => dict_set p.1 p.2 d) d pairs).*1 →
               k ∈ d.*1 ∨ k ∈ pairs.*1) as Hgen.
  { induction pairs as [|[k' v] pairs IH]; intros d Hk; [by left|].
    simpl in Hk. apply IH in Hk as [Hk|Hk].
    - apply dict_set_names_elem_of in Hk as [->|Hk]; [right; left|by left].
    - right. by right. }
  intros [Hk|Hk]%Hgen; [by apply elem_of_nil in Hk|done].
Qed.

Lemma select_features_subseteq importance_dict k :
  k ∈ select_features importance_dict → k ∈ importance_dict.*1.
Proof.
  unfold select_features. intros (p & -> & [_ Hp]%list_elem_of_filter)%list_elem_of_fmap.
  by apply list_elem_of_fmap_2.
Qed.

Lemma drop_columns_names df names out k :
  drop_columns df names = Ok out → k ∈ column_names out → k ∈ column_names df.
Proof.
  unfold drop_columns. destruct (filter _ names); [|done]. intros [= <-].
  unfold column_names. simpl.
  intros (p & -> & [_ Hp]%list_elem_of_filter)%list_elem_of_fmap.
  by apply list_elem_of_fmap_2.
Qed.

(** The selected features are columns of the prepared table other than
    the standardized score. *)
Lemma selected_features_names `{Sklearn} w data X y importance_dict k :
  score_features w data = Ok (X, y, importance_dict) →
  k ∈ select_features importance_dict → k ∈ column_names data.
Proof.
  unfold score_features. intros H0 Hk.
  apply bind_Ok in H0 as (X0 & HX & H0).
  apply bind_Ok in H0 as (y0 & _ & H0).
  apply bind_Ok in H0 as (Xm & _ & H0).
  apply bind_Ok in H0 as (ym & _ & H0).
  apply bind_Ok in H0 as (importance & _ & [= <- <- <-]).
  apply select_features_subseteq, dict_keys in Hk.
  apply (drop_columns_names _ _ _ _ HX).
  apply list_elem_of_fmap in Hk as ([n s] & -> & Hin). by apply elem_of_zip_l in Hin.
Qed.

(** * The properties of the specification *)

(** C1 (code defect at the boundary).  The retention test [abs(z) < 3]
    is false for every score of magnitude exactly 3.  On [cars10], whose
    odometer deviation is not zero, the last row has a standardized score
    of exactly 3.0; the comment of the script says that scores greater
    than 3 are removed, yet this row is removed as well: the nine other
    rows are all that is left. *)
Theorem outlier_boundary_row_dropped :
  (∀ z, PrimFloat.eqb (PrimFloat.abs z) 3 = true → abs_lt_3 z = false) ∧
  ∃ xs out,
    getitem cars10 "odometer" ≫= to_floats = Ok xs ∧
    PrimFloat.eqb (std xs) 0 = false ∧
    zscore xs !! 9%nat = Some 3%float ∧
    PrimFloat.abs 3 = 3%float ∧
    PrimFloat.ltb 3 (PrimFloat.abs 3) = false ∧
    outlier_filter cars10 = Ok out ∧
    index cars10 !! 9%nat = Some 9%nat ∧
    index out = [0; 1; 2; 3; 4; 5; 6; 7; 8]%nat.
Proof.
  split; [apply abs_lt_3_boundary|].
  eexists _, _. split; [by vm_compute|]. split_and!; by vm_compute.
Qed.

(** C2, as stated, fails: for [y_test = [10, 20, 30]] and
    [y_pred = [12, 18, 33]] the mean squared error is 17/3, which rounds to
    5.67 and not to 7.67. *)
Lemma evaluator_mse_is_not_7_67 :
  ∃ out mae mse r2,
    evaluate_model [10; 20; 30]%float [12; 18; 33]%float "Model" = Ok (out, (mae, mse, r2)) ∧
    mse = (17 / 3)%float ∧
    Num.format_2f mse = "5.67" ∧
    Num.format_2f mse ≠ "7.67".
Proof.
  eexists _, _, _, _. split; [by vm_compute|].
  split_and!; [by vm_compute..|discriminate].
Qed.

(** C2 (amended).  For [y_test = [10, 20, 30]] and [y_pred = [12, 18, 33]] the
    Evaluator returns mean absolute error 7/3 (2.33 to two decimals), mean
    squared error 17/3 (5.67 to two decimals) and R² = 1 - 17/200, the
    residual sum of squares 17 over the total sum of squares 200 about the
    mean 20 of [y_test] (0.92 to two decimals). *)
Theorem evaluator_example :
  let y_test := [10; 20; 30]%float in
  let y_pred := [12; 18; 33]%float in
  ∃ out mae mse r2,
    evaluate_model y_test y_pred "Model" = Ok (out, (mae, mse, r2)) ∧
    mae = (7 / 3)%float ∧ Num.format_2f mae = "2.33" ∧
    mse = (17 / 3)%float ∧ Num.format_2f mse = "5.67" ∧
    Num.mean y_test = 20%float ∧
    ss_res y_test y_pred = 17%float ∧
    ss_tot y_test = 200%float ∧
    r2 = (1 - ss_res y_test y_pred / ss_tot y_test)%float ∧
    Num.format_2f r2 = "0.92" ∧
    out = ["Model Performance:";
           "Mean Absolute Error (MAE): 2.33";
           "Mean Squared Error (MSE): 5.67";
           "R² Score: 0.92";
           "----------------------------------------"].
Proof.
  intros y_test y_pred. eexists _, _, _, _.
  split; [by vm_compute|]. split_and!; by vm_compute.
Qed.

(** C3, as stated, fails: on [cars3] all odometer readings are equal, the
    deviation is zero, every score is NaN and every row is removed. *)
Lemma zero_std_removes_rows :
  PrimFloat.eqb (std [60000; 60000; 60000]%float) 0 = true ∧
  ∃ out, outlier_filter cars3 = Ok out ∧ index out = [] ∧ out ≠ cars3.
Proof.
  split; [by vm_compute|]. eexists. split; [by vm_compute|]. split; [done|].
  intros H. apply (f_equal n_rows) in H. discriminate H.
Qed.

(** C3 (amended).  When all odometer readings are equal, every
    standardized score is NaN; when they are not but the computed standard
    deviation is zero, every score is infinite or NaN.  In both cases no
    score passes [abs(z) < 3]: the Outlier Filter removes every row and
    keeps the columns, now empty. *)
Theorem outlier_filter_zero_std df odometer xs :
  wf df →
  "odometer_zscore" ∉ column_names df →
  getitem df "odometer" = Ok odometer →
  to_floats odometer = Ok xs →
  all_equal xs ∨ PrimFloat.eqb (std xs) 0 = true →
  (all_equal xs → zscore xs = replicate (length xs) PrimFloat.nan) ∧
  Forall (fun z => abs_lt_3 z = false) (zscore xs) ∧
  outlier_filter df =
    Ok {| index := []; columns := prod_map id (fun _ => []) <$> columns df |}.
Proof.
  intros Hwf Hfresh Hodo Hxs Hzero.
  assert (Forall (fun b => b = false) (abs_lt_3 <$> zscore xs)) as Hmask.
  { destruct Hzero as [Heq|Hsd]; [|by apply zscore_zero_std_mask].
    destruct xs as [|x xs]; [constructor|].
    by apply zscore_isconst_mask, all_equal_isconst. }
  split_and!.
  - intros Heq. destruct xs as [|x xs]; [done|]. by apply zscore_isconst, all_equal_isconst.
  - by apply Forall_fmap in Hmask.
  - rewrite (outlier_filter_eq df odometer xs); try done.
    + f_equal. by apply select_rows_all_false.
    + apply mapM_Ok_length in Hxs. rewrite Hxs. by apply getitem_length with "odometer".
Qed.

Lemma outlier_filter_zero_std_witness :
  all_equal [60000; 60000; 60000]%float ∧
  zscore [60000; 60000; 60000]%float = replicate 3 PrimFloat.nan ∧
  outlier_filter cars3 =
    Ok {| index := []; columns := prod_map id (fun _ => []) <$> columns cars3 |}.
Proof.
  assert (all_equal [60000; 60000; 60000]%float) as Heq.
  { intros x y Hx Hy. rewrite !elem_of_cons, elem_of_nil in Hx, Hy.
    destruct Hx as [->|[->|[->|[]]]]; destruct Hy as [->|[->|[->|[]]]]; reflexivity. }
  destruct (outlier_filter_zero_std cars3
              (VFloat <$> [60000; 60000; 60000]%float) [60000; 60000; 60000]%float)
    as (Hz & _ & Hout).
  - exact wf_cars3.
  - compute_done.
  - reflexivity.
  - reflexivity.
  - by left.
  - split; [exact Heq|]. split; [exact (Hz Heq)|exact Hout].
Defined.

(** C4 (code defect).  [sample], [train_test_split] and the regressor are
    each given [random_state=42]; [mutual_info_regression] is called
    without it and draws from NumPy's global generator.  Two runs on the
    same table under the same clock prepare the same table, and the
    Feature Importance Scores of each run are what the estimator returns
    under the state in which that run finds the global generator: they are
    not fixed by the table and the seed.  The two runs agree on everything
    when the estimator returns the same scores in both. *)
Theorem scores_follow_global_generator `{Sklearn} w1 w2 raw data :
  clock_year w1 = clock_year w2 →
  prepare w1 raw = Ok data →
  prepare w2 raw = Ok data ∧
  ∀ X y Xm ym,
    drop_columns data ["price"] = Ok X → getitem data "price" = Ok y →
    to_matrix X = Ok Xm → as_float_array y = Ok ym →
    score_features w1 data =
      (importance ← mutual_info_regression (global_rng w1) Xm ym;
       Ok (X, y, dict (zip (column_names X) importance))) ∧
    score_features w2 data =
      (importance ← mutual_info_regression (global_rng w2) Xm ym;
       Ok (X, y, dict (zip (column_names X) importance))) ∧
    (mutual_info_regression (global_rng w1) Xm ym =
       mutual_info_regression (global_rng w2) Xm ym →
     script w1 raw = script w2 raw).
Proof.
  intros Hclock Hprepare.
  assert (prepare w2 raw = Ok data) as Hprepare'.
  { unfold prepare in *. by rewrite <- Hclock. }
  split; [done|]. intros X y Xm ym HX Hy HXm Hym.
  assert (∀ w, score_features w data =
               (importance ← mutual_info_regression (global_rng w) Xm ym;
                Ok (X, y, dict (zip (column_names X) importance)))) as Hscore.
  { intros w. unfold score_features.
    by rewrite HX, bind_Ok_l, Hy, bind_Ok_l, HXm, bind_Ok_l, Hym, bind_Ok_l. }
  split_and!; [done..|]. intros Hsame. unfold script.
  by rewrite Hprepare, Hprepare', !bind_Ok_l, !Hscore, Hsame.
Qed.

Lemma scores_follow_global_generator_witness :
  ∃ data X y scores_a scores_b,
    prepare (H := stub_sklearn) world_a cars40 = Ok data ∧
    prepare (H := stub_sklearn) world_b cars40 = Ok data ∧
    score_features (H := stub_sklearn) world_a data = Ok (X, y, scores_a) ∧
    score_features (H := stub_sklearn) world_b data = Ok (X, y, scores_b) ∧
    scores_a !! 0%nat = Some ("year", 0.5%float) ∧
    scores_b !! 0%nat = Some ("year", (1 / 4294967296)%float) ∧
    select_features scores_a ≠ select_features scores_b ∧
    (∃ outputs, script (H := stub_sklearn) world_a cars40 = Ok outputs) ∧
    script (H := stub_sklearn) world_b cars40 = Raise no_features.
Proof.
  eassert (prepare (H := stub_sklearn) world_a cars40 = Ok _) as Hdata
    by (vm_compute; reflexivity).
  destruct (scores_follow_global_generator (H := stub_sklearn)
              world_a world_b cars40 _ eq_refl Hdata) as [Hdata' Hscores].
  edestruct Hscores as (Ha & Hb & _); [vm_compute; reflexivity..|].
  eexists _, _, _, _, _.
  split; [exact Hdata|]. split; [exact Hdata'|].
  split; [rewrite Ha; vm_compute; reflexivity|].
  split; [rewrite Hb; vm_compute; reflexivity|].
  split_and!; [by vm_compute..| |by vm_compute].
  eexists. vm_compute. reflexivity.
Defined.

(** C5, as stated, fails for the Cleaning Stage: on [cars10] every price
    is in range and the subsample returns the rows labelled 8, 1 and 5 in
    that order, so row 8 comes before row 1 although it follows it in the
    input. *)
Lemma cleaning_reorders_rows :
  ∃ out projected,
    cleaning cars10 = Ok out ∧
    getitem_columns cars10 projected_columns = Ok projected ∧
    index cars10 = seq 0 10 ∧
    index out = [8; 1; 5]%nat ∧
    ¬ index out `sublist_of` index cars10 ∧
    ¬ drops_rows projected out.
Proof.
  eexists _, _. split_and!; [by vm_compute..| |].
  - intros Hsub. apply not_sorted_8_1_5.
    apply (sublist_StronglySorted _ _ _ Hsub). compute_done.
  - intros (locs & Hsorted & (idx & cols & Hidx & _ & [= <- _])%take_rows_Ok).
    pose proof (take_list_seq 10 locs _ Hidx) as <-. by apply not_sorted_8_1_5.
Qed.

(** C5 (amended).  The price filter of the Cleaning Stage and the Outlier
    Filter only drop rows and keep the others in input order.  The
    subsample of the Cleaning Stage returns rows of its input, none of
    them twice, in the order in which they were drawn; so the Cleaning
    Stage as a whole returns rows of the projected input, none of them
    twice.  Projection, imputation, encoding and the Feature Engineer keep
    the row labels as they are, and imputation and encoding leave the
    cells of the columns they do not assign where they were. *)
Theorem row_alignment `{Sklearn} :
  (∀ raw out, wf raw → price_filter raw = Ok out → drops_rows raw out) ∧
  (∀ data out, getitem_columns data projected_columns = Ok out →
     index out = index data ∧ ∀ n c, (n, c) ∈ columns out → getitem data n = Ok c) ∧
  (∀ data out, sample 0.3 42 data = Ok out → picks_rows data out) ∧
  (∀ raw out, wf raw → cleaning raw = Ok out →
     ∃ projected, getitem_columns raw projected_columns = Ok projected ∧
                  picks_rows projected out) ∧
  (∀ data out, wf data → "odometer_zscore" ∉ column_names data →
     outlier_filter data = Ok out → drops_rows data out) ∧
  (∀ data out, impute data = Ok out →
     index out = index data ∧
     ∀ n, n ∉ numerical_columns → getitem out n = getitem data n) ∧
  (∀ data out, encode data = Ok out →
     index out = index data ∧
     ∀ n, n ∉ categorical_columns → getitem out n = getitem data n) ∧
  (∀ current_year data out,
     feature_engineer current_year data = Ok out → index out = index data).
Proof.
  split_and!.
  - apply price_filter_drops_rows.
  - intros data out Hout. split.
    + by apply getitem_columns_Ok in Hout as (cols & _ & ->).
    + intros n c. by apply getitem_columns_elem_of with projected_columns.
  - apply sample_picks_rows.
  - apply cleaning_picks_rows.
  - intros data out Hwf Hfresh Hout.
    apply outlier_filter_Ok in Hout as (odometer & xs & _ & _ & Hlen & ->); [|done].
    exists (true_positions (abs_lt_3 <$> zscore xs)).
    split; [apply true_positions_sorted|]. apply select_rows_take_rows; [done|].
    by rewrite length_fmap, zscore_length.
  - apply @impute_Ok.
  - apply encode_columns_Ok.
  - apply feature_engineer_index.
Qed.

(** C6, as stated, fails: with every score below the threshold the run
    does not end in a [DataError].  On a table of twelve rows and three
    features with scores of 0.005 no feature is selected, the table
    without columns is split and handed to the fit, whose input validation
    raises [ValueError]; so does the whole script on [cars40] in
    [world_b], where the stand-in estimator scores every feature below the
    threshold. *)
Lemma no_features_raises_ValueError :
  let scores := (fun n => (n, 0.005%float)) <$> ["year"; "odometer"; "car_age"] in
  let X := {| index := seq 0 12;
              columns := [("year", replicate 12 (VFloat 2012));
                          ("odometer", replicate 12 (VFloat 50000));
                          ("car_age", replicate 12 (VFloat 14))] |} in
  let y := replicate 12 (VInt 9000) in
  Forall (fun p => PrimFloat.leb p.2 0.01 = true) scores ∧
  select_features scores = [] ∧
  train (H := stub_sklearn) X y scores = Raise no_features ∧
  (∀ msg, train (H := stub_sklearn) X y scores ≠ Raise (DataError msg)) ∧
  script (H := stub_sklearn) world_b cars40 = Raise no_features.
Proof.
  intros scores X y.
  assert (train (H := stub_sklearn) X y scores = Raise no_features) as Htrain
    by (by vm_compute).
  split_and!; [compute_done|by vm_compute|done| |by vm_compute].
  intros msg. by rewrite Htrain.
Qed.

(** C6 (amended).  When every feature's score is at or below 0.01, the
    script makes no check of its own and raises no [DataError]: no feature
    is selected, the script goes on to split the table without feature
    columns and calls the fit on its training part, which scikit-learn's
    input validation rejects.  The run ends in that [ValueError], or in the
    error of a step before the fit; no model is fitted. *)
Theorem no_feature_run `{Sklearn} w raw data X y importance_dict :
  prepare w raw = Ok data →
  score_features w data = Ok (X, y, importance_dict) →
  Forall (fun p => PrimFloat.leb p.2 0.01 = true) importance_dict →
  select_features importance_dict = [] ∧
  script w raw =
    (ym ← as_float_array y;
     s ← train_test_split {| index := index X; columns := [] |} ym 0.1 42;
     Raise no_features) ∧
  (∀ outputs, script w raw ≠ Ok outputs) ∧
  (∀ msg, script w raw ≠ Raise (DataError msg)).
Proof.
  intros Hprepare Hscore Hlow.
  pose proof (select_features_nil _ Hlow) as Hsel.
  assert (script w raw =
            (ym ← as_float_array y;
             s ← train_test_split {| index := index X; columns := [] |} ym 0.1 42;
             Raise no_features)) as Hscript.
  { unfold script. rewrite Hprepare, bind_Ok_l, Hscore, bind_Ok_l. simpl.
    by apply train_no_features. }
  split_and!; [done..| |].
  - intros outputs. rewrite Hscript.
    destruct (as_float_array y) as [ym|]; [|done]. rewrite bind_Ok_l.
    by destruct (train_test_split _ ym 0.1 42).
  - rewrite Hscript. apply no_DataError_bind; [apply as_float_array_no_DataError|].
    intros ym. apply no_DataError_bind; [apply train_test_split_no_DataError|done].
Qed.

Lemma no_feature_run_witness :
  ∃ data X y importance_dict,
    prepare (H := stub_sklearn) world_b cars40 = Ok data ∧
    score_features (H := stub_sklearn) world_b data = Ok (X, y, importance_dict) ∧
    Forall (fun p => PrimFloat.leb p.2 0.01 = true) importance_dict ∧
    select_features importance_dict = [] ∧
    script (H := stub_sklearn) world_b cars40 =
      (ym ← as_float_array y;
       s ← train_test_split {| index := index X; columns := [] |} ym 0.1 42;
       Raise no_features).
Proof.
  eassert (prepare (H := stub_sklearn) world_b cars40 = Ok _) as Hdata
    by (vm_compute; reflexivity).
  lazymatch type of Hdata with
  | _ = Ok ?data =>
      eassert (score_features (H := stub_sklearn) world_b data = Ok (_, _, _)) as Hscore
        by (vm_compute; reflexivity)
  end.
  edestruct (no_feature_run (H := stub_sklearn) world_b cars40)
    as (Hsel & Hscript & _ & _); [exact Hdata|exact Hscore|compute_done|].
  eexists _, _, _, _.
  split; [exact Hdata|]. split; [exact Hscore|]. split; [compute_done|]. by split.
Defined.

(** C7.  For a categorical column [y] the encoder's classes are the
    distinct observed values, without repetition; [code] maps every
    observed value to a position below their number [n], two values never
    share a code, every position below [n] is the code of an observed
    value, the codes follow the sorted order of the values (the missing
    value last), and a column with the same set of values has the same
    classes, hence the same mapping.  The transformed column holds the code
    of each cell. *)
Theorem label_encoder_bijection (y : list (option string)) :
  let classes := classes_ y in
  let n := length classes in
  NoDup classes ∧
  (∀ k, k ∈ classes ↔ k ∈ y) ∧
  (∀ k, k ∈ y → ∃ i, code classes k = Some i ∧ (i < n)%nat) ∧
  (∀ k k' i, code classes k = Some i → code classes k' = Some i → k = k') ∧
  (∀ i, (i < n)%nat → ∃ k, k ∈ y ∧ code classes k = Some i) ∧
  (∀ k k' i j,
     code classes k = Some i → code classes k' = Some j → (i < j)%nat → key_lt k k') ∧
  (∀ y', (∀ k, k ∈ y ↔ k ∈ y') → classes_ y' = classes) ∧
  (∃ codes,
     transform classes y = Ok codes ∧
     (∀ i k, y !! i = Some k → code classes k = codes !! i) ∧
     ∀ series, mapM category series = Ok y → fit_transform series = Ok (of_codes codes)).
Proof.
  intros classes n.
  pose proof (classes_NoDup y) as Hnd. fold classes in Hnd.
  assert (∀ k i, code classes k = Some i ↔ classes !! i = Some k) as Hcode
    by (intros; by apply code_Some).
  split_and!.
  - done.
  - apply classes_elem_of.
  - intros k Hk. apply classes_elem_of, list_elem_of_lookup_1 in Hk as [i Hi].
    exists i. split; [by apply Hcode|]. by eapply lookup_lt_Some.
  - intros k k' i Hk Hk'. apply Hcode in Hk, Hk'. congruence.
  - intros i Hi. apply lookup_lt_is_Some_2 in Hi as [k Hk].
    exists k. split; [|by apply Hcode].
    by eapply classes_elem_of, list_elem_of_lookup_2.
  - intros k k' i j Hk Hk' Hij. apply Hcode in Hk, Hk'.
    by eapply (StronglySorted_lookup_lt key_lt classes i j), Hij; [apply classes_sorted|..].
  - intros y' Hy'. symmetry. by apply classes_ext.
  - destruct (transform_Ok classes y Hnd) as (codes & Hcodes & _ & Hlookup).
    { intros k. apply classes_elem_of. }
    exists codes. split_and!; [done| |].
    + intros i k Hi. destruct (Hlookup i k Hi) as (c & -> & Hc). by apply Hcode.
    + intros series Hy. by apply (fit_transform_category series y codes).
Qed.

(** C8.  A fitted ensemble has 100 trees.  For an ensemble with T trees
    and any table of numeric columns, the staged prediction sequence has
    exactly T entries; entry i (counting from 0) is the prediction vector
    of the ensemble cut to its first i + 1 trees, with one value per row of
    the table; and the list of staged test errors the script computes from
    it has one entry per stage, 100 in a run of the script.  Nothing is
    said about the errors decreasing. *)
Theorem staged_predict_entries `{Sklearn} :
  (∀ random_state X_train y_train model,
     GradientBoostingRegressor_fit random_state X_train y_train = Ok model →
     length (estimators_ model) = 100%nat) ∧
  (∀ model X Xm, to_matrix X = Ok Xm → ∃ results, staged_predict model X = Ok results) ∧
  (∀ model X results,
     staged_predict model X = Ok results →
     length results = length (estimators_ model) ∧
     ∀ i stage,
       results !! i = Some stage →
       length stage = n_rows X ∧
       predict {| init_ := init_ model;
                  learning_rate := learning_rate model;
                  estimators_ := take (S i) (estimators_ model) |} X = Ok stage) ∧
  (∀ y_test results test_errors,
     mapM (mean_squared_error y_test) results = Ok test_errors →
     length test_errors = length results) ∧
  (∀ w raw outputs, script w raw = Ok outputs → length (test_errors outputs) = 100%nat).
Proof.
  split_and!.
  - intros random_state X_train y_train model Hfit. by apply fit_Ok in Hfit as [? _].
  - intros model X Xm HXm. eexists. apply staged_predict_Ok. eauto.
  - intros model X results (Xm & HXm & ->)%staged_predict_Ok. split.
    + apply staged_length.
    + intros i stage Hstage. apply staged_lookup in Hstage as ->. split.
      * rewrite foldl_add_stage_length, (to_matrix_length X); [done..|].
        by rewrite length_replicate.
      * unfold predict. by rewrite HXm.
  - intros y_test results test_errors. apply mapM_Ok_length.
  - intros w raw outputs Hscript. unfold script in Hscript.
    apply bind_Ok in Hscript as (data & _ & Hscript).
    apply bind_Ok in Hscript as (scored & _ & Htrain).
    apply train_Ok in Htrain as (Xs & results & Hfit & _ & _ & Hresults & Herrors).
    apply mapM_Ok_length in Herrors as ->.
    apply staged_predict_Ok in Hresults as (Xm & _ & ->).
    rewrite staged_length. by apply fit_Ok in Hfit as [? _].
Qed.

Lemma zip_lookup_Some {A B} (l : list A) (k : list B) i x y :
  l !! i = Some x → k !! i = Some y → zip l k !! i = Some (x, y).
Proof.
  revert k i. induction l as [|a l IH]; intros [|b k] [|i] Hx Hy; try done.
  - by injection Hx as ->; injection Hy as ->.
  - by apply IH.
Qed.

(** C9.  On a table that has no column named [car_age], [price_per_km] or
    [odometer_fuel] (the nine projected columns have none), the Feature
    Engineer returns the same rows and the same columns, unchanged and in
    place, followed by the three derived columns, each with one cell per
    row.  In every row [car_age] is [current_year - year], [price_per_km]
    is [price / (odometer + 1)] and, the fuel code being a number,
    [odometer_fuel] is [odometer * fuel]. *)
Theorem feature_engineer_appends current_year data out :
  "car_age" ∉ column_names data →
  "price_per_km" ∉ column_names data →
  "odometer_fuel" ∉ column_names data →
  feature_engineer current_year data = Ok out →
  ∃ year price odometer fuel car_age price_per_km odometer_fuel,
    getitem data "year" = Ok year ∧
    getitem data "price" = Ok price ∧
    getitem data "odometer" = Ok odometer ∧
    getitem data "fuel" = Ok fuel ∧
    index out = index data ∧
    columns out = columns data ++ [("car_age", car_age);
                                   ("price_per_km", price_per_km);
                                   ("odometer_fuel", odometer_fuel)] ∧
    length car_age = n_rows data ∧
    length price_per_km = n_rows data ∧
    length odometer_fuel = n_rows data ∧
    (∀ i y, year !! i = Some y → car_age !! i = car_age_formula current_year y) ∧
    (∀ i p o, price !! i = Some p → odometer !! i = Some o →
       price_per_km !! i = price_per_km_formula p o) ∧
    (∀ i o f, odometer !! i = Some o → fuel !! i = Some f → is_number f →
       odometer_fuel !! i = odometer_fuel_formula o f).
Proof.
  intros Hage Hppk Hof H. unfold feature_engineer in H.
  apply bind_Ok in H as (year & Hyear & H).
  apply bind_Ok in H as (car_age & Hcar_age & H).
  apply bind_Ok in H as (data1 & Hdata1 & H).
  apply bind_Ok in H as (price & Hprice & H).
  apply bind_Ok in H as (odometer & Hodometer & H).
  apply bind_Ok in H as (odometer1 & Hodometer1 & H).
  apply bind_Ok in H as (price_per_km & Hprice_per_km & H).
  apply bind_Ok in H as (data2 & Hdata2 & H).
  apply bind_Ok in H as (odometer' & Hodometer' & H).
  apply bind_Ok in H as (fuel & Hfuel & H).
  apply bind_Ok in H as (odometer_fuel & Hodometer_fuel & H).
  rewrite (getitem_setitem_ne _ _ _ _ _ Hdata1) in Hprice by done.
  rewrite (getitem_setitem_ne _ _ _ _ _ Hdata1) in Hodometer by done.
  rewrite (getitem_setitem_ne _ _ _ _ _ Hdata2),
    (getitem_setitem_ne _ _ _ _ _ Hdata1) in Hodometer' by done.
  rewrite (getitem_setitem_ne _ _ _ _ _ Hdata2),
    (getitem_setitem_ne _ _ _ _ _ Hdata1) in Hfuel by done.
  assert (odometer' = odometer) as -> by congruence.
  pose proof (setitem_Ok _ _ _ _ Hdata1) as [Lage _].
  pose proof (setitem_Ok _ _ _ _ Hdata2) as [Lppk _].
  pose proof (setitem_Ok _ _ _ _ H) as [Lof _].
  assert (n_rows data1 = n_rows data) as N1
    by (unfold n_rows; by rewrite (setitem_index _ _ _ _ Hdata1)).
  assert (n_rows data2 = n_rows data) as N2
    by (unfold n_rows in *; by rewrite (setitem_index _ _ _ _ Hdata2)).
  apply setitem_fresh in Hdata1 as ->; [|done].
  apply setitem_fresh in Hdata2 as ->.
  2:{ unfold column_names. simpl. rewrite fmap_app, elem_of_app.
      intros [?|[=]%list_elem_of_singleton]. by apply Hppk. }
  apply setitem_fresh in H as ->.
  2:{ unfold column_names. simpl. rewrite !fmap_app, !elem_of_app.
      intros [[?|[=]%list_elem_of_singleton]|[=]%list_elem_of_singleton]. by apply Hof. }
  exists year, price, odometer, fuel, car_age, price_per_km, odometer_fuel.
  split_and!; try done; try congruence.
  - simpl. by rewrite <- !app_assoc.
  - intros i y Hy.
    destruct (mapM_Ok_lookup _ _ _ _ _ Hcar_age Hy) as (cell & Hcell & ->).
    destruct y; simplify_eq/=; done.
  - intros i p o Hp Ho.
    destruct (mapM_Ok_lookup _ _ _ _ _ Hodometer1 Ho) as (o1 & Ho1 & Hi1).
    destruct (mapM_Ok_lookup _ _ _ _ _ Hprice_per_km (zip_lookup_Some _ _ _ _ _ Hp Hi1))
      as (cell & Hcell & ->).
    assert (Num.of_Z 1 = 1%float) as H1 by (vm_compute; reflexivity).
    clear -Ho1 Hcell H1.
    destruct o as [o|o|o]; simpl in Ho1; [| |discriminate Ho1];
      injection Ho1 as <-;
      (destruct p as [p|p|p]; unfold truediv in Hcell; simpl in Hcell;
       [| |discriminate Hcell]; injection Hcell as <-; simpl; by rewrite ?H1).
  - intros i o f Ho Hf Nf.
    destruct (mapM_Ok_lookup _ _ _ _ _ Hodometer_fuel (zip_lookup_Some _ _ _ _ _ Ho Hf))
      as (cell & Hcell & ->).
    destruct (mapM_Ok_lookup _ _ _ _ _ Hodometer1 Ho) as (o1 & Ho1 & _).
    clear -Ho1 Hcell Nf.
    destruct o as [o|o|o]; simpl in Ho1; [| |discriminate Ho1];
      (destruct f as [f|f|f]; [| |done]; simpl in Hcell;
       injection Hcell as <-; reflexivity).
Qed.

Lemma feature_engineer_appends_witness :
  ∃ before out car_age price_per_km odometer_fuel,
    encode cars10 = Ok before ∧
    feature_engineer 2026 before = Ok out ∧
    index out = index before ∧
    columns out = columns before ++ [("car_age", car_age);
                                     ("price_per_km", price_per_km);
                                     ("odometer_fuel", odometer_fuel)] ∧
    car_age = VFloat <$> [14; 11; 16; 8; 15; 7; 17; 12; 6; 18]%float ∧
    price_per_km !! 0%nat = Some (VFloat (4500 / (50000 + 1))) ∧
    price_per_km !! 9%nat = Some (VFloat (6400 / (150000 + 1))) ∧
    odometer_fuel
      = VFloat <$> [100000; 100000; 0; 150000; 100000; 0; 100000; 100000; 50000; 300000]%float.
Proof.
  eassert (encode cars10 = Ok _) as Hbefore by (vm_compute; reflexivity).
  lazymatch type of Hbefore with
  | _ = Ok ?before =>
      eassert (feature_engineer 2026 before = Ok _) as Hout by (vm_compute; reflexivity)
  end.
  edestruct (feature_engineer_appends 2026)
    as (year & price & odometer & fuel & car_age & price_per_km & odometer_fuel &
        _ & _ & _ & _ & Hindex & Hcolumns & _);
    [| | |exact Hout|]; [compute_done..|].
  eexists _, _, car_age, price_per_km, odometer_fuel.
  split; [exact Hbefore|]. split; [exact Hout|]. split; [exact Hindex|].
  split; [exact Hcolumns|].
  apply (f_equal (drop 9)) in Hcolumns. vm_compute in Hcolumns.
  injection Hcolumns as <- <- <-. by split_and!.
Defined.

(** C10.  On a table with the nine projected columns the Outlier Filter
    returns a table with the same nine columns in the same order: the
    temporary [odometer_zscore] column is added and dropped inside the
    stage.  The table that reaches the Feature Selector has the nine
    projected and the three derived columns, and every score and every
    selected feature belongs to one of them: the standardized score is not
    a model feature. *)
Theorem outlier_filter_preserves_columns `{Sklearn} :
  (∀ data out,
     column_names data = projected_columns → outlier_filter data = Ok out →
     column_names out = projected_columns ∧ "odometer_zscore" ∉ column_names out) ∧
  (∀ w raw data,
     prepare w raw = Ok data →
     column_names data = projected_columns ++ derived_columns ∧
     "odometer_zscore" ∉ column_names data) ∧
  (∀ w raw data X y importance_dict,
     prepare w raw = Ok data → score_features w data = Ok (X, y, importance_dict) →
     ("odometer_zscore" ∉ column_names X) ∧
     ("odometer_zscore" ∉ importance_dict.*1) ∧
     ("odometer_zscore" ∉ select_features importance_dict)).
Proof.
  assert (∀ w raw data, prepare w raw = Ok data →
                        "odometer_zscore" ∉ column_names data) as Hprepared.
  { intros w raw data ->%prepare_names. compute_done. }
  split_and!.
  - intros data out Hnames Hout.
    apply outlier_filter_Ok in Hout as (odometer & xs & _ & _ & _ & ->);
      [|by apply zscore_fresh_in_projection].
    rewrite select_rows_names. split; [done|]. by apply zscore_fresh_in_projection.
  - intros w raw data Hdata. split; [by apply prepare_names in Hdata|by eapply Hprepared].
  - intros w raw data X y d Hdata Hscore.
    pose proof (Hprepared _ _ _ Hdata) as Hfresh.
    unfold score_features in Hscore.
    apply bind_Ok in Hscore as (X0 & HX & Hscore).
    apply bind_Ok in Hscore as (y0 & _ & Hscore).
    apply bind_Ok in Hscore as (Xm & _ & Hscore).
    apply bind_Ok in Hscore as (ym & _ & Hscore).
    apply bind_Ok in Hscore as (importance & _ & [= <- <- <-]).
    assert ("odometer_zscore" ∉ column_names X0) as HX0.
    { intros Hin. by apply Hfresh, (drop_columns_names _ _ _ _ HX). }
    assert ("odometer_zscore" ∉ (dict (zip (column_names X0) importance)).*1) as Hdict.
    { intros Hin%dict_keys. apply HX0.
      apply list_elem_of_fmap in Hin as ([n s] & -> & Hin). by apply elem_of_zip_l in Hin. }
    split_and!; [done..|]. by intros Hin%select_features_subseteq.
Qed.

Lemma outlier_filter_preserves_columns_witness :
  ∃ out, outlier_filter cars10 = Ok out ∧
    column_names out = projected_columns ∧ "odometer_zscore" ∉ column_names out.
Proof.
  eexists. split; [by vm_compute|].
  eapply (proj1 (outlier_filter_preserves_columns (H := stub_sklearn)) cars10);
    [reflexivity|by vm_compute].
Defined.

(** * Further properties of the code *)

(** ** Cleaning stage: the price filter and the projection *)

Lemma price_mask price above below :
  mapM (gt_int 500) price = Ok above →
  mapM (lt_int 80000) price = Ok below →
  zip_with andb above below = price_in_range <$> price ∧ Forall is_number price.
Proof.
  revert above below. induction price as [|v price IH]; intros above below Ha Hb.
  - injection Ha as <-. by injection Hb as <-.
  - apply mapM_Ok_cons in Ha as (a & above' & Hv & Ha & ->).
    apply mapM_Ok_cons in Hb as (b & below' & Hv' & Hb & ->).
    destruct (IH _ _ Ha Hb) as [Hmask Hnum]. split.
    + simpl. rewrite Hmask. f_equal.
      destruct v; simpl in *; [injection Hv as <-; by injection Hv' as <-..|done].
    + constructor; [by destruct v|done].
Qed.

Lemma compress_filter {A} (f : A → bool) (l : list A) :
  compress (f <$> l) l = filter (fun x => f x = true) l.
Proof.
  induction l as [|x l IH]; [done|]. rewrite fmap_cons. cbn [compress]. rewrite IH.
  destruct (f x) eqn:Hx.
  - by rewrite filter_cons_True.
  - rewrite filter_cons_False; [done|]. by rewrite Hx.
Qed.

Lemma compress_length_filter {A B} (f : A → bool) (l : list A) (k : list B) :
  length k = length l →
  length (compress (f <$> l) k) = length (filter (fun x => f x = true) l).
Proof.
  revert k. induction l as [|x l IH]; intros [|y k] Hlen; try done.
  injection Hlen as Hlen. rewrite fmap_cons. cbn [compress]. specialize (IH k Hlen).
  destruct (f x) eqn:Hx.
  - rewrite filter_cons_True by done. simpl. by rewrite IH.
  - rewrite filter_cons_False; [done|]. by rewrite Hx.
Qed.

Lemma price_filter_select data out :
  price_filter data = Ok out →
  ∃ price,
    getitem data "price" = Ok price ∧ Forall is_number price ∧
    length price = n_rows data ∧ out = select_rows (price_in_range <$> price) data.
Proof.
  intros (price & above & below & Hprice & Ha & Hb & Hlen & ->)%price_filter_Ok.
  destruct (price_mask price above below Ha Hb) as [Hmask Hnum].
  rewrite Hmask in *. exists price. split_and!; try done. by rewrite length_fmap in Hlen.
Qed.

(** X1.  The price filter keeps exactly the rows whose price is a number
    strictly between 500 and 80000, in their order: the prices 500 and
    80000 themselves and a missing price (NaN) are dropped.  A table on
    which it succeeds has only numbers in its price column. *)
Theorem price_filter_keeps_range data out :
  price_filter data = Ok out →
  ∃ price,
    getitem data "price" = Ok price ∧
    Forall is_number price ∧
    out = select_rows (price_in_range <$> price) data ∧
    getitem out "price" = Ok (filter (fun v => price_in_range v = true) price) ∧
    n_rows out = length (filter (fun v => price_in_range v = true) price) ∧
    price_in_range (VInt 500) = false ∧ price_in_range (VInt 80000) = false ∧
    price_in_range (VFloat PrimFloat.nan) = false.
Proof.
  intros (price & Hprice & Hnum & Hlen & ->)%price_filter_select.
  exists price. split_and!; try done.
  - by rewrite getitem_select_rows, Hprice, <- compress_filter.
  - unfold n_rows at 1. simpl. by apply compress_length_filter.
Qed.

Lemma price_filter_keeps_range_witness :
  ∃ out, price_filter cars10 = Ok out ∧ n_rows out = 10%nat.
Proof.
  eexists. split; [vm_compute; reflexivity|].
  edestruct (price_filter_keeps_range cars10) as (price & Hprice & _ & _ & _ & Hn & _);
    [vm_compute; reflexivity|].
  rewrite Hn. injection Hprice as <-. by vm_compute.
Defined.

Lemma getitem_Raise df name e : getitem df name = Raise e → e = KeyError name ∧ name ∉ column_names df.
Proof.
  unfold getitem. destruct (dict_get name (columns df)) eqn:Hget; [done|].
  intros [= <-]. split; [done|]. by apply dict_get_None.
Qed.

Lemma getitem_is_Ok df name : name ∈ column_names df → ∃ col, getitem df name = Ok col.
Proof.
  intros Hin. unfold getitem. destruct (dict_get name (columns df)) eqn:Hget; [by eexists|].
  by apply dict_get_None in Hget.
Qed.

Lemma getitem_columns_getitem df names p n :
  getitem_columns df names = Ok p → n ∈ names → getitem p n = getitem df n.
Proof.
  intros (cols & Hcols & ->)%getitem_columns_Ok. unfold getitem at 1. simpl.
  revert cols Hcols. induction names as [|n' names IH]; intros cols Hcols Hin.
  - by apply elem_of_nil in Hin.
  - apply mapM_Ok_cons in Hcols as ([n1 c1] & k & (c' & Hc' & [= <- <-])%bind_Ok & Hk & ->).
    simpl. destruct (String.eqb_spec n' n) as [->|Hne]; [by rewrite Hc'|].
    apply elem_of_cons in Hin as [->|Hin]; [done|]. by apply IH.
Qed.

Lemma getitem_columns_is_Ok df names :
  (∀ n, n ∈ names → n ∈ column_names df) → ∃ p, getitem_columns df names = Ok p.
Proof.
  intros Hall.
  assert (∃ cols, mapM (fun n => c ← getitem df n; Ok (n, c)) names = Ok cols) as [cols Hcols].
  { induction names as [|n names IH]; [by exists []|].
    destruct IH as [k Hk]; [intros n' Hn'; apply Hall; by right|].
    destruct (getitem_is_Ok df n) as [c Hc]; [apply Hall; left|].
    exists ((n, c) :: k). apply mapM_Ok_cons. exists (n, c), k. by rewrite Hc. }
  eexists. apply getitem_columns_Ok. eauto.
Qed.

Lemma getitem_columns_Raise df names e :
  getitem_columns df names = Raise e →
  ∃ key, e = KeyError key ∧ key ∈ names ∧ key ∉ column_names df.
Proof.
  unfold getitem_columns.
  destruct (mapM _ names) as [cols|e'] eqn:Hcols; [done|]. intros [= ->].
  induction names as [|n names IH]; [done|]. cbn [mapM] in Hcols.
  destruct (getitem df n) as [c|e'] eqn:Hc.
  - rewrite bind_Ok_l in Hcols.
    destruct (mapM _ names) as [k|e'] eqn:Hk; [done|]. injection Hcols as ->.
    destruct IH as (key & -> & Hin & Hout); [done|]. exists key. split_and!; [done| |done].
    by right.
  - injection Hcols as ->. apply getitem_Raise in Hc as [-> Hout].
    exists n. split_and!; [done| |done]. left.
Qed.

(** X2.  The projection [data[[...]]] onto the nine columns returns them
    in the listed order with their cells and the row labels unchanged,
    whatever other columns the table has.  It succeeds when the table has
    the nine columns, and a table that lacks one of them makes it, the
    Cleaning Stage and the whole script end in a [KeyError] for a missing
    column. *)
Theorem projection_columns `{Sklearn} data :
  (∀ out, getitem_columns data projected_columns = Ok out →
     column_names out = projected_columns ∧ index out = index data ∧
     ∀ n, n ∈ projected_columns → getitem out n = getitem data n) ∧
  ((∀ n, n ∈ projected_columns → n ∈ column_names data) →
     ∃ out, getitem_columns data projected_columns = Ok out) ∧
  (∀ n, n ∈ projected_columns → n ∉ column_names data →
     ∃ key, getitem_columns data projected_columns = Raise (KeyError key) ∧
            key ∈ projected_columns ∧ key ∉ column_names data) ∧
  ("price" ∉ column_names data →
     cleaning data = Raise (KeyError "price") ∧
     ∀ w, script w data = Raise (KeyError "price")) ∧
  (∀ n filtered,
     n ∈ projected_columns → n ∉ column_names data → price_filter data = Ok filtered →
     ∃ key, cleaning data = Raise (KeyError key) ∧ (∀ w, script w data = Raise (KeyError key)) ∧
            key ∈ projected_columns ∧ key ∉ column_names data).
Proof.
  split_and!.
  - intros out Hout. split_and!.
    + by apply getitem_columns_names in Hout.
    + by apply getitem_columns_Ok in Hout as (cols & _ & ->).
    + intros n Hn. by apply getitem_columns_getitem with projected_columns.
  - apply getitem_columns_is_Ok.
  - intros n Hn Hmissing.
    destruct (getitem_columns data projected_columns) as [out|e] eqn:Hout.
    + destruct Hmissing. apply (getitem_elem_of data n (default [] (dict_get n (columns out)))).
      rewrite <- (getitem_columns_getitem _ _ _ _ Hout Hn).
      assert (n ∈ column_names out) as [c Hc]%getitem_is_Ok
        by (by rewrite (getitem_columns_names _ _ _ Hout)).
      rewrite Hc. unfold getitem in Hc. by destruct (dict_get n (columns out)).
    + apply getitem_columns_Raise in Hout as (key & -> & ? & ?). by exists key.
  - intros Hprice%dict_get_None.
    assert (cleaning data = Raise (KeyError "price")) as Hcleaning.
    { unfold cleaning, price_filter, getitem. by rewrite Hprice. }
    split; [done|]. intros w. unfold script, prepare. by rewrite Hcleaning.
  - intros n filtered Hn Hmissing Hfiltered.
    pose proof Hfiltered as (price & _ & _ & _ & ->)%price_filter_select.
    destruct (getitem_columns (select_rows (price_in_range <$> price) data) projected_columns)
      as [out|e] eqn:Hout.
    + destruct Hmissing. rewrite <- (select_rows_names (price_in_range <$> price)).
      apply (getitem_elem_of _ n (default [] (dict_get n (columns out)))).
      rewrite <- (getitem_columns_getitem _ _ _ _ Hout Hn).
      assert (n ∈ column_names out) as [c Hc]%getitem_is_Ok
        by (by rewrite (getitem_columns_names _ _ _ Hout)).
      rewrite Hc. unfold getitem in Hc. by destruct (dict_get n (columns out)).
    + pose proof Hout as (key & -> & Hin & Hkey)%getitem_columns_Raise.
      rewrite select_rows_names in Hkey.
      assert (cleaning data = Raise (KeyError key)) as Hcleaning.
      { unfold cleaning. by rewrite Hfiltered, bind_Ok_l, Hout. }
      exists key. split_and!; [done| |done..].
      intros w. unfold script, prepare. by rewrite Hcleaning.
Qed.

(** ** The frame invariant: one cell per row in every column, no name twice *)

Lemma take_rows_n_rows df locs out : take_rows df locs = Ok out → n_rows out = length locs.
Proof.
  intros (idx & cols & Hidx & _ & ->)%take_rows_Ok. unfold n_rows. simpl.
  by apply mapM_Ok_length in Hidx.
Qed.

Lemma take_rows_wf df locs out : wf df → take_rows df locs = Ok out → wf out.
Proof.
  intros [_ Hnd] Hout. split.
  - rewrite (take_rows_n_rows _ _ _ Hout).
    apply take_rows_Ok in Hout as (idx & cols & _ & Hcols & ->). simpl.
    revert cols Hcols. induction (columns df) as [|[n c] l IH]; intros cols Hcols.
    + injection Hcols as <-. constructor.
    + apply mapM_Ok_cons in Hcols as ([n' c'] & k & (t & Ht & [= <- <-])%bind_Ok & Hk & ->).
      constructor; [|by apply IH]. simpl. by apply mapM_Ok_length in Ht.
  - by rewrite (take_rows_names _ _ _ Hout).
Qed.

Lemma select_rows_wf mask df : wf df → length mask = n_rows df → wf (select_rows mask df).
Proof.
  intros Hwf Hlen. by apply (take_rows_wf df (true_positions mask)), select_rows_take_rows.
Qed.

Lemma dict_set_Forall {V} (P : string * V → Prop) name (col : V) cols :
  Forall P cols → P (name, col) → Forall P (dict_set name col cols).
Proof.
  intros Hall Hnew. induction Hall as [|[n c] cols Hc Hcols IH]; simpl.
  - by constructor.
  - destruct (String.eqb n name); by constructor.
Qed.

Lemma dict_set_NoDup {V} name (col : V) cols : NoDup cols.*1 → NoDup (dict_set name col cols).*1.
Proof.
  intros Hnd. destruct (decide (name ∈ cols.*1)) as [Hin|Hout].
  - by rewrite dict_set_names_existing.
  - rewrite dict_set_names_fresh by done. apply NoDup_app. split_and!; [done| |apply NoDup_singleton].
    by intros n Hn ->%list_elem_of_singleton.
Qed.

Lemma setitem_wf df name col out : wf df → setitem df name col = Ok out → wf out.
Proof.
  intros [Hlen Hnd] [Hcol ->]%setitem_Ok. split.
  - by apply dict_set_Forall.
  - by apply dict_set_NoDup.
Qed.

Lemma setitem_each_wf data cols out : wf data → setitem_each data cols = Ok out → wf out.
Proof.
  revert data. induction cols as [|[name col] cols IH]; intros data Hwf H; simpl in H.
  - by injection H as <-.
  - apply bind_Ok in H as (data1 & Hdata1 & H). eapply IH; [|done]. by eapply setitem_wf.
Qed.

Lemma impute_wf `{Sklearn} data out : wf data → impute data = Ok out → wf out.
Proof.
  unfold impute. intros Hwf H0.
  apply bind_Ok in H0 as (sub & _ & H0).
  apply bind_Ok in H0 as (X & _ & H0).
  apply bind_Ok in H0 as (X' & _ & H0).
  unfold setitem_columns in H0.
  destruct (negb (forallb _ X')); [done|].
  destruct (negb (length X' =? n_rows data)%nat); [done|].
  by eapply setitem_each_wf.
Qed.

Lemma encode_columns_wf cols data out : wf data → encode_columns cols data = Ok out → wf out.
Proof.
  revert data. induction cols as [|col cols IH]; intros data Hwf H; simpl in H.
  - by injection H as <-.
  - apply bind_Ok in H as (series & _ & H).
    apply bind_Ok in H as (codes & _ & H).
    apply bind_Ok in H as (data1 & Hdata1 & H).
    eapply IH; [|done]. by eapply setitem_wf.
Qed.

Lemma feature_engineer_wf current_year data out :
  wf data → feature_engineer current_year data = Ok out → wf out.
Proof.
  unfold feature_engineer. intros Hwf H.
  apply bind_Ok in H as (year & _ & H).
  apply bind_Ok in H as (car_age & _ & H).
  apply bind_Ok in H as (data1 & Hdata1%setitem_wf & H); [|done].
  apply bind_Ok in H as (price & _ & H).
  apply bind_Ok in H as (odometer & _ & H).
  apply bind_Ok in H as (odometer1 & _ & H).
  apply bind_Ok in H as (price_per_km & _ & H).
  apply bind_Ok in H as (data2 & Hdata2%setitem_wf & H); [|done].
  apply bind_Ok in H as (odometer' & _ & H).
  apply bind_Ok in H as (fuel & _ & H).
  apply bind_Ok in H as (odometer_fuel & _ & H).
  by eapply setitem_wf.
Qed.

Lemma drop_columns_Ok df names out :
  drop_columns df names = Ok out →
  (∀ n, n ∈ names → n ∈ column_names df) ∧
  out = {| index := index df; columns := filter (fun c => c.1 ∉ names) (columns df) |}.
Proof.
  unfold drop_columns. destruct (filter _ names) as [|n ns] eqn:Hmissing; [|done].
  intros [= <-]. split; [|done]. intros n Hn.
  destruct (decide (n ∈ column_names df)) as [|Hout]; [done|].
  assert (n ∈ filter (fun n => n ∉ column_names df) names) as Hin
    by (by apply list_elem_of_filter).
  rewrite Hmissing in Hin. by apply elem_of_nil in Hin.
Qed.

Lemma drop_columns_wf df names out : wf df → drop_columns df names = Ok out → wf out.
Proof.
  intros [Hlen Hnd] [_ ->]%drop_columns_Ok. split.
  - apply Forall_forall. intros c [_ Hc]%list_elem_of_filter.
    rewrite Forall_forall in Hlen. exact (Hlen c Hc).
  - unfold column_names. simpl. apply (sublist_NoDup _ (columns df).*1); [done|].
    apply fmap_sublist, sublist_filter.
Qed.

(** ** Cleaning stage: the subsample *)

Lemma choice_bounds random_state n size locs :
  choice random_state n size = Ok locs →
  0 ≤ random_state < 2 ^ 32 ∧ 0 ≤ size ≤ Z.of_nat n.
Proof.
  unfold choice. intros H.
  destruct (Z.ltb_spec random_state 0); [done|].
  destruct (Z.leb_spec (2 ^ 32) random_state); [done|]. simpl in H.
  destruct (Z.ltb_spec (Z.of_nat n) size); [done|].
  destruct (Z.ltb_spec size 0); [done|]. lia.
Qed.

Lemma wf_no_rows df : wf df → n_rows df = 0%nat → take_rows df [] = Ok df.
Proof.
  intros [Hlen _] Hn. apply take_rows_Ok. exists [], (columns df).
  destruct df as [idx cols]. unfold n_rows in *. simpl in *.
  rewrite Hn in Hlen. apply nil_length_inv in Hn as ->. split_and!; [done| |done].
  induction Hlen as [|[n c] cols Hc _ IH]; [done|].
  apply mapM_Ok_cons. exists (n, c), cols. split_and!; [|done..].
  simpl in *. by apply nil_length_inv in Hc as ->.
Qed.

(** X3.  [data.sample(frac, random_state)] on a well-formed table returns
    [round(frac * n)] of its [n] rows, each taken from a different
    position, under the same column names, and the result is well formed;
    distinct row labels stay distinct.  A table without rows is returned
    as it is by [sample(frac=0.3, random_state=42)]. *)
Theorem sample_rows frac random_state data :
  wf data →
  (∀ out, sample frac random_state data = Ok out →
     ∃ size locs,
       Num.round (frac * Num.of_nat (n_rows data)) = Some size ∧
       0 ≤ size ≤ Z.of_nat (n_rows data) ∧
       n_rows out = Z.to_nat size ∧
       NoDup locs ∧ Forall (fun i => (i < n_rows data)%nat) locs ∧
       take_rows data locs = Ok out ∧
       wf out ∧ column_names out = column_names data ∧
       (NoDup (index data) → NoDup (index out))) ∧
  (n_rows data = 0%nat → sample 0.3 42 data = Ok data).
Proof.
  intros Hwf. split.
  - intros out H. unfold sample in H.
    apply bind_Ok in H as (size & Hsize%from_option_Ok & H).
    apply bind_Ok in H as (locs & Hlocs & H).
    pose proof (choice_bounds _ _ _ _ Hlocs) as [_ Hbounds].
    apply choice_Ok in Hlocs as (Hnd & Hlt & Hlen).
    exists size, locs. split_and!; try done; try lia.
    + by rewrite (take_rows_n_rows _ _ _ H).
    + by eapply take_rows_wf.
    + by eapply take_rows_names.
    + intros Hidx. apply take_rows_Ok in H as (idx & cols & Hidx' & _ & ->). simpl.
      by eapply take_list_NoDup.
  - intros Hn. unfold sample. rewrite Hn.
    change (Num.round (0.3 * Num.of_nat 0)) with (Some 0).
    cbn [from_option]. rewrite bind_Ok_l.
    assert (choice 42 0 0 = Ok []) as -> by (by vm_compute).
    rewrite bind_Ok_l. by apply wf_no_rows.
Qed.

Lemma sample_rows_witness :
  ∃ out, sample 0.3 42 cars10 = Ok out ∧ n_rows out = 3%nat ∧ wf out.
Proof.
  destruct (sample_rows 0.3 42 cars10 wf_cars10) as [Hsample _].
  eexists. split; [vm_compute; reflexivity|].
  edestruct Hsample as (size & locs & Hsize & _ & Hn & _ & _ & _ & Hwf & _);
    [vm_compute; reflexivity|].
  split; [|exact Hwf]. rewrite Hn.
  assert (Some size = Some 3) as [= ->]; [|done]. rewrite <- Hsize. by vm_compute.
Defined.

(** ** The generator: 32-bit words *)

Lemma word32_log2 a : word32 a → Z.log2 a < 32.
Proof.
  intros [Ha Ha']. destruct (Z.eq_dec a 0) as [->|Hne]; [done|].
  apply Z.log2_lt_pow2; lia.
Qed.

Lemma log2_word32 a : 0 ≤ a → Z.log2 a < 32 → word32 a.
Proof.
  intros Ha Hlog. split; [done|]. destruct (Z.eq_dec a 0) as [->|Hne]; [done|].
  apply Z.log2_lt_pow2; lia.
Qed.

Lemma word32_lxor a b : word32 a → word32 b → word32 (Z.lxor a b).
Proof.
  intros Ha Hb. pose proof (word32_log2 a Ha). pose proof (word32_log2 b Hb).
  destruct Ha as [Ha _], Hb as [Hb _]. apply log2_word32; [by apply Z.lxor_nonneg|].
  pose proof (Z.log2_lxor a b Ha Hb). lia.
Qed.

Lemma word32_lor a b : word32 a → word32 b → word32 (Z.lor a b).
Proof.
  intros Ha Hb. pose proof (word32_log2 a Ha). pose proof (word32_log2 b Hb).
  destruct Ha as [Ha _], Hb as [Hb _]. apply log2_word32; [by apply Z.lor_nonneg|].
  rewrite Z.log2_lor by done. lia.
Qed.

Lemma word32_land a b : word32 a → 0 ≤ b → word32 (Z.land a b).
Proof.
  intros Ha Hb. pose proof (word32_log2 a Ha).
  destruct Ha as [Ha _]. apply log2_word32; [apply Z.land_nonneg; by left|].
  pose proof (Z.log2_land a b Ha Hb). lia.
Qed.

Lemma word32_shiftr a n : word32 a → 0 ≤ n → word32 (Z.shiftr a n).
Proof.
  intros Ha Hn. pose proof (word32_log2 a Ha). destruct Ha as [Ha _].
  apply log2_word32; [by apply Z.shiftr_nonneg|].
  destruct (Z.eq_dec a 0) as [->|Hne]; [by rewrite Z.shiftr_0_l|].
  rewrite Z.log2_shiftr by lia. lia.
Qed.

Lemma word32_u32 x : word32 (MT19937.u32 x).
Proof.
  unfold MT19937.u32, word32. change 0xffffffff with (Z.ones 32).
  rewrite Z.land_ones by done. by apply Z.mod_pos_bound.
Qed.

Lemma word32_nth (key : list Z) i : Forall word32 key → word32 (nth i key 0).
Proof.
  intros Hkey. revert i. induction Hkey as [|z key Hz _ IH]; intros [|i]; simpl; try done.
Qed.

Lemma seed_loop_words n pos seed :
  word32 seed →
  Forall word32 (MT19937.seed_loop n pos seed) ∧ length (MT19937.seed_loop n pos seed) = n.
Proof.
  revert pos seed. induction n as [|n IH]; intros pos seed Hseed; simpl; [done|].
  destruct (IH (pos + 1) (MT19937.u32 (1812433253 * Z.lxor seed (Z.shiftr seed 30) + pos + 1)))
    as [Hwords Hlen]; [apply word32_u32|].
  split; [by constructor|by rewrite Hlen].
Qed.

Lemma gen_step_words key i :
  Forall word32 key → Forall word32 (MT19937.gen_step key i) ∧
  length (MT19937.gen_step key i) = length key.
Proof.
  intros Hkey. unfold MT19937.gen_step. split; [|by rewrite length_insert].
  apply Forall_insert; [done|].
  assert (word32 (Z.lor (Z.land (nth i key 0) MT19937.UPPER_MASK)
                        (Z.land (nth ((i + 1) mod 624) key 0) MT19937.LOWER_MASK))) as Hy.
  { apply word32_lor; (apply word32_land; [by apply word32_nth|done]). }
  apply word32_lxor.
  - apply word32_lxor; [by apply word32_nth|by apply word32_shiftr].
  - by destruct (Z.odd _).
Qed.

Lemma mt19937_gen_ok st : state_ok st → state_ok (MT19937.mt19937_gen st).
Proof.
  intros (Hwords & Hlen & _). unfold MT19937.mt19937_gen, state_ok.
  cbn [MT19937.key MT19937.pos].
  assert (∀ l key, Forall word32 key →
            Forall word32 (foldl MT19937.gen_step key l) ∧
            length (foldl MT19937.gen_step key l) = length key) as Hfold.
  { induction l as [|i l IH]; intros key Hkey; [done|]. simpl.
    destruct (gen_step_words key i Hkey) as [Hkey' Hlen'].
    destruct (IH _ Hkey') as [? Hlen'']. split; [done|]. by rewrite Hlen'', Hlen'. }
  destruct (Hfold (seq 0 MT19937.RK_STATE_LEN) _ Hwords) as [Hwords' Hlen'].
  split_and!; [exact Hwords'|by rewrite Hlen'|lia].
Qed.

Lemma word32_temper y : word32 y → word32 (MT19937.temper y).
Proof.
  intros Hy. unfold MT19937.temper. cbv zeta.
  assert (∀ a n m, word32 a → 0 ≤ m →
            word32 (Z.lxor a (Z.land (MT19937.u32 (Z.shiftl a n)) m))) as Hstep.
  { intros a n m Ha Hm. apply word32_lxor; [done|].
    apply word32_land; [apply word32_u32|done]. }
  assert (word32 (Z.lxor y (Z.shiftr y 11))) as H1
    by (apply word32_lxor; [done|by apply word32_shiftr]).
  pose proof (Hstep _ 7 0x9d2c5680 H1 ltac:(done)) as H2.
  pose proof (Hstep _ 15 0xefc60000 H2 ltac:(done)) as H3.
  apply word32_lxor; [exact H3|]. apply word32_shiftr; [exact H3|done].
Qed.

Lemma mt19937_seed_ok seed : state_ok (MT19937.mt19937_seed seed).
Proof.
  unfold MT19937.mt19937_seed, state_ok. cbn [MT19937.key MT19937.pos].
  destruct (seed_loop_words MT19937.RK_STATE_LEN 0 (MT19937.u32 seed)) as [Hwords Hlen];
    [apply word32_u32|]. split_and!; [exact Hwords|exact Hlen|]. unfold MT19937.RK_STATE_LEN. lia.
Qed.

Lemma next_uint32_ok st :
  state_ok st →
  word32 (MT19937.next_uint32 st).1 ∧ state_ok (MT19937.next_uint32 st).2 ∧
  (1 ≤ MT19937.pos (MT19937.next_uint32 st).2 ≤ 624)%nat.
Proof.
  intros Hst. unfold MT19937.next_uint32.
  destruct (Nat.eqb_spec (MT19937.pos st) MT19937.RK_STATE_LEN) as [Hpos|Hpos].
  - pose proof (mt19937_gen_ok st Hst) as (Hwords & Hlen & _).
    assert (MT19937.pos (MT19937.mt19937_gen st) = 0%nat) as Hzero by reflexivity.
    revert Hwords Hlen Hzero. generalize (MT19937.mt19937_gen st).
    intros st1 Hwords Hlen Hzero.
    unfold state_ok. cbn [fst snd MT19937.key MT19937.pos].
    split_and!; [apply word32_temper, word32_nth, Hwords|exact Hwords|exact Hlen|lia..].
  - destruct Hst as (Hwords & Hlen & Hle). unfold MT19937.RK_STATE_LEN in Hpos.
    unfold state_ok. cbn [fst snd MT19937.key MT19937.pos].
    split_and!; [apply word32_temper, word32_nth, Hwords|exact Hwords|exact Hlen|lia..].
Qed.

(** X4.  The generator works on 32-bit words.  A state seeded with any
    integer holds 624 words below 2^32 and a position within them;
    regenerating the key and drawing a word keep this, the word drawn is
    below 2^32, and the position after a draw is between 1 and 624, so a
    draw never reads outside the key. *)
Theorem mt19937_words :
  (∀ seed, state_ok (MT19937.mt19937_seed seed)) ∧
  (∀ st, state_ok st → state_ok (MT19937.mt19937_gen st)) ∧
  (∀ st, state_ok st →
     word32 (MT19937.next_uint32 st).1 ∧ state_ok (MT19937.next_uint32 st).2 ∧
     (1 ≤ MT19937.pos (MT19937.next_uint32 st).2 ≤ 624)%nat).
Proof.
  split_and!; [apply mt19937_seed_ok|apply mt19937_gen_ok|apply next_uint32_ok].
Qed.

(** ** The generator: bounded draws and permutations *)

Lemma smear_step max w m :
  0 ≤ w →
  (∀ i, 0 ≤ i → Z.testbit m i = true ↔ ∃ d, 0 ≤ d < w ∧ Z.testbit max (i + d) = true) →
  ∀ i, 0 ≤ i →
    Z.testbit (Z.lor m (Z.shiftr m w)) i = true ↔
    ∃ d, 0 ≤ d < 2 * w ∧ Z.testbit max (i + d) = true.
Proof.
  intros Hw Hm i Hi. rewrite Z.lor_spec, Z.shiftr_spec, orb_true_iff by done.
  rewrite !Hm by lia. split.
  - intros [(d & Hd & Hbit)|(d & Hd & Hbit)].
    + exists d. split; [lia|done].
    + exists (w + d). split; [lia|]. by rewrite Z.add_assoc.
  - intros (d & Hd & Hbit). destruct (Z.lt_ge_cases d w).
    + left. exists d. split; [lia|done].
    + right. exists (d - w). split; [lia|]. by replace (i + w + (d - w)) with (i + d) by lia.
Qed.

Lemma smear_testbit max i :
  0 ≤ i →
  Z.testbit (MT19937.smear max) i = true ↔ ∃ d, 0 ≤ d < 64 ∧ Z.testbit max (i + d) = true.
Proof.
  revert i. unfold MT19937.smear.
  apply (smear_step max 32); [done|]. apply (smear_step max 16); [done|].
  apply (smear_step max 8); [done|]. apply (smear_step max 4); [done|].
  apply (smear_step max 2); [done|]. apply (smear_step max 1); [done|].
  intros i Hi. split.
  - intros Hbit. exists 0. split; [lia|]. by rewrite Z.add_0_r.
  - intros (d & Hd & Hbit). by replace i with (i + d) by lia.
Qed.

Lemma smear_ones max : 0 < max < 2 ^ 64 → MT19937.smear max = Z.ones (Z.log2 max + 1).
Proof.
  intros [Hpos Hlt]. pose proof (Z.log2_nonneg max) as Hlog.
  assert (Z.log2 max < 64) as Hlog' by (by apply Z.log2_lt_pow2).
  apply Z.bits_inj'. intros i Hi. rewrite Z.testbit_ones by lia.
  apply eq_true_iff_eq. rewrite smear_testbit, andb_true_iff, Z.leb_le, Z.ltb_lt by done. split.
  - intros (d & Hd & Hbit). split; [done|].
    destruct (Z.lt_ge_cases (Z.log2 max) (i + d)) as [Habove|]; [|lia].
    rewrite Z.bits_above_log2 in Hbit by lia. done.
  - intros [_ Hi']. exists (Z.log2 max - i). split; [lia|].
    replace (i + (Z.log2 max - i)) with (Z.log2 max) by lia. by apply Z.bit_log2.
Qed.

Lemma smear_nonneg max : 0 ≤ max → 0 ≤ MT19937.smear max.
Proof.
  intros Hmax. unfold MT19937.smear. cbv zeta.
  assert (∀ m w, 0 ≤ m → 0 ≤ Z.lor m (Z.shiftr m w)) as Hstep.
  { intros m w Hm. apply Z.lor_nonneg. split; [done|by apply Z.shiftr_nonneg]. }
  by do 6 apply Hstep.
Qed.

Lemma draw_ok max st :
  state_ok st → 0 ≤ (MT19937.draw max st).1 ∧ state_ok (MT19937.draw max st).2.
Proof.
  intros Hst. unfold MT19937.draw. destruct (max <=? 4294967295).
  - destruct (next_uint32_ok st Hst) as ([? _] & ? & _). done.
  - unfold MT19937.next_uint64.
    destruct (next_uint32_ok st Hst) as ([Hhi _] & Hst1 & _).
    destruct (MT19937.next_uint32 st) as [hi st1]. cbn [fst snd] in *.
    destruct (next_uint32_ok st1 Hst1) as ([Hlo _] & Hst2 & _).
    destruct (MT19937.next_uint32 st1) as [lo st2]. cbn [fst snd] in *.
    split; [|done]. apply Z.lor_nonneg. split; [|done]. by apply Z.shiftl_nonneg.
Qed.

Lemma interval_loop_range fuel max st v st' :
  0 ≤ max → MT19937.interval_loop fuel (MT19937.smear max) max st = Some (v, st') →
  0 ≤ v ≤ max ∧ (state_ok st → state_ok st').
Proof.
  intros Hmax. revert st. induction fuel as [|fuel IH]; intros st H; [done|].
  cbn [MT19937.interval_loop] in H.
  pose proof (draw_ok max st) as Hdraw.
  destruct (MT19937.draw max st) as [r st1]. cbn [fst snd] in Hdraw.
  destruct (Z.ltb_spec max (Z.land r (MT19937.smear max))) as [Hgt|Hle].
  - apply IH in H as [? Hok']. split; [done|]. intros Hst. apply Hok'. by apply Hdraw.
  - injection H as <- <-. split; [|by intros Hst; apply Hdraw]. split; [|done].
    apply Z.land_nonneg. right. by apply smear_nonneg.
Qed.

Lemma interval_loop_None fuel max st :
  MT19937.interval_loop fuel (MT19937.smear max) max st = None ↔
  Forall (fun v => max < v) (masked_draws fuel max st).
Proof.
  revert st. induction fuel as [|fuel IH]; intros st; [by split; [constructor|]|].
  cbn [MT19937.interval_loop masked_draws].
  destruct (MT19937.draw max st) as [r st1]. rewrite Forall_cons.
  destruct (Z.ltb_spec max (Z.land r (MT19937.smear max))) as [Hgt|Hle].
  - rewrite IH. tauto.
  - split; [done|]. intros [? _]. lia.
Qed.

Lemma smear_spec max :
  0 < max < 2 ^ 64 →
  MT19937.smear max = 2 ^ (Z.log2 max + 1) - 1 ∧ max ≤ MT19937.smear max < 2 * max.
Proof.
  intros Hrange. rewrite smear_ones, Z.ones_equiv by done.
  pose proof (Z.log2_spec max ltac:(lia)) as [Hlow Hhigh].
  pose proof (Z.log2_nonneg max).
  replace (Z.succ (Z.log2 max)) with (Z.log2 max + 1) in Hhigh by lia.
  rewrite Z.pow_add_r in * by lia. lia.
Qed.

Lemma land_ones_upper r max :
  0 ≤ r → 0 < max < 2 ^ 64 → MT19937.smear max = max → Z.land r (MT19937.smear max) ≤ max.
Proof.
  intros Hr Hmax Hsmear. rewrite smear_ones in * by done.
  rewrite Z.land_ones by (pose proof (Z.log2_nonneg max); lia).
  rewrite <- Hsmear at 2. rewrite Z.ones_equiv.
  pose proof (Z.mod_pos_bound r (2 ^ (Z.log2 max + 1))
                ltac:(apply Z.pow_pos_nonneg; pose proof (Z.log2_nonneg max); lia)).
  lia.
Qed.

(** X5.  [random_interval(max)] for [0 <= max < 2^64], from a state of
    624 words.  It returns 0 at once for [max = 0].  Otherwise it draws
    under the mask of all ones with as many bits as [max], which is not
    below [max] and less than twice [max], so that more than half of the
    masked values are accepted.  What it returns is between 0 and [max]
    and leaves a state of 624 words; it returns nothing within [fuel]
    rounds exactly when each of the first [fuel] masked draws exceeds
    [max], and never when [max + 1] is a power of two. *)
Theorem random_interval_range fuel max st :
  0 ≤ max < 2 ^ 64 → state_ok st →
  (max = 0 → MT19937.random_interval fuel max st = Some (0, st)) ∧
  (0 < max →
     MT19937.smear max = 2 ^ (Z.log2 max + 1) - 1 ∧
     max ≤ MT19937.smear max < 2 * max) ∧
  (∀ v st', MT19937.random_interval fuel max st = Some (v, st') →
     0 ≤ v ≤ max ∧ state_ok st') ∧
  (0 < max →
     (MT19937.random_interval fuel max st = None ↔
      Forall (fun v => max < v) (masked_draws fuel max st))) ∧
  (MT19937.smear max = max → (0 < fuel)%nat →
     ∃ v st', MT19937.random_interval fuel max st = Some (v, st')).
Proof.
  intros Hmax Hst. split_and!.
  - by intros ->.
  - intros Hpos. apply smear_spec. lia.
  - intros v st' H. unfold MT19937.random_interval in H.
    destruct (Z.eqb_spec max 0) as [->|_].
    + injection H as <- <-. by split.
    + apply interval_loop_range in H as [? Hok]; [|lia]. split; [done|by apply Hok].
  - intros Hpos. unfold MT19937.random_interval.
    destruct (Z.eqb_spec max 0) as [|_]; [lia|]. apply interval_loop_None.
  - intros Hsmear Hfuel. unfold MT19937.random_interval.
    destruct (Z.eqb_spec max 0) as [|Hne]; [by eexists _, _|].
    destruct fuel as [|fuel]; [lia|]. cbn [MT19937.interval_loop].
    pose proof (draw_ok max st Hst) as [Hr _].
    destruct (MT19937.draw max st) as [r st1]. cbn [fst] in Hr.
    pose proof (land_ones_upper r max Hr ltac:(lia) Hsmear).
    destruct (Z.ltb_spec max (Z.land r (MT19937.smear max))); [lia|by eexists _, _].
Qed.

Lemma random_interval_range_witness :
  ∃ v st', MT19937.random_interval draw_limit 9 (MT19937.mt19937_seed 42) = Some (v, st') ∧
           0 ≤ v ≤ 9 ∧ state_ok st'.
Proof.
  destruct (random_interval_range draw_limit 9 (MT19937.mt19937_seed 42) ltac:(lia)
              (mt19937_seed_ok 42)) as (_ & _ & Hres & _).
  destruct (MT19937.random_interval draw_limit 9 (MT19937.mt19937_seed 42))
    as [[v st']|] eqn:H; [|by vm_compute in H].
  exists v, st'. split; [reflexivity|]. exact (Hres v st' eq_refl).
Defined.

(** X6.  [RandomState(seed).choice(n, size, replace=False)], which draws
    the rows of [sample] and of [train_test_split], returns [size] distinct
    positions below [n]: they are the first [size] entries of the
    permutation of all [n] positions that the same seed gives.  The seed
    is between 0 and 2^32 - 1 and the size between 0 and [n]. *)
Theorem choice_positions random_state n size locs :
  choice random_state n size = Ok locs →
  NoDup locs ∧ Forall (fun i => (i < n)%nat) locs ∧ length locs = Z.to_nat size ∧
  0 ≤ random_state < 2 ^ 32 ∧ 0 ≤ size ≤ Z.of_nat n ∧
  ∃ p, choice random_state n (Z.of_nat n) = Ok p ∧ p ≡ₚ seq 0 n ∧
       locs = take (Z.to_nat size) p.
Proof.
  intros H. pose proof (choice_Ok _ _ _ _ H) as (Hnd & Hlt & Hlen).
  pose proof (choice_bounds _ _ _ _ H) as [Hseed Hsize].
  split_and!; try done; try lia.
  unfold choice in *.
  destruct ((random_state <? 0) || (2 ^ 32 <=? random_state)); [done|].
  rewrite Z.ltb_irrefl.
  destruct (Z.of_nat n <? size); [done|]. destruct (size <? 0); [done|].
  destruct (Z.ltb_spec (Z.of_nat n) 0) as [|_]; [lia|].
  destruct (MT19937.permutation draw_limit n (MT19937.mt19937_seed random_state))
    as [[p st']|] eqn:Hp; [|done].
  simpl in H. injection H as <-. apply permutation_Permutation in Hp.
  exists p. split_and!; [|done..]. simpl. f_equal. apply take_ge.
  rewrite Hp, length_seq. lia.
Qed.

Lemma choice_positions_witness :
  choice 42 10 3 = Ok [8; 1; 5]%nat ∧ NoDup [8; 1; 5]%nat.
Proof.
  assert (choice 42 10 3 = Ok [8; 1; 5]%nat) as H by (by vm_compute).
  split; [exact H|]. exact (proj1 (choice_positions 42 10 3 [8; 1; 5]%nat H)).
Defined.

(** ** Imputation *)

Lemma of_matrix_2 (X : matrix) :
  of_matrix 2 X = [matrix_column 0 X; matrix_column 1 X].
Proof.
  unfold of_matrix, transpose, matrix_column. simpl.
  by rewrite <- !list_fmap_compose.
Qed.

Lemma impute_unfold `{Sklearn} data out :
  impute data = Ok out →
  ∃ sub X X' data1,
    getitem_columns data numerical_columns = Ok sub ∧ to_matrix sub = Ok X ∧
    KNNImputer_fit_transform 5 X = Ok X' ∧
    length X' = n_rows data ∧ Forall (fun row : list float => length row = 2%nat) X' ∧
    setitem data "year" (matrix_column 0 X') = Ok data1 ∧
    setitem data1 "odometer" (matrix_column 1 X') = Ok out.
Proof.
  unfold impute. intros H0.
  apply bind_Ok in H0 as (sub & Hsub & H0).
  apply bind_Ok in H0 as (X & HX & H0).
  apply bind_Ok in H0 as (X' & HX' & H0).
  unfold setitem_columns in H0.
  destruct (forallb _ X') eqn:Hrows; [|done]. cbn [negb] in H0.
  destruct (Nat.eqb_spec (length X') (n_rows data)) as [Hlen|]; [|done]. cbn [negb] in H0.
  change (length numerical_columns) with 2%nat in H0.
  rewrite of_matrix_2 in H0. cbn [zip_with numerical_columns setitem_each] in H0.
  apply bind_Ok in H0 as (data1 & Hdata1 & H0).
  apply bind_Ok in H0 as (data2 & Hdata2 & [= <-]).
  exists sub, X, X', data1. split_and!; try done.
  apply Forall_forall. intros row Hrow.
  rewrite forallb_forall in Hrows. apply Nat.eqb_eq, Hrows. by apply list_elem_of_In.
Qed.

(** X7.  The imputation hands the [year] and [odometer] columns, as a
    float matrix with one row per listing, to the nearest-neighbour
    imputer with five neighbours and writes the first column of what it
    returns back to [year] and the second to [odometer], as floats.  The
    other columns, the column order and the row labels stay as they are,
    and a well-formed table stays well formed. *)
Theorem impute_columns `{Sklearn} data out :
  wf data → impute data = Ok out →
  ∃ sub X X',
    getitem_columns data numerical_columns = Ok sub ∧ to_matrix sub = Ok X ∧
    length X = n_rows data ∧
    KNNImputer_fit_transform 5 X = Ok X' ∧
    length X' = n_rows data ∧
    getitem out "year" = Ok (matrix_column 0 X') ∧
    getitem out "odometer" = Ok (matrix_column 1 X') ∧
    Forall is_float (matrix_column 0 X') ∧ Forall is_float (matrix_column 1 X') ∧
    (∀ n, n ∉ numerical_columns → getitem out n = getitem data n) ∧
    column_names out = column_names data ∧ index out = index data ∧ wf out.
Proof.
  intros Hwf Hout.
  pose proof (impute_Ok _ _ Hout) as [Hindex Hother].
  pose proof (impute_names _ _ Hout) as Hnames.
  pose proof (impute_wf _ _ Hwf Hout) as Hwf'.
  apply impute_unfold in Hout as (sub & X & X' & data1 & Hsub & HX & HX' & Hlen & _ & H1 & H2).
  exists sub, X, X'. split_and!; try done.
  - rewrite (to_matrix_length _ _ HX).
    by apply getitem_columns_Ok in Hsub as (cols & _ & ->).
  - rewrite (getitem_setitem_ne _ _ _ _ _ H2) by done.
    apply setitem_Ok in H1 as [_ ->]. unfold getitem. simpl.
    by rewrite dict_get_dict_set_eq.
  - apply setitem_Ok in H2 as [_ ->]. unfold getitem. simpl.
    by rewrite dict_get_dict_set_eq.
  - by apply Forall_fmap, Forall_true.
  - by apply Forall_fmap, Forall_true.
Qed.

Lemma impute_columns_witness :
  ∃ out, impute (H := stub_sklearn) cars10 = Ok out ∧ wf out ∧
         column_names out = column_names cars10.
Proof.
  eassert (impute (H := stub_sklearn) cars10 = Ok _) as Hout by (vm_compute; reflexivity).
  destruct (impute_columns (H := stub_sklearn) cars10 _ wf_cars10 Hout)
    as (_ & _ & _ & _ & _ & _ & _ & _ & _ & _ & _ & _ & _ & Hnames & _ & Hwf).
  eexists. split; [exact Hout|]. by split.
Defined.

(** ** Outlier filter: missing odometer readings *)

Lemma is_nan_spec (x : float) : Num.is_nan x = true ↔ Prim2SF x = S754_nan.
Proof.
  unfold Num.is_nan. rewrite FloatAxioms.eqb_spec. unfold SFeqb.
  destruct (Prim2SF x) as [[]|[]| |[] m e]; simpl; try done.
  all: by rewrite Z.compare_refl, Pos.compare_cont_refl.
Qed.

Lemma add_nan (x y : float) :
  Num.is_nan x = true ∨ Num.is_nan y = true → Num.is_nan (x + y) = true.
Proof.
  rewrite !is_nan_spec, FloatAxioms.add_spec.
  intros [->| ->]; [done|]. by destruct (Prim2SF x).
Qed.

Lemma sub_nan (x y : float) :
  Num.is_nan x = true ∨ Num.is_nan y = true → Num.is_nan (x - y) = true.
Proof.
  rewrite !is_nan_spec, FloatAxioms.sub_spec.
  intros [->| ->]; [done|]. by destruct (Prim2SF x).
Qed.

Lemma div_nan (x y : float) :
  Num.is_nan x = true ∨ Num.is_nan y = true → Num.is_nan (x / y) = true.
Proof.
  rewrite !is_nan_spec, FloatAxioms.div_spec.
  intros [->| ->]; [done|]. by destruct (Prim2SF x).
Qed.

Lemma abs_lt_3_nan (z : float) : Num.is_nan z = true → abs_lt_3 z = false.
Proof.
  rewrite is_nan_spec. unfold abs_lt_3.
  rewrite FloatAxioms.ltb_spec, FloatAxioms.abs_spec. by intros ->.
Qed.

Lemma fold_add_nan (l : list float) (acc : float) :
  Num.is_nan acc = true → Num.is_nan (fold_left PrimFloat.add l acc) = true.
Proof.
  revert acc. induction l as [|x l IH]; intros acc Hnan; [done|].
  simpl. apply IH, add_nan. by left.
Qed.

Lemma fold_add_Exists_nan (l : list float) (acc : float) :
  Exists (fun x => Num.is_nan x = true) l →
  Num.is_nan (fold_left PrimFloat.add l acc) = true.
Proof.
  intros Hnan. revert acc. induction Hnan as [x l Hx|x l _ IH]; intros acc; simpl.
  - apply fold_add_nan, add_nan. by right.
  - apply IH.
Qed.

Lemma zip_with_add_nan (r k : list float) :
  length r = length k →
  Exists (fun x => Num.is_nan x = true) r ∨ Exists (fun x => Num.is_nan x = true) k →
  Exists (fun x => Num.is_nan x = true) (zip_with PrimFloat.add r k).
Proof.
  revert k. induction r as [|x r IH]; intros [|y k] Hlen Hnan; try done.
  - destruct Hnan as [Hnan|Hnan]; by apply Exists_nil in Hnan.
  - injection Hlen as Hlen. simpl. rewrite !Exists_cons in Hnan. apply Exists_cons.
    destruct Hnan as [[Hx|Hr]|[Hy|Hk]].
    + left. apply add_nan. by left.
    + right. apply IH; [done|by left].
    + left. apply add_nan. by right.
    + right. apply IH; [done|by right].
Qed.

Lemma accumulate_nan groups (r l : list float) :
  length r = 8%nat → (8 * groups ≤ length l)%nat →
  Exists (fun x => Num.is_nan x = true) (r ++ l) →
  Exists (fun x => Num.is_nan x = true)
    ((Num.accumulate groups r l).1 ++ (Num.accumulate groups r l).2).
Proof.
  revert r l. induction groups as [|groups IH]; intros r l Hr Hl Hnan; [done|].
  cbn [Num.accumulate]. apply IH.
  - rewrite length_zip_with, length_take. lia.
  - rewrite length_drop. lia.
  - rewrite <- (take_drop 8 l), !Exists_app in Hnan. rewrite Exists_app.
    destruct Hnan as [Hnan|[Hnan|Hnan]]; [left|left|by right].
    + apply zip_with_add_nan; [rewrite length_take; lia|by left].
    + apply zip_with_add_nan; [rewrite length_take; lia|by right].
Qed.

Ltac nan_sum :=
  first [ assumption
        | apply add_nan; first [ left; nan_sum | right; nan_sum ] ].

Lemma combine_nan (r : list float) :
  Exists (fun x => Num.is_nan x = true) r → Num.is_nan (Num.combine r) = true.
Proof.
  intros Hnan. unfold Num.combine.
  repeat (destruct r as [|? r]; [by apply fold_add_Exists_nan|]).
  destruct r as [|? r]; [|by apply fold_add_Exists_nan].
  rewrite !Exists_cons, Exists_nil in Hnan.
  repeat (destruct Hnan as [Hnan|Hnan]; [nan_sum|]). done.
Qed.

Lemma block_sum_nan (l : list float) :
  (8 ≤ length l)%nat →
  Exists (fun x => Num.is_nan x = true) l → Num.is_nan (Num.block_sum l) = true.
Proof.
  intros Hlen Hnan. unfold Num.block_sum.
  pose proof (accumulate_nan (length l / 8 - 1) (take 8 l) (drop 8 l)) as Hacc.
  destruct (Num.accumulate _ _ _) as [r rest]. cbn [fst snd] in Hacc.
  assert (Exists (fun x => Num.is_nan x = true) (r ++ rest)) as [Hr|Hrest]%Exists_app.
  { apply Hacc.
    - rewrite length_take. lia.
    - rewrite length_drop. pose proof (Nat.Div0.mul_div_le (length l) 8) as Hdiv.
      revert Hdiv. generalize (length l / 8)%nat. intros q Hq. lia.
    - by rewrite take_drop. }
  - by apply fold_add_nan, combine_nan.
  - by apply fold_add_Exists_nan.
Qed.

Lemma pairwise_sum_unfold fuel (l : list float) :
  Num.pairwise_sum fuel l =
    if (length l <? 8)%nat then fold_left PrimFloat.add l (-0)%float
    else
      match fuel with
      | S fuel' =>
          if (length l <=? Num.PW_BLOCKSIZE)%nat then Num.block_sum l
          else
            let n2 := (length l / 2 - (length l / 2) mod 8)%nat in
            (Num.pairwise_sum fuel' (take n2 l) + Num.pairwise_sum fuel' (drop n2 l))%float
      | O => Num.block_sum l
      end.
Proof. by destruct fuel. Qed.

Lemma pairwise_sum_nan fuel (l : list float) :
  Exists (fun x => Num.is_nan x = true) l → Num.is_nan (Num.pairwise_sum fuel l) = true.
Proof.
  revert l. induction fuel as [|fuel IH]; intros l Hnan; rewrite pairwise_sum_unfold.
  - destruct (Nat.ltb_spec (length l) 8); [by apply fold_add_Exists_nan|].
    by apply block_sum_nan.
  - destruct (Nat.ltb_spec (length l) 8); [by apply fold_add_Exists_nan|].
    destruct (length l <=? Num.PW_BLOCKSIZE)%nat; [by apply block_sum_nan|].
    cbv zeta. set (n2 := (length l / 2 - (length l / 2) mod 8)%nat).
    rewrite <- (take_drop n2 l) in Hnan. apply Exists_app in Hnan as [Hnan|Hnan].
    + apply add_nan. left. by apply IH.
    + apply add_nan. right. by apply IH.
Qed.

Lemma sum_nan (l : list float) :
  Exists (fun x => Num.is_nan x = true) l → Num.is_nan (Num.sum l) = true.
Proof. intros Hnan. unfold Num.sum. apply add_nan. right. by apply pairwise_sum_nan. Qed.

Lemma zscore_nan (xs : list float) :
  Exists (fun x => Num.is_nan x = true) xs →
  Forall (fun z => Num.is_nan z = true) (zscore xs).
Proof.
  intros Hnan%sum_nan. unfold zscore.
  destruct (isconst xs); apply Forall_forall; intros z (x & -> & _)%list_elem_of_fmap.
  - reflexivity.
  - apply div_nan. left. apply sub_nan. right. unfold Num.mean. apply div_nan. by left.
Qed.

(** X8.  A missing odometer reading poisons the whole Outlier Filter: if
    the odometer column holds a NaN, the mean is NaN, every standardized
    score is NaN, no score passes [abs(z) < 3], and the filter returns the
    table with all its rows removed. *)
Theorem outlier_filter_nan df odometer xs :
  wf df →
  "odometer_zscore" ∉ column_names df →
  getitem df "odometer" = Ok odometer →
  to_floats odometer = Ok xs →
  Exists (fun x => Num.is_nan x = true) xs →
  Forall (fun z => Num.is_nan z = true) (zscore xs) ∧
  outlier_filter df =
    Ok {| index := []; columns := prod_map id (fun _ => []) <$> columns df |}.
Proof.
  intros Hwf Hfresh Hodo Hxs Hnan. pose proof (zscore_nan xs Hnan) as Hz.
  split; [done|]. rewrite (outlier_filter_eq df odometer xs); try done.
  - f_equal. apply select_rows_all_false, Forall_fmap.
    eapply Forall_impl; [exact Hz|]. intros z. apply abs_lt_3_nan.
  - apply mapM_Ok_length in Hxs. rewrite Hxs. by apply getitem_length with "odometer".
Qed.

Lemma outlier_filter_nan_witness :
  let df := {| index := index cars3;
               columns := dict_set "odometer" (VFloat <$> [60000; PrimFloat.nan; 70000]%float)
                            (columns cars3) |} in
  ∃ out, outlier_filter df = Ok out ∧ n_rows out = 0%nat.
Proof.
  intros df.
  destruct (outlier_filter_nan df (VFloat <$> [60000; PrimFloat.nan; 70000]%float)
              [60000; PrimFloat.nan; 70000]%float) as [_ Hout].
  - split; [by repeat constructor|compute_done].
  - compute_done.
  - reflexivity.
  - reflexivity.
  - apply Exists_cons_tl, Exists_cons_hd. reflexivity.
  - eexists. split; [exact Hout|reflexivity].
Defined.

(** ** Outlier filter after the imputation *)

Lemma matrix_column_floats i (X : matrix) :
  to_floats (matrix_column i X) = Ok ((fun row : list float => nth i row PrimFloat.nan) <$> X).
Proof.
  unfold matrix_column.
  rewrite (list_fmap_compose (fun row : list float => nth i row PrimFloat.nan) VFloat).
  apply to_floats_VFloat.
Qed.

Lemma impute_getitem `{Sklearn} data out :
  impute data = Ok out →
  ∃ X', length X' = n_rows data ∧
        getitem out "year" = Ok (matrix_column 0 X') ∧
        getitem out "odometer" = Ok (matrix_column 1 X').
Proof.
  intros (sub & X & X' & data1 & _ & _ & _ & Hlen & _ & H1 & H2)%impute_unfold.
  exists X'. split_and!; [done| |].
  - rewrite (getitem_setitem_ne _ _ _ _ _ H2) by done.
    apply setitem_Ok in H1 as [_ ->]. unfold getitem. simpl.
    by rewrite dict_get_dict_set_eq.
  - apply setitem_Ok in H2 as [_ ->]. unfold getitem. simpl.
    by rewrite dict_get_dict_set_eq.
Qed.

(** X9.  The Outlier Filter cannot fail on what the imputation returns:
    the odometer column is then a float column with one cell per row, so
    the scores are computed, the mask has the length of the table, and the
    temporary column is there to be dropped.  The result keeps the rows
    whose score is below 3 in magnitude, in their order, under the same
    columns, and is well formed. *)
Theorem outlier_filter_after_impute `{Sklearn} data imputed :
  wf data →
  "odometer_zscore" ∉ column_names data →
  impute data = Ok imputed →
  ∃ X' out,
    getitem imputed "odometer" = Ok (matrix_column 1 X') ∧
    outlier_filter imputed = Ok out ∧
    out = select_rows
            (abs_lt_3 <$> zscore ((fun row : list float => nth 1 row PrimFloat.nan) <$> X'))
            imputed ∧
    drops_rows imputed out ∧
    column_names out = column_names data ∧
    wf out.
Proof.
  intros Hwf Hfresh Himpute.
  pose proof (impute_Ok _ _ Himpute) as [Hindex _].
  pose proof (impute_names _ _ Himpute) as Hnames.
  pose proof (impute_wf _ _ Hwf Himpute) as Hwf'.
  destruct (impute_getitem _ _ Himpute) as (X' & Hlen & _ & Hodo).
  set (xs := (fun row : list float => nth 1 row PrimFloat.nan) <$> X').
  assert (length xs = n_rows imputed) as Hxs.
  { unfold xs, n_rows. by rewrite length_fmap, Hindex. }
  assert (length (abs_lt_3 <$> zscore xs) = n_rows imputed) as Hmask
    by (by rewrite length_fmap, zscore_length).
  exists X', (select_rows (abs_lt_3 <$> zscore xs) imputed). split_and!; [done| |done|..].
  - apply (outlier_filter_eq imputed (matrix_column 1 X') xs); [by rewrite Hnames|done| |done].
    apply matrix_column_floats.
  - exists (true_positions (abs_lt_3 <$> zscore xs)).
    split; [apply true_positions_sorted|]. by apply select_rows_take_rows.
  - by rewrite select_rows_names.
  - by apply select_rows_wf.
Qed.

Lemma outlier_filter_after_impute_witness :
  ∃ imputed out,
    impute (H := stub_sklearn) cars10 = Ok imputed ∧ outlier_filter imputed = Ok out ∧
    n_rows out = 9%nat.
Proof.
  eassert (impute (H := stub_sklearn) cars10 = Ok _) as Himpute by (vm_compute; reflexivity).
  destruct (outlier_filter_after_impute (H := stub_sklearn) cars10 _ wf_cars10
              ltac:(compute_done) Himpute) as (X' & out & _ & Hout & _).
  eexists _, out. split; [exact Himpute|]. split; [exact Hout|].
  assert (Ok out = Ok (select_rows (replicate 9 true ++ [false]) cars10)) as [= ->]; [|done].
  rewrite <- Hout. by vm_compute.
Defined.

(** ** Categorical encoder: the encoded columns *)

Lemma fit_transform_Ok series y :
  mapM category series = Ok y →
  ∃ codes,
    fit_transform series = Ok (of_codes codes) ∧ length codes = length series ∧
    ∀ i k, y !! i = Some k → ∃ c, codes !! i = Some c ∧ classes_ y !! c = Some k.
Proof.
  intros Hy.
  destruct (transform_Ok (classes_ y) y (classes_NoDup y)) as (codes & Hcodes & Hlen & Hlookup).
  { intros k. apply classes_elem_of. }
  exists codes. split_and!; [|by rewrite Hlen, (mapM_Ok_length _ _ _ Hy)|done].
  by apply (fit_transform_category series y codes).
Qed.

(** X10.  [fit_transform] returns one code per cell, each an integer
    from 0 up to, not including, the number of cells.  On a column whose
    cells are strings or missing the codes are below the number of
    classes, and the class at the position of a cell's code is the cell's
    value: decoding gives the column back; a column of strings is always
    encoded, and a number among strings makes it raise the [TypeError] of
    that cell.  A column of integers is always encoded, by rank: of two
    cells the one with the smaller number has the smaller code, and equal
    numbers have equal codes.  A column of floats is always encoded, and
    the distinct value at the position of a cell's code equals the cell's
    value (all NaNs counting as one value). *)
Theorem fit_transform_codes series :
  (∀ out, fit_transform series = Ok out →
     length out = length series ∧ Forall (is_code (length series)) out) ∧
  (∀ y, mapM category series = Ok y →
     ∃ out,
       fit_transform series = Ok out ∧ length out = length series ∧
       Forall (is_code (length (classes_ y))) out ∧
       ∀ i v, series !! i = Some v →
         ∃ k c, category v = Ok k ∧ out !! i = Some (VInt (Z.of_nat c)) ∧
                classes_ y !! c = Some k) ∧
  (Forall (fun v => ∃ s, v = VStr s) series → ∃ out, fit_transform series = Ok out) ∧
  (existsb is_str series = true →
   ∀ e, mapM category series = Raise e → fit_transform series = Raise e) ∧
  (∀ zs : list Z, series = VInt <$> zs →
     ∃ codes,
       fit_transform series = Ok (of_codes codes) ∧ length codes = length zs ∧
       ∀ i j zi zj ci cj,
         zs !! i = Some zi → zs !! j = Some zj →
         codes !! i = Some ci → codes !! j = Some cj →
         ((ci < cj)%nat ↔ zi < zj) ∧ (ci = cj ↔ zi = zj)) ∧
  (∀ xs : list float, series = VFloat <$> xs →
     ∃ codes,
       fit_transform series = Ok (of_codes codes) ∧ length codes = length xs ∧
       ∀ i x n, xs !! i = Some x → codes !! i = Some n →
         ∃ c, unique key_eqb key_ltb xs !! n = Some c ∧ key_eqb x c = true).
Proof.
  split_and!.
  - intros out (codes & -> & Hlen & Hbound)%fit_transform_codes_bound.
    unfold of_codes. rewrite length_fmap. split; [done|].
    apply Forall_fmap. eapply Forall_impl; [exact Hbound|]. intros c Hc. by exists c.
  - intros y Hy. destruct (fit_transform_Ok series y Hy) as (codes & Hfit & Hlen & Hlookup).
    assert (∀ i c, codes !! i = Some c → (c < length (classes_ y))%nat) as Hbound.
    { intros i c Hc.
      assert (is_Some (y !! i)) as [k Hk].
      { apply lookup_lt_is_Some. rewrite (mapM_Ok_length _ _ _ Hy), <- Hlen.
        by eapply lookup_lt_Some. }
      destruct (Hlookup i k Hk) as (c' & Hc' & Hclass).
      assert (c' = c) as -> by congruence. by eapply lookup_lt_Some. }
    exists (of_codes codes). split_and!; [done|by unfold of_codes; rewrite length_fmap| |].
    + unfold of_codes. apply Forall_fmap, Forall_lookup. intros i c Hc.
      exists c. split; [done|]. by eapply Hbound.
    + intros i v Hv. destruct (mapM_Ok_lookup _ _ _ _ _ Hy Hv) as (k & Hk & Hyi).
      destruct (Hlookup i k Hyi) as (c & Hc & Hclass).
      exists k, c. split_and!; [done| |done].
      unfold of_codes. by rewrite list_lookup_fmap, Hc.
  - intros Hstr.
    assert (mapM category series
            = Ok ((fun v => match v with VStr s => Some s | _ => None end) <$> series)) as Hy.
    { apply mapM_Ok_all. intros v Hv. rewrite Forall_forall in Hstr.
      by destruct (Hstr v Hv) as [s ->]. }
    destruct (fit_transform_Ok _ _ Hy) as (codes & Hfit & _). eauto.
  - intros Hstr e He. by rewrite fit_transform_object, He.
  - intros zs ->. rewrite fit_transform_integers.
    destruct (unique_inverse_all Z.eqb Z.ltb Z.eqb_refl zs)
      as (codes & Hcodes & Hlen & _ & Hlookup).
    exists codes. rewrite Hcodes, bind_Ok_l. split_and!; [done..|].
    intros i j zi zj ci cj Hi Hj Hci Hcj.
    destruct (Hlookup i ci Hci) as (zi' & c & Hi' & Hclass_i & ->%Z.eqb_eq).
    destruct (Hlookup j cj Hcj) as (zj' & c' & Hj' & Hclass_j & ->%Z.eqb_eq).
    assert (c = zi) as -> by congruence. assert (c' = zj) as -> by congruence.
    pose proof (unique_Z_sorted zs) as Hsorted.
    assert ((ci < cj)%nat → zi < zj) as Hlt
      by (intros ?; by eapply (StronglySorted_lookup_lt Z.lt)).
    assert ((cj < ci)%nat → zj < zi) as Hgt
      by (intros ?; by eapply (StronglySorted_lookup_lt Z.lt)).
    assert (ci = cj → zi = zj) as Heq by (intros ->; congruence).
    split; split; intros ?; destruct (lt_eq_lt_dec ci cj) as [[?|?]|?]; auto; try lia.
    all: first [specialize (Hlt ltac:(done)); lia|specialize (Hgt ltac:(done)); lia
               |specialize (Heq ltac:(done)); lia].
  - intros xs ->. rewrite fit_transform_floats.
    destruct (unique_inverse_all key_eqb key_ltb key_eqb_refl xs)
      as (codes & Hcodes & Hlen & _ & Hlookup).
    exists codes. rewrite Hcodes, bind_Ok_l. split_and!; [done..|].
    intros i x n Hx Hn. destruct (Hlookup i n Hn) as (x' & c & Hx' & Hc & Heq).
    exists c. split; [done|]. congruence.
Qed.

Lemma encode_columns_getitem cols data out :
  NoDup cols → encode_columns cols data = Ok out →
  ∀ col, col ∈ cols →
    ∃ series codes,
      getitem data col = Ok series ∧ fit_transform series = Ok codes ∧
      getitem out col = Ok codes.
Proof.
  intros Hnd. revert data. induction Hnd as [|c cols Hc Hnd IH]; intros data H col Hcol.
  - by apply elem_of_nil in Hcol.
  - cbn [encode_columns] in H.
    apply bind_Ok in H as (series & Hseries & H).
    apply bind_Ok in H as (codes & Hcodes & H).
    apply bind_Ok in H as (data1 & Hdata1 & H).
    apply elem_of_cons in Hcol as [->|Hcol].
    + exists series, codes. split_and!; [done..|].
      destruct (encode_columns_Ok _ _ _ H) as [_ Hother]. rewrite (Hother c Hc).
      apply setitem_Ok in Hdata1 as [_ ->]. unfold getitem. simpl.
      by rewrite dict_get_dict_set_eq.
    + destruct (IH _ H col Hcol) as (series' & codes' & Hs & Hf & Ho).
      exists series', codes'. split_and!; [|done..].
      rewrite <- Hs. symmetry. apply (getitem_setitem_ne _ _ _ _ _ Hdata1).
      by intros ->.
Qed.

(** X11.  The encoding loop replaces each of the six categorical columns
    by the codes of that column as it was before the loop, each column
    with classes of its own; it leaves every other column, the column
    order and the row labels as they are, and a well-formed table well
    formed. *)
Theorem encode_each_column data out :
  encode data = Ok out →
  (∀ col, col ∈ categorical_columns →
     ∃ series codes,
       getitem data col = Ok series ∧ fit_transform series = Ok codes ∧
       getitem out col = Ok codes) ∧
  (∀ n, n ∉ categorical_columns → getitem out n = getitem data n) ∧
  column_names out = column_names data ∧ index out = index data ∧
  (wf data → wf out).
Proof.
  intros Hout. destruct (encode_columns_Ok _ _ _ Hout) as [Hindex Hother].
  split_and!; [|done|by eapply encode_columns_names|done|].
  - apply encode_columns_getitem; [compute_done|done].
  - intros Hwf. by eapply encode_columns_wf.
Qed.

Lemma encode_each_column_witness :
  ∃ out, encode cars10 = Ok out ∧
         getitem out "fuel" = Ok (VInt <$> [2; 2; 0; 3; 2; 0; 2; 2; 1; 2]) ∧
         getitem out "price" = getitem cars10 "price".
Proof.
  eassert (encode cars10 = Ok _) as Hout by (vm_compute; reflexivity).
  destruct (encode_each_column cars10 _ Hout) as (_ & Hother & _).
  eexists. split; [exact Hout|]. split; [by vm_compute|]. apply Hother. compute_done.
Defined.

(** ** Feature engineer: numbers in, numbers out *)

Lemma mapM_Forall {A B} (f : A → result B) (P : A → Prop) (Q : B → Prop) (l : list A) :
  (∀ x, P x → ∃ y, f x = Ok y ∧ Q y) → Forall P l →
  ∃ k, mapM f l = Ok k ∧ Forall Q k.
Proof.
  intros Hf. induction 1 as [|x l Hx _ (k & Hk & HQ)]; [by exists []|].
  destruct (Hf x Hx) as (y & Hy & HQy).
  exists (y :: k). split; [|by constructor]. apply mapM_Ok_cons. eauto.
Qed.

Lemma Forall_zip {A B} (P : A → Prop) (Q : B → Prop) (l : list A) (k : list B) :
  Forall P l → Forall Q k → Forall (fun p => P p.1 ∧ Q p.2) (zip l k).
Proof.
  intros Hl. revert k. induction Hl as [|x l Hx _ IH]; intros k Hk; [constructor|].
  destruct Hk as [|y k Hy Hk]; [constructor|]. simpl. constructor; [done|by apply IH].
Qed.

Lemma zip_withM_Forall {A B C} (f : A → B → result C) (P : A → Prop) (Q : B → Prop)
    (R : C → Prop) (l : list A) (k : list B) :
  (∀ x y, P x → Q y → ∃ z, f x y = Ok z ∧ R z) → Forall P l → Forall Q k →
  length l = length k →
  ∃ r, zip_withM f l k = Ok r ∧ Forall R r ∧ length r = length l.
Proof.
  intros Hf Hl Hk Hlen. unfold zip_withM.
  destruct (mapM_Forall (fun p => f p.1 p.2) (fun p => P p.1 ∧ Q p.2) R (zip l k))
    as (r & Hr & HR).
  - intros [x y] [Hx Hy]. by apply Hf.
  - by apply Forall_zip.
  - exists r. split_and!; [done..|].
    rewrite (mapM_Ok_length _ _ _ Hr), length_zip_with. lia.
Qed.

Lemma rsub_int_number k v : is_number v → ∃ w, rsub_int k v = Ok w ∧ is_number w ∧ (is_float v → is_float w).
Proof. destruct v; [eexists; by split_and!..|done]. Qed.

Lemma add_int_number k v : is_number v → ∃ w, add_int k v = Ok w ∧ is_number w.
Proof. destruct v; [eexists; by split_and!..|done]. Qed.

Lemma truediv_number a b : is_number a → is_number b → ∃ w, truediv a b = Ok w ∧ is_float w.
Proof. destruct a, b; try done; intros _ _; eexists; by split. Qed.

Lemma mul_number a b :
  is_number a → is_number b → ∃ w, mul a b = Ok w ∧ (is_number w ∧ (is_float a → is_float w)).
Proof. destruct a, b; try done; intros _ _; eexists; by split_and!. Qed.

Lemma Forall_is_float_number (l : Series) : Forall is_float l → Forall is_number l.
Proof. intros Hl. eapply Forall_impl; [exact Hl|]. by intros []. Qed.

(** The Feature Engineer succeeds on a well-formed table whose [year],
    [price], [odometer] and [fuel] columns hold numbers. *)
Lemma feature_engineer_total current_year data year price odometer fuel :
  wf data →
  getitem data "year" = Ok year → getitem data "price" = Ok price →
  getitem data "odometer" = Ok odometer → getitem data "fuel" = Ok fuel →
  Forall is_number year → Forall is_number price →
  Forall is_number odometer → Forall is_number fuel →
  ∃ out car_age price_per_km odometer_fuel,
    feature_engineer current_year data = Ok out ∧
    getitem out "car_age" = Ok car_age ∧
    getitem out "price_per_km" = Ok price_per_km ∧
    getitem out "odometer_fuel" = Ok odometer_fuel ∧
    Forall is_number car_age ∧ Forall is_float price_per_km ∧
    Forall is_number odometer_fuel ∧
    (Forall is_float year → Forall is_float car_age) ∧
    (Forall is_float odometer → Forall is_float odometer_fuel).
Proof.
  intros Hwf Hyear Hprice Hodo Hfuel Nyear Nprice Nodo Nfuel.
  pose proof (getitem_length _ _ _ Hwf Hyear) as Lyear.
  pose proof (getitem_length _ _ _ Hwf Hprice) as Lprice.
  pose proof (getitem_length _ _ _ Hwf Hodo) as Lodo.
  pose proof (getitem_length _ _ _ Hwf Hfuel) as Lfuel.
  destruct (mapM_Forall (rsub_int current_year) is_number is_number year)
    as (car_age & Hcar_age & Ncar_age); [|done|].
  { intros v Hv. destruct (rsub_int_number current_year v Hv) as (w & ? & ? & _). eauto. }
  assert (Forall is_float year → Forall is_float car_age) as Fcar_age.
  { intros Fyear.
    destruct (mapM_Forall (rsub_int current_year) is_float is_float year)
      as (car_age' & Hcar_age' & ?); [|done|congruence].
    intros v Hv. destruct (rsub_int_number current_year v) as (w & ? & _ & ?); [by destruct v|].
    eauto. }
  destruct (mapM_Forall (add_int 1) is_number is_number odometer)
    as (odometer1 & Hodometer1 & Nodometer1); [apply add_int_number|done|].
  destruct (zip_withM_Forall truediv is_number is_number is_float price odometer1)
    as (price_per_km & Hppk & Fppk & Lppk); [apply truediv_number|done..| |].
  { rewrite (mapM_Ok_length _ _ _ Hodometer1). congruence. }
  destruct (zip_withM_Forall mul is_number is_number is_number odometer fuel)
    as (odometer_fuel & Hof & Nof & Lof); [|done..|congruence|].
  { intros a b Ha Hb. destruct (mul_number a b Ha Hb) as (w & ? & ? & _). eauto. }
  assert (Forall is_float odometer → Forall is_float odometer_fuel) as Fof.
  { intros Fodo.
    destruct (zip_withM_Forall mul is_float is_number is_float odometer fuel)
      as (of' & Hof' & ? & _); [|done..|congruence|congruence].
    intros a b Ha Hb. destruct (mul_number a b) as (w & ? & _ & ?); [by destruct a|done|].
    eauto. }
  destruct (setitem data "car_age" car_age) as [data1|] eqn:H1.
  2:{ unfold setitem in H1. rewrite (mapM_Ok_length _ _ _ Hcar_age), Lyear, Nat.eqb_refl in H1.
      done. }
  assert (n_rows data1 = n_rows data) as N1
    by (unfold n_rows; by rewrite (setitem_index _ _ _ _ H1)).
  destruct (setitem data1 "price_per_km" price_per_km) as [data2|] eqn:H2.
  2:{ unfold setitem in H2. by rewrite Lppk, Lprice, <- N1, Nat.eqb_refl in H2. }
  assert (n_rows data2 = n_rows data) as N2
    by (unfold n_rows in *; by rewrite (setitem_index _ _ _ _ H2)).
  destruct (setitem data2 "odometer_fuel" odometer_fuel) as [out|] eqn:H3.
  2:{ unfold setitem in H3. by rewrite Lof, Lodo, <- N2, Nat.eqb_refl in H3. }
  exists out, car_age, price_per_km, odometer_fuel. split_and!; try done.
  - unfold feature_engineer.
    rewrite Hyear, bind_Ok_l, Hcar_age, bind_Ok_l, H1, bind_Ok_l.
    rewrite (getitem_setitem_ne _ _ _ _ "price" H1), Hprice, bind_Ok_l by done.
    rewrite (getitem_setitem_ne _ _ _ _ "odometer" H1), Hodo, bind_Ok_l by done.
    rewrite Hodometer1, bind_Ok_l, Hppk, bind_Ok_l, H2, bind_Ok_l.
    rewrite (getitem_setitem_ne _ _ _ _ "odometer" H2),
      (getitem_setitem_ne _ _ _ _ "odometer" H1), Hodo, bind_Ok_l by done.
    rewrite (getitem_setitem_ne _ _ _ _ "fuel" H2),
      (getitem_setitem_ne _ _ _ _ "fuel" H1), Hfuel, bind_Ok_l by done.
    by rewrite Hof, bind_Ok_l.
  - rewrite (getitem_setitem_ne _ _ _ _ "car_age" H3),
      (getitem_setitem_ne _ _ _ _ "car_age" H2) by done.
    apply setitem_Ok in H1 as [_ ->]. unfold getitem. simpl. by rewrite dict_get_dict_set_eq.
  - rewrite (getitem_setitem_ne _ _ _ _ "price_per_km" H3) by done.
    apply setitem_Ok in H2 as [_ ->]. unfold getitem. simpl. by rewrite dict_get_dict_set_eq.
  - apply setitem_Ok in H3 as [_ ->]. unfold getitem. simpl. by rewrite dict_get_dict_set_eq.
Qed.

(** X12.  On a well-formed table whose [year], [price], [odometer] and
    [fuel] columns hold numbers, the Feature Engineer raises nothing (a
    zero [odometer + 1] gives an infinite or NaN quotient, not an error).
    [price_per_km] is a float column, [car_age] and [odometer_fuel] are
    numbers, and floats when [year], respectively [odometer], are floats;
    the result is well formed with the same row labels. *)
Theorem feature_engineer_numeric current_year data year price odometer fuel :
  wf data →
  getitem data "year" = Ok year → getitem data "price" = Ok price →
  getitem data "odometer" = Ok odometer → getitem data "fuel" = Ok fuel →
  Forall is_number year → Forall is_number price →
  Forall is_number odometer → Forall is_number fuel →
  ∃ out car_age price_per_km odometer_fuel,
    feature_engineer current_year data = Ok out ∧
    wf out ∧ index out = index data ∧
    getitem out "car_age" = Ok car_age ∧
    getitem out "price_per_km" = Ok price_per_km ∧
    getitem out "odometer_fuel" = Ok odometer_fuel ∧
    Forall is_number car_age ∧ Forall is_float price_per_km ∧
    Forall is_number odometer_fuel ∧
    (Forall is_float year → Forall is_float car_age) ∧
    (Forall is_float odometer → Forall is_float odometer_fuel).
Proof.
  intros Hwf Hyear Hprice Hodo Hfuel Nyear Nprice Nodo Nfuel.
  destruct (feature_engineer_total current_year data year price odometer fuel)
    as (out & car_age & ppk & odometer_fuel & Hout & H); try done.
  exists out, car_age, ppk, odometer_fuel. split_and!; [done| | |apply H..].
  - by eapply feature_engineer_wf.
  - by eapply feature_engineer_index.
Qed.

Lemma feature_engineer_numeric_witness :
  ∃ before out price_per_km,
    encode cars10 = Ok before ∧ feature_engineer 2026 before = Ok out ∧
    getitem out "price_per_km" = Ok price_per_km ∧ Forall is_float price_per_km.
Proof.
  eassert (encode cars10 = Ok _) as Hbefore by (vm_compute; reflexivity).
  lazymatch type of Hbefore with
  | _ = Ok ?before =>
      edestruct (feature_engineer_numeric 2026 before)
        as (out & _ & ppk & _ & Hout & _ & _ & _ & Hppk & _ & _ & Fppk & _);
        [| reflexivity | reflexivity | reflexivity | reflexivity | | | | |]
  end.
  - split; [by repeat constructor|compute_done].
  - by repeat constructor.
  - by repeat constructor.
  - by repeat constructor.
  - by repeat constructor.
  - eexists _, out, ppk. by split_and!.
Defined.

(** ** Feature selector: the scores and the selected columns *)

Lemma dict_NoDup {V} (pairs : list (string * V)) : NoDup pairs.*1 → dict pairs = pairs.
Proof.
  unfold dict.
  assert (∀ d, NoDup (d ++ pairs).*1 →
               foldl (fun d p => dict_set p.1 p.2 d) d pairs = d ++ pairs) as Hgen.
  { induction pairs as [|[k v] pairs IH]; intros d Hnd; [by rewrite app_nil_r|].
    simpl. rewrite dict_set_fresh.
    - rewrite IH; [by rewrite <- app_assoc|]. by rewrite <- app_assoc.
    - rewrite fmap_app, fmap_cons in Hnd. apply NoDup_app in Hnd as (_ & Hdisj & _).
      intros Hk. apply (Hdisj k Hk). left. }
  intros Hnd. by apply (Hgen []).
Qed.

Lemma zip_fst_sublist {A B} (l : list A) (k : list B) : (zip l k).*1 `sublist_of` l.
Proof.
  revert k. induction l as [|x l IH]; intros [|y k]; simpl; try done.
  - apply sublist_nil_l.
  - by apply sublist_skip.
Qed.

Lemma dict_get_filter {V} (names : list string) n (cols : list (string * V)) :
  n ∉ names → dict_get n (filter (fun c => c.1 ∉ names) cols) = dict_get n cols.
Proof.
  intros Hn. induction cols as [|[k v] cols IH]; [done|].
  destruct (decide (k ∈ names)) as [Hk|Hk].
  - rewrite filter_cons_False by (simpl; tauto). simpl.
    destruct (String.eqb_spec k n) as [->|_]; [done|]. exact IH.
  - rewrite filter_cons_True by done. simpl. by rewrite IH.
Qed.

Lemma score_features_Ok `{Sklearn} w data X y importance_dict :
  score_features w data = Ok (X, y, importance_dict) →
  ∃ Xm ym importance,
    drop_columns data ["price"] = Ok X ∧ getitem data "price" = Ok y ∧
    to_matrix X = Ok Xm ∧ as_float_array y = Ok ym ∧
    mutual_info_regression (global_rng w) Xm ym = Ok importance ∧
    importance_dict = dict (zip (column_names X) importance).
Proof.
  unfold score_features. intros H0.
  apply bind_Ok in H0 as (X0 & HX & H0).
  apply bind_Ok in H0 as (y0 & Hy & H0).
  apply bind_Ok in H0 as (Xm & HXm & H0).
  apply bind_Ok in H0 as (ym & Hym & H0).
  apply bind_Ok in H0 as (importance & Himp & [= <- <- <-]).
  by exists Xm, ym, importance.
Qed.

Lemma score_features_names `{Sklearn} w data X y importance_dict :
  wf data → score_features w data = Ok (X, y, importance_dict) →
  wf X ∧ importance_dict.*1 `sublist_of` column_names X ∧ NoDup importance_dict.*1.
Proof.
  intros Hwf (Xm & ym & importance & HX & _ & _ & _ & _ & ->)%score_features_Ok.
  pose proof (drop_columns_wf _ _ _ Hwf HX) as HwfX. split; [done|].
  assert (NoDup (zip (column_names X) importance).*1) as Hnd.
  { apply (sublist_NoDup _ (column_names X)); [apply HwfX|apply zip_fst_sublist]. }
  rewrite dict_NoDup by done. split; [apply zip_fst_sublist|done].
Qed.

(** X13.  The features are all columns but [price], in their order, with
    their cells, and the target is the [price] column.  The importance
    dictionary pairs the feature names, in column order, with the scores
    the estimator returned for the feature matrix and the target; with
    one score per feature its keys are the feature names and its values
    the scores. *)
Theorem score_features_dict `{Sklearn} w data X y importance_dict :
  wf data → score_features w data = Ok (X, y, importance_dict) →
  getitem data "price" = Ok y ∧
  index X = index data ∧ wf X ∧
  column_names X `sublist_of` column_names data ∧
  (∀ n, n ∈ column_names X ↔ n ∈ column_names data ∧ n ≠ "price") ∧
  (∀ n, n ≠ "price" → getitem X n = getitem data n) ∧
  ∃ Xm ym importance,
    to_matrix X = Ok Xm ∧ as_float_array y = Ok ym ∧
    mutual_info_regression (global_rng w) Xm ym = Ok importance ∧
    importance_dict = zip (column_names X) importance ∧
    (length importance = length (column_names X) →
     importance_dict.*1 = column_names X ∧ importance_dict.*2 = importance).
Proof.
  intros Hwf Hscore.
  destruct (score_features_names _ _ _ _ _ Hwf Hscore) as (HwfX & _ & _).
  apply score_features_Ok in Hscore as (Xm & ym & importance & HX & Hy & HXm & Hym & Himp & ->).
  apply drop_columns_Ok in HX as [_ ->].
  split_and!; [done..| | | |].
  - unfold column_names. simpl. apply fmap_sublist, sublist_filter.
  - intros n. unfold column_names. simpl. rewrite !list_elem_of_fmap. split.
    + intros ([k v] & -> & [Hk Hin]%list_elem_of_filter). simpl in *. split.
      * by exists (k, v).
      * intros ->. apply Hk. left.
    + intros [([k v] & -> & Hin) Hne]. exists (k, v). split; [done|].
      apply list_elem_of_filter. split; [|done]. simpl.
      by intros ->%list_elem_of_singleton.
  - intros n Hn. unfold getitem. simpl. rewrite dict_get_filter; [done|].
    by intros ->%list_elem_of_singleton.
  - exists Xm, ym, importance. split_and!; [done..| |].
    + apply dict_NoDup. apply (sublist_NoDup _ (column_names
        {| index := index data; columns := filter (fun c => c.1 ∉ ["price"]) (columns data) |}));
        [apply HwfX|apply zip_fst_sublist].
    + intros Hlen. rewrite dict_NoDup.
      * split; [apply fst_zip|apply snd_zip]; lia.
      * rewrite fst_zip by lia. apply HwfX.
Qed.

Lemma score_features_dict_witness :
  ∃ data X y importance_dict,
    prepare (H := stub_sklearn) world_a cars40 = Ok data ∧
    score_features (H := stub_sklearn) world_a data = Ok (X, y, importance_dict) ∧
    importance_dict.*1 = column_names X.
Proof.
  eassert (prepare (H := stub_sklearn) world_a cars40 = Ok _) as Hdata
    by (vm_compute; reflexivity).
  lazymatch type of Hdata with
  | _ = Ok ?data =>
      eassert (score_features (H := stub_sklearn) world_a data = Ok (_, _, _)) as Hscore
        by (vm_compute; reflexivity);
      assert (wf data) as Hwf by (split; [by repeat constructor|compute_done])
  end.
  destruct (score_features_dict (H := stub_sklearn) _ _ _ _ _ Hwf Hscore)
    as (_ & _ & _ & _ & _ & _ & Xm & ym & importance & _ & _ & _ & -> & _).
  eexists _, _, _, _. split; [exact Hdata|]. split; [exact Hscore|]. by vm_compute.
Defined.

Lemma select_features_sublist importance_dict :
  select_features importance_dict `sublist_of` importance_dict.*1.
Proof. unfold select_features. apply fmap_sublist, sublist_filter. Qed.

Lemma select_features_elem_of importance_dict n :
  n ∈ select_features importance_dict ↔
  ∃ s, (n, s) ∈ importance_dict ∧ PrimFloat.ltb 0.01 s = true.
Proof.
  unfold select_features. rewrite list_elem_of_fmap. split.
  - intros ([k s] & -> & [Hs Hin]%list_elem_of_filter). by exists s.
  - intros (s & Hin & Hs). exists (n, s). split; [done|]. by apply list_elem_of_filter.
Qed.

Lemma ltb_nan_r (x : float) : PrimFloat.ltb x PrimFloat.nan = false.
Proof. rewrite FloatAxioms.ltb_spec. by destruct (Prim2SF x) as [[]|[]| |[] m e]. Qed.

(** X14.  The selected features are the keys of the importance dictionary
    whose score is strictly above 0.01, in dictionary order: a score of
    exactly 0.01 or NaN does not select.  They are feature columns, none
    twice, so [X[selected_features]] cannot raise a [KeyError]: it returns
    exactly these columns, in this order, with the cells and the row
    labels of [X]. *)
Theorem selected_features_columns `{Sklearn} w data X y importance_dict :
  wf data → score_features w data = Ok (X, y, importance_dict) →
  let selected := select_features importance_dict in
  selected `sublist_of` column_names X ∧ NoDup selected ∧
  (∀ n, n ∈ selected ↔ ∃ s, (n, s) ∈ importance_dict ∧ PrimFloat.ltb 0.01 s = true) ∧
  PrimFloat.ltb 0.01 0.01 = false ∧ PrimFloat.ltb 0.01 PrimFloat.nan = false ∧
  ∃ Xs,
    getitem_columns X selected = Ok Xs ∧ column_names Xs = selected ∧
    index Xs = index X ∧ wf Xs ∧
    ∀ n, n ∈ selected → getitem Xs n = getitem X n.
Proof.
  intros Hwf Hscore selected.
  destruct (score_features_names _ _ _ _ _ Hwf Hscore) as (HwfX & Hsub & Hnd).
  assert (selected `sublist_of` column_names X) as Hsel.
  { etrans; [apply select_features_sublist|done]. }
  assert (NoDup selected) as Hnd'.
  { apply (sublist_NoDup _ (column_names X)); [apply HwfX|done]. }
  split_and!; [done..|apply select_features_elem_of|done|apply ltb_nan_r|].
  destruct (getitem_columns_is_Ok X selected) as [Xs HXs].
  { intros n Hn. by eapply elem_of_sublist. }
  exists Xs. split_and!; [done| | | |].
  - by eapply getitem_columns_names.
  - by apply getitem_columns_Ok in HXs as (cols & _ & ->).
  - by eapply getitem_columns_wf.
  - intros n Hn. by eapply getitem_columns_getitem.
Qed.

Lemma selected_features_columns_witness :
  ∃ data X y importance_dict Xs,
    prepare (H := stub_sklearn) world_a cars40 = Ok data ∧
    score_features (H := stub_sklearn) world_a data = Ok (X, y, importance_dict) ∧
    getitem_columns X (select_features importance_dict) = Ok Xs ∧
    column_names Xs = select_features importance_dict.
Proof.
  eassert (prepare (H := stub_sklearn) world_a cars40 = Ok _) as Hdata
    by (vm_compute; reflexivity).
  lazymatch type of Hdata with
  | _ = Ok ?data =>
      eassert (score_features (H := stub_sklearn) world_a data = Ok (_, _, _)) as Hscore
        by (vm_compute; reflexivity);
      assert (wf data) as Hwf by (split; [by repeat constructor|compute_done])
  end.
  destruct (selected_features_columns (H := stub_sklearn) _ _ _ _ _ Hwf Hscore)
    as (_ & _ & _ & _ & _ & Xs & HXs & Hnames & _).
  eexists _, _, _, _, Xs. split; [exact Hdata|]. split; [exact Hscore|]. by split.
Defined.

(** ** Splitter: a partition of the rows *)

Lemma train_test_split_unfold X y test_size random_state s :
  train_test_split X y test_size random_state = Ok s →
  ∃ n_test p,
    length y = n_rows X ∧
    Num.ceil (test_size * Num.of_nat (n_rows X)) = Some n_test ∧
    (Z.to_nat n_test < n_rows X)%nat ∧
    choice random_state (n_rows X) (Z.of_nat (n_rows X)) = Ok p ∧
    p ≡ₚ seq 0 (n_rows X) ∧
    take_rows X (drop (Z.to_nat n_test) p) = Ok (X_train s) ∧
    take_rows X (take (Z.to_nat n_test) p) = Ok (X_test s) ∧
    take_list (drop (Z.to_nat n_test) p) y = Ok (y_train s) ∧
    take_list (take (Z.to_nat n_test) p) y = Ok (y_test s).
Proof.
  unfold train_test_split. intros H.
  destruct (Nat.eqb_spec (length y) (n_rows X)) as [Hy|]; [|done]. cbn [negb] in H.
  apply bind_Ok in H as (n_test & Hceil%from_option_Ok & H).
  destruct (Nat.eqb_spec (n_rows X - Z.to_nat n_test) 0) as [|Hn]; [done|].
  apply bind_Ok in H as (p & Hp & H).
  pose proof (choice_Ok _ _ _ _ Hp) as (_ & _ & Hlen). rewrite Nat2Z.id in Hlen.
  assert (p ≡ₚ seq 0 (n_rows X)) as Hperm.
  { unfold choice in Hp.
    destruct ((random_state <? 0) || (2 ^ 32 <=? random_state)); [done|].
    destruct (Z.of_nat (n_rows X) <? Z.of_nat (n_rows X)); [done|].
    destruct (Z.of_nat (n_rows X) <? 0); [done|].
    apply bind_Ok in Hp as ([q st'] & Hq%from_option_Ok & [= <-]).
    apply permutation_Permutation in Hq. simpl. rewrite take_ge; [done|].
    rewrite Hq, length_seq. lia. }
  assert (take (n_rows X - Z.to_nat n_test) (drop (Z.to_nat n_test) p)
          = drop (Z.to_nat n_test) p) as Hdrop.
  { apply take_ge. rewrite length_drop. lia. }
  rewrite Hdrop in H.
  apply bind_Ok in H as (Xtr & HXtr & H).
  apply bind_Ok in H as (Xte & HXte & H).
  apply bind_Ok in H as (ytr & Hytr & H).
  apply bind_Ok in H as (yte & Hyte & [= <-]). simpl.
  exists n_test, p. split_and!; try done. lia.
Qed.

(** X15.  [train_test_split] cuts a seeded permutation of the row
    positions in two: the first [ceil(test_size * n)] positions are the
    test rows and all the others the training rows, so every row goes to
    exactly one of the two parts.  Features and target are taken at the
    same positions and stay aligned, the parts are well formed with the
    columns of [X], and the training part is never empty. *)
Theorem train_test_split_partition X y test_size random_state s :
  wf X → train_test_split X y test_size random_state = Ok s →
  ∃ n_test ind_train ind_test,
    Num.ceil (test_size * Num.of_nat (n_rows X)) = Some n_test ∧
    ind_test ++ ind_train ≡ₚ seq 0 (n_rows X) ∧
    take_rows X ind_train = Ok (X_train s) ∧ take_rows X ind_test = Ok (X_test s) ∧
    take_list ind_train y = Ok (y_train s) ∧ take_list ind_test y = Ok (y_test s) ∧
    n_rows (X_test s) = Z.to_nat n_test ∧
    (n_rows (X_train s) + n_rows (X_test s) = n_rows X)%nat ∧
    (0 < n_rows (X_train s))%nat ∧
    length (y_train s) = n_rows (X_train s) ∧ length (y_test s) = n_rows (X_test s) ∧
    column_names (X_train s) = column_names X ∧ column_names (X_test s) = column_names X ∧
    wf (X_train s) ∧ wf (X_test s).
Proof.
  intros Hwf (n_test & p & Hy & Hceil & Hlt & _ & Hperm & HXtr & HXte & Hytr & Hyte)
    %train_test_split_unfold.
  assert (length p = n_rows X) as Hlen by (by rewrite Hperm, length_seq).
  exists n_test, (drop (Z.to_nat n_test) p), (take (Z.to_nat n_test) p).
  rewrite (take_rows_n_rows _ _ _ HXtr), (take_rows_n_rows _ _ _ HXte).
  rewrite (mapM_Ok_length _ _ _ Hytr), (mapM_Ok_length _ _ _ Hyte).
  rewrite length_take, length_drop, Hlen.
  split_and!; try done; try lia.
  - by rewrite take_drop.
  - by eapply take_rows_names.
  - by eapply take_rows_names.
  - by eapply take_rows_wf.
  - by eapply take_rows_wf.
Qed.

Lemma train_test_split_partition_witness :
  let X := {| index := index cars10; columns := [("year", replicate 10 (VFloat 2012))] |} in
  ∃ s, train_test_split X (replicate 10 9000%float) 0.1 42 = Ok s ∧
       n_rows (X_test s) = 1%nat ∧ n_rows (X_train s) = 9%nat.
Proof.
  intros X.
  eassert (train_test_split X (replicate 10 9000%float) 0.1 42 = Ok _) as Hs
    by (vm_compute; reflexivity).
  edestruct (train_test_split_partition X) as (n_test & _ & _ & Hceil & _ & _ & _ & _ & _ &
                                               Htest & Hsum & _);
    [|exact Hs|].
  { split; [by repeat constructor|compute_done]. }
  eexists. split; [exact Hs|].
  assert (Some n_test = Some 1) as [= ->] by (rewrite <- Hceil; by vm_compute).
  split; [exact Htest|]. rewrite Htest in Hsum. change (n_rows X) with 10%nat in Hsum. lia.
Defined.

(** ** Evaluator: what it accepts *)

Lemma is_finite_spec (x : float) :
  Num.is_finite x = true ↔ Num.is_nan x = false ∧ Num.is_inf x = false.
Proof. unfold Num.is_finite. rewrite andb_true_iff, !negb_true_iff. done. Qed.

Lemma existsb_false_Forall {A} (f : A → bool) (l : list A) :
  existsb f l = false ↔ Forall (fun x => f x = false) l.
Proof.
  induction l as [|x l IH]; simpl.
  - split; [constructor|done].
  - rewrite orb_false_iff, Forall_cons. by rewrite IH.
Qed.

Lemma assert_all_finite_Ok (y : list float) :
  assert_all_finite y = Ok tt ↔ Forall (fun x => Num.is_finite x = true) y.
Proof.
  unfold assert_all_finite.
  destruct (existsb Num.is_nan y) eqn:Hnan.
  - split; [done|]. intros Hfin. exfalso.
    apply existsb_exists in Hnan as (x & Hx%list_elem_of_In & Hnan).
    rewrite Forall_forall in Hfin. apply Hfin, is_finite_spec in Hx as [Hx _]. congruence.
  - destruct (existsb Num.is_inf y) eqn:Hinf.
    + split; [done|]. intros Hfin. exfalso.
      apply existsb_exists in Hinf as (x & Hx%list_elem_of_In & Hinf).
      rewrite Forall_forall in Hfin. apply Hfin, is_finite_spec in Hx as [_ Hx]. congruence.
    + split; [|done]. intros _.
      apply existsb_false_Forall in Hnan, Hinf. rewrite Forall_forall in Hnan, Hinf.
      apply Forall_forall. intros x Hx. apply is_finite_spec. by split; [apply Hnan|apply Hinf].
Qed.

Lemma check_array_Ok (y : list float) :
  check_array y = Ok tt ↔
  Forall (fun x => Num.is_finite x = true) y ∧ (0 < length y)%nat.
Proof.
  unfold check_array. split.
  - intros H. destruct (assert_all_finite y) as [[]|] eqn:Hfin; [|done].
    apply assert_all_finite_Ok in Hfin. rewrite bind_Ok_l in H.
    destruct (Nat.eqb_spec (length y) 0); [done|]. split; [done|lia].
  - intros [Hfin%assert_all_finite_Ok Hpos]. rewrite Hfin, bind_Ok_l.
    destruct (Nat.eqb_spec (length y) 0); [lia|done].
Qed.

Lemma check_reg_targets_Ok y_true y_pred :
  check_reg_targets y_true y_pred = Ok tt ↔
  length y_true = length y_pred ∧ (0 < length y_true)%nat ∧
  Forall (fun x => Num.is_finite x = true) y_true ∧
  Forall (fun x => Num.is_finite x = true) y_pred.
Proof.
  unfold check_reg_targets.
  destruct (Nat.eqb_spec (length y_true) (length y_pred)) as [Hlen|Hlen]; cbn [negb].
  - split.
    + intros H. destruct (check_array y_true) as [[]|] eqn:Htrue; [|done].
      rewrite bind_Ok_l in H. apply check_array_Ok in Htrue as [? ?], H as [? ?]. done.
    + intros (_ & Hpos & Htrue & Hpred).
      rewrite (proj2 (check_array_Ok y_true)), bind_Ok_l by done.
      apply check_array_Ok. split; [done|lia].
  - split; [done|]. by intros [? _].
Qed.

Lemma check_reg_targets_nan y_true y_pred :
  length y_true = length y_pred →
  Exists (fun x => Num.is_nan x = true) y_true →
  check_reg_targets y_true y_pred = Raise (ValueError "Input contains NaN.").
Proof.
  intros Hlen Hnan. unfold check_reg_targets, check_array, assert_all_finite.
  rewrite Hlen, Nat.eqb_refl. cbn [negb].
  assert (existsb Num.is_nan y_true = true) as ->; [|done].
  apply existsb_exists. apply Exists_exists in Hnan as (x & Hx & Hnan).
  exists x. by split; [apply list_elem_of_In|].
Qed.

Lemma check_reg_targets_not_finite y_true y_pred :
  Exists (fun x => Num.is_finite x = false) (y_true ++ y_pred) →
  ∃ msg, check_reg_targets y_true y_pred = Raise (ValueError msg).
Proof.
  intros Hbad.
  destruct (check_reg_targets y_true y_pred) as [[]|e] eqn:Hcheck.
  - apply check_reg_targets_Ok in Hcheck as (_ & _ & Htrue & Hpred).
    apply Exists_exists in Hbad as (x & Hx & Hbad).
    pose proof (Forall_app_2 _ _ _ Htrue Hpred) as Hfin. rewrite Forall_forall in Hfin.
    rewrite (Hfin x Hx) in Hbad. done.
  - revert Hcheck. unfold check_reg_targets, check_array, assert_all_finite.
    repeat (match goal with |- context [if ?b then _ else _] => destruct b end;
            cbn [mbind result_bind]; try (intros [= <-]; by eexists)).
Qed.


(** ** The prepared table: kinds of cells along the script *)

Lemma compress_Forall {A} (P : A → Prop) (mask : list bool) (l : list A) :
  Forall P l → Forall P (compress mask l).
Proof.
  intros Hl. apply Forall_forall. intros x Hx. rewrite Forall_forall in Hl.
  apply Hl. by eapply elem_of_sublist, compress_sublist.
Qed.

Lemma take_list_Forall {A} (P : A → Prop) locs (l k : list A) :
  Forall P l → take_list locs l = Ok k → Forall P k.
Proof.
  intros Hl Hk. apply Forall_lookup. intros j v Hv.
  destruct (take_list_lookup _ _ _ _ _ Hk Hv) as (i & _ & Hi).
  rewrite Forall_lookup in Hl. by eapply Hl.
Qed.

Lemma take_rows_getitem df locs out n col :
  take_rows df locs = Ok out → getitem df n = Ok col →
  ∃ col', getitem out n = Ok col' ∧ take_list locs col = Ok col'.
Proof.
  intros (idx & cols & _ & Hcols & ->)%take_rows_Ok. unfold getitem. simpl.
  revert cols Hcols. induction (columns df) as [|[k c] l IH]; intros cols Hcols Hget; [done|].
  apply mapM_Ok_cons in Hcols as ([k' c'] & rest & (t & Ht & [= <- <-])%bind_Ok & Hrest & ->).
  simpl in *. destruct (String.eqb k n); [|by apply IH].
  injection Hget as <-. by exists t.
Qed.

Lemma column_all_impl (P Q : value → Prop) df n :
  (∀ v, P v → Q v) → column_all P df n → column_all Q df n.
Proof.
  intros HPQ (col & Hcol & Hall). exists col. split; [done|].
  eapply Forall_impl; [exact Hall|done].
Qed.

Lemma column_all_eq (P : value → Prop) df df' n :
  getitem df' n = getitem df n → column_all P df n → column_all P df' n.
Proof. intros Heq (col & Hcol & Hall). exists col. by rewrite Heq. Qed.

Lemma column_all_select_rows (P : value → Prop) mask df n :
  column_all P df n → column_all P (select_rows mask df) n.
Proof.
  intros (col & Hcol & Hall). exists (compress mask col).
  rewrite getitem_select_rows, Hcol. split; [done|]. by apply compress_Forall.
Qed.

Lemma column_all_take_rows (P : value → Prop) df locs out n :
  take_rows df locs = Ok out → column_all P df n → column_all P out n.
Proof.
  intros Hout (col & Hcol & Hall).
  destruct (take_rows_getitem _ _ _ _ _ Hout Hcol) as (col' & Hcol' & Htake).
  exists col'. split; [done|]. by eapply take_list_Forall.
Qed.

Lemma price_filter_price data out :
  price_filter data = Ok out → column_all (fun v => price_in_range v = true) out "price".
Proof.
  intros (price & Hprice & _ & _ & ->)%price_filter_select.
  exists (filter (fun v => price_in_range v = true) price).
  rewrite getitem_select_rows, Hprice, <- compress_filter. split; [done|].
  rewrite compress_filter. apply Forall_forall. by intros v [? _]%list_elem_of_filter.
Qed.

Lemma cleaning_table raw out :
  wf raw → cleaning raw = Ok out →
  wf out ∧ column_names out = projected_columns ∧
  column_all (fun v => price_in_range v = true) out "price".
Proof.
  intros Hwf Hout. pose proof (cleaning_names _ _ Hout) as Hnames.
  unfold cleaning in Hout.
  apply bind_Ok in Hout as (d1 & Hd1 & Hout).
  apply bind_Ok in Hout as (d2 & Hd2 & Hout).
  pose proof (price_filter_price _ _ Hd1) as Hprice.
  pose proof Hd1 as (price & _ & _ & Hlen & ->)%price_filter_select.
  assert (wf d2) as Hwf2.
  { eapply getitem_columns_wf; [| |exact Hd2]; [|compute_done].
    apply select_rows_wf; [done|]. by rewrite length_fmap. }
  assert (column_all (fun v => price_in_range v = true) d2 "price") as Hprice2.
  { eapply column_all_eq; [|exact Hprice].
    apply (getitem_columns_getitem _ _ _ _ Hd2). compute_done. }
  unfold sample in Hout.
  apply bind_Ok in Hout as (size & _ & Hout).
  apply bind_Ok in Hout as (locs & _ & Hout).
  split_and!; [by eapply take_rows_wf|done|by eapply column_all_take_rows].
Qed.

Lemma fit_transform_is_code series out :
  fit_transform series = Ok out → Forall (is_code (length series)) out.
Proof.
  intros (codes & -> & _ & Hbound)%fit_transform_codes_bound.
  unfold of_codes. apply Forall_fmap. eapply Forall_impl; [exact Hbound|].
  intros c Hc. by exists c.
Qed.

Lemma feature_engineer_other current_year data out n :
  feature_engineer current_year data = Ok out → n ∉ derived_columns →
  getitem out n = getitem data n.
Proof.
  unfold feature_engineer. intros H Hn.
  apply bind_Ok in H as (year & _ & H).
  apply bind_Ok in H as (car_age & _ & H).
  apply bind_Ok in H as (data1 & Hdata1 & H).
  apply bind_Ok in H as (price & _ & H).
  apply bind_Ok in H as (odometer & _ & H).
  apply bind_Ok in H as (odometer1 & _ & H).
  apply bind_Ok in H as (price_per_km & _ & H).
  apply bind_Ok in H as (data2 & Hdata2 & H).
  apply bind_Ok in H as (odometer' & _ & H).
  apply bind_Ok in H as (fuel & _ & H).
  apply bind_Ok in H as (odometer_fuel & _ & H).
  unfold derived_columns in Hn. rewrite !not_elem_of_cons in Hn.
  destruct Hn as (? & ? & ? & _).
  by rewrite (getitem_setitem_ne _ _ _ _ n H), (getitem_setitem_ne _ _ _ _ n Hdata2),
    (getitem_setitem_ne _ _ _ _ n Hdata1).
Qed.

Lemma is_code_number n v : is_code n v → is_number v.
Proof. by intros (c & -> & _). Qed.

Lemma price_in_range_number v : price_in_range v = true → is_number v.
Proof. by destruct v. Qed.

Lemma is_float_number v : is_float v → is_number v.
Proof. by destruct v. Qed.

Lemma matrix_column_is_float i X : Forall is_float (matrix_column i X).
Proof. by apply Forall_fmap, Forall_true. Qed.

(** The table that reaches the Feature Engineer, column by column. *)
Lemma encoded_table `{Sklearn} raw d1 d2 d3 d4 :
  wf raw → cleaning raw = Ok d1 → impute d1 = Ok d2 → outlier_filter d2 = Ok d3 →
  encode d3 = Ok d4 →
  wf d4 ∧ column_names d4 = projected_columns ∧
  column_all (fun v => price_in_range v = true) d4 "price" ∧
  column_all is_float d4 "year" ∧ column_all is_float d4 "odometer" ∧
  (∀ n, n ∈ categorical_columns → column_all (is_code (n_rows d4)) d4 n).
Proof.
  intros Hwf Hd1 Hd2 Hd3 Hd4.
  destruct (cleaning_table _ _ Hwf Hd1) as (Hwf1 & Hnames1 & Hprice1).
  (* imputation *)
  pose proof (impute_wf _ _ Hwf1 Hd2) as Hwf2.
  pose proof (impute_names _ _ Hd2) as Hnames2. rewrite Hnames1 in Hnames2.
  destruct (impute_Ok _ _ Hd2) as [_ Hother2].
  destruct (impute_getitem _ _ Hd2) as (X' & _ & Hyear2 & Hodo2).
  assert (column_all (fun v => price_in_range v = true) d2 "price") as Hprice2.
  { eapply column_all_eq; [|exact Hprice1]. apply Hother2. compute_done. }
  assert (column_all is_float d2 "year") as Fyear2
    by (eexists; split; [exact Hyear2|apply matrix_column_is_float]).
  assert (column_all is_float d2 "odometer") as Fodo2
    by (eexists; split; [exact Hodo2|apply matrix_column_is_float]).
  (* outlier filter *)
  apply outlier_filter_Ok in Hd3 as (odometer & xs & _ & _ & Hlen & ->);
    [|by apply zscore_fresh_in_projection].
  set (mask := abs_lt_3 <$> zscore xs) in *.
  assert (wf (select_rows mask d2)) as Hwf3.
  { apply select_rows_wf; [done|]. unfold mask. by rewrite length_fmap, zscore_length. }
  pose proof (column_all_select_rows _ mask _ _ Hprice2) as Hprice3.
  pose proof (column_all_select_rows _ mask _ _ Fyear2) as Fyear3.
  pose proof (column_all_select_rows _ mask _ _ Fodo2) as Fodo3.
  (* encoding *)
  pose proof (encode_columns_wf _ _ _ Hwf3 Hd4) as Hwf4.
  destruct (encode_columns_Ok _ _ _ Hd4) as [Hindex4 Hother4].
  split_and!; [done| | | | |].
  - by rewrite (encode_columns_names _ _ _ Hd4), select_rows_names.
  - eapply column_all_eq; [|exact Hprice3]. apply Hother4. compute_done.
  - eapply column_all_eq; [|exact Fyear3]. apply Hother4. compute_done.
  - eapply column_all_eq; [|exact Fodo3]. apply Hother4. compute_done.
  - intros n Hn.
    destruct (encode_columns_getitem categorical_columns _ _ ltac:(compute_done) Hd4 n Hn)
      as (series & codes & Hseries & Hfit & Hcodes).
    exists codes. split; [done|].
    unfold n_rows. rewrite Hindex4. fold (n_rows (select_rows mask d2)).
    rewrite <- (getitem_length _ _ _ Hwf3 Hseries). by apply fit_transform_is_code.
Qed.

(** On that table the Feature Engineer succeeds. *)
Lemma engineer_encoded_table current_year d4 :
  wf d4 →
  column_all (fun v => price_in_range v = true) d4 "price" →
  column_all is_float d4 "year" → column_all is_float d4 "odometer" →
  column_all (is_code (n_rows d4)) d4 "fuel" →
  ∃ data,
    feature_engineer current_year d4 = Ok data ∧
    ∀ n, n ∈ derived_columns → column_all is_float data n.
Proof.
  intros Hwf4 (price & Hprice & Rprice) (year & Hyear & Fyear) (odo & Hodo & Fodo)
    (fuel & Hfuel & Cfuel).
  destruct (feature_engineer_total current_year d4 year price odo fuel)
    as (out & car_age & ppk & odometer_fuel & Hout & Hage & Hppk & Hof & _ & Fppk & _ &
        Fage & Fof); try done.
  { by apply Forall_is_float_number. }
  { eapply Forall_impl; [exact Rprice|apply price_in_range_number]. }
  { by apply Forall_is_float_number. }
  { eapply Forall_impl; [exact Cfuel|apply is_code_number]. }
  exists out. split; [done|]. intros n. unfold derived_columns. rewrite !elem_of_cons.
  intros [->|[->|[->|Hn]]]; [| | |by apply elem_of_nil in Hn].
  - exists car_age. split; [done|by apply Fage].
  - by exists ppk.
  - exists odometer_fuel. split; [done|by apply Fof].
Qed.

(** The table that leaves the Feature Engineer, column by column. *)
Lemma prepare_table `{Sklearn} w raw data :
  wf raw → prepare w raw = Ok data →
  wf data ∧ column_names data = projected_columns ++ derived_columns ∧
  column_all (fun v => price_in_range v = true) data "price" ∧
  (∀ n, n ∈ numerical_columns ++ derived_columns → column_all is_float data n) ∧
  (∀ n, n ∈ categorical_columns → column_all (is_code (n_rows data)) data n).
Proof.
  intros Hwf Hdata. pose proof (prepare_names _ _ _ Hdata) as Hnames.
  unfold prepare in Hdata.
  apply bind_Ok in Hdata as (d1 & Hd1 & Hdata).
  apply bind_Ok in Hdata as (d2 & Hd2 & Hdata).
  apply bind_Ok in Hdata as (d3 & Hd3 & Hdata).
  apply bind_Ok in Hdata as (d4 & Hd4 & Hdata).
  destruct (encoded_table _ _ _ _ _ Hwf Hd1 Hd2 Hd3 Hd4)
    as (Hwf4 & Hnames4 & Hprice4 & Fyear4 & Fodo4 & Hcodes4).
  destruct (engineer_encoded_table (clock_year w) d4) as (out & Hout & Fderived);
    [done..|apply Hcodes4; compute_done|].
  assert (out = data) as -> by congruence.
  pose proof (feature_engineer_wf _ _ _ Hwf4 Hdata) as Hwf5.
  pose proof (feature_engineer_index _ _ _ Hdata) as Hindex5.
  assert (∀ n, n ∈ projected_columns → getitem data n = getitem d4 n) as Hother5.
  { intros n Hn. eapply feature_engineer_other; [done|]. revert Hn.
    unfold projected_columns. rewrite !elem_of_cons. intros Hn.
    repeat (destruct Hn as [->|Hn]; [compute_done|]). by apply elem_of_nil in Hn. }
  split_and!; [done..| | |].
  - eapply column_all_eq; [|exact Hprice4]. apply Hother5. compute_done.
  - intros n [Hn|Hn]%elem_of_app; [|by apply Fderived].
    revert Hn. unfold numerical_columns. rewrite !elem_of_cons.
    intros [->|[->|Hn]]; [| |by apply elem_of_nil in Hn].
    + eapply column_all_eq; [|exact Fyear4]. apply Hother5. compute_done.
    + eapply column_all_eq; [|exact Fodo4]. apply Hother5. compute_done.
  - intros n Hn. unfold n_rows. rewrite Hindex5. fold (n_rows d4).
    eapply column_all_eq; [|exact (Hcodes4 n Hn)]. apply Hother5. revert Hn.
    unfold categorical_columns. rewrite !elem_of_cons. intros Hn.
    repeat (destruct Hn as [->|Hn]; [compute_done|]). by apply elem_of_nil in Hn.
Qed.

(** X17.  In a run that gets past the Feature Engineer, the prepared
    table is well formed, has the nine projected and the three derived
    columns, every price strictly between 500 and 80000, floats in [year],
    [odometer] and the three derived columns, and in every categorical
    column integer codes below the number of rows: no cell of it is a
    string. *)
Theorem prepared_table `{Sklearn} w raw data :
  wf raw → prepare w raw = Ok data →
  wf data ∧ column_names data = projected_columns ++ derived_columns ∧
  column_all (fun v => price_in_range v = true) data "price" ∧
  (∀ n, n ∈ numerical_columns ++ derived_columns → column_all is_float data n) ∧
  (∀ n, n ∈ categorical_columns → column_all (is_code (n_rows data)) data n) ∧
  (∀ n, n ∈ column_names data → column_all is_number data n).
Proof.
  intros Hwf Hdata.
  destruct (prepare_table _ _ _ Hwf Hdata) as (Hwf' & Hnames & Hprice & Hfloat & Hcode).
  split_and!; [done..|]. intros n Hn. rewrite Hnames in Hn.
  assert (n = "price" ∨ n ∈ numerical_columns ++ derived_columns ∨ n ∈ categorical_columns)
    as [->|[Hf|Hc]].
  { revert Hn. unfold projected_columns, derived_columns at 1. simpl.
    rewrite !elem_of_cons. intros Hn.
    repeat (destruct Hn as [->|Hn];
            [first [by left|right; left; compute_done|right; right; compute_done]|]).
    by apply elem_of_nil in Hn. }
  - eapply column_all_impl; [|exact Hprice]. apply price_in_range_number.
  - eapply column_all_impl; [|exact (Hfloat n Hf)]. apply is_float_number.
  - eapply column_all_impl; [|exact (Hcode n Hc)]. apply is_code_number.
Qed.

Lemma prepared_table_witness :
  ∃ data, prepare (H := stub_sklearn) world_a cars40 = Ok data ∧ wf data ∧
          column_all is_float data "car_age".
Proof.
  eassert (prepare (H := stub_sklearn) world_a cars40 = Ok _) as Hdata
    by (vm_compute; reflexivity).
  assert (wf cars40) as Hwf by (split; [by repeat constructor|compute_done]).
  destruct (prepared_table (H := stub_sklearn) _ _ _ Hwf Hdata)
    as (Hwf' & _ & _ & Hfloat & _).
  eexists. split; [exact Hdata|]. split; [exact Hwf'|]. apply Hfloat. compute_done.
Defined.

(** ** Where a run can fail *)

(** X18.  Once the Cleaning Stage and the imputation have succeeded, the
    Outlier Filter succeeds, and the preparation of the table can only
    fail in the encoder, with the encoder's exception: if the encoder
    succeeds, so does the Feature Engineer. *)
Theorem prepare_failures `{Sklearn} w raw d1 d2 :
  wf raw → cleaning raw = Ok d1 → impute d1 = Ok d2 →
  ∃ d3,
    outlier_filter d2 = Ok d3 ∧
    ((∃ e, encode d3 = Raise e ∧ prepare w raw = Raise e) ∨
     (∃ d4 data,
        encode d3 = Ok d4 ∧ feature_engineer (clock_year w) d4 = Ok data ∧
        prepare w raw = Ok data)).
Proof.
  intros Hwf Hd1 Hd2.
  destruct (cleaning_table _ _ Hwf Hd1) as (Hwf1 & Hnames1 & _).
  pose proof (impute_wf _ _ Hwf1 Hd2) as Hwf2.
  pose proof (impute_names _ _ Hd2) as Hnames2. rewrite Hnames1 in Hnames2.
  destruct (impute_Ok _ _ Hd2) as [Hindex2 _].
  destruct (impute_getitem _ _ Hd2) as (X' & Hlen & _ & Hodo2).
  assert (∃ d3, outlier_filter d2 = Ok d3) as [d3 Hd3].
  { eexists.
    apply (outlier_filter_eq d2 (matrix_column 1 X')
             ((fun row : list float => nth 1 row PrimFloat.nan) <$> X')); [|done| |].
    - by apply zscore_fresh_in_projection.
    - apply matrix_column_floats.
    - unfold n_rows. by rewrite length_fmap, Hindex2. }
  exists d3. split; [done|].
  destruct (encode d3) as [d4|e] eqn:Hd4.
  - right.
    destruct (encoded_table _ _ _ _ _ Hwf Hd1 Hd2 Hd3 Hd4)
      as (Hwf4 & _ & Hprice4 & Fyear4 & Fodo4 & Hcodes4).
    destruct (engineer_encoded_table (clock_year w) d4) as (data & Hdata & _);
      [done..|apply Hcodes4; compute_done|].
    exists d4, data. split_and!; [done..|].
    unfold prepare. by rewrite Hd1, bind_Ok_l, Hd2, bind_Ok_l, Hd3, bind_Ok_l, Hd4, bind_Ok_l.
  - left. exists e. split; [done|].
    unfold prepare. by rewrite Hd1, bind_Ok_l, Hd2, bind_Ok_l, Hd3, bind_Ok_l, Hd4.
Qed.

Lemma prepare_failures_witness :
  ∃ d1 d2 d3 data,
    cleaning cars40 = Ok d1 ∧ impute (H := stub_sklearn) d1 = Ok d2 ∧
    outlier_filter d2 = Ok d3 ∧ prepare (H := stub_sklearn) world_a cars40 = Ok data.
Proof.
  eassert (cleaning cars40 = Ok _) as Hd1 by (vm_compute; reflexivity).
  lazymatch type of Hd1 with
  | _ = Ok ?d1 =>
      eassert (impute (H := stub_sklearn) d1 = Ok _) as Hd2 by (vm_compute; reflexivity)
  end.
  assert (wf cars40) as Hwf by (split; [by repeat constructor|compute_done]).
  destruct (prepare_failures (H := stub_sklearn) world_a _ _ _ Hwf Hd1 Hd2)
    as (d3 & Hd3 & [(e & _ & He)|(d4 & data & _ & _ & Hdata)]).
  - exfalso. clear -He. vm_compute in He. discriminate He.
  - eexists _, _, d3, data.
    split; [exact Hd1|]. split; [exact Hd2|]. split; [exact Hd3|exact Hdata].
Defined.

(** ** The feature matrix of a prepared table *)

Lemma elem_of_getitem df n c : wf df → (n, c) ∈ columns df → getitem df n = Ok c.
Proof.
  intros [_ Hnd]. unfold getitem, column_names in *.
  induction (columns df) as [|[k v] l IH]; intros Hin; [by apply elem_of_nil in Hin|].
  rewrite fmap_cons in Hnd. apply NoDup_cons in Hnd as [Hk Hnd]. simpl in *.
  apply elem_of_cons in Hin as [[= -> ->]|Hin].
  - by rewrite String.eqb_refl.
  - destruct (String.eqb_spec k n) as [->|_]; [|by apply IH].
    destruct Hk. apply list_elem_of_fmap. by exists (n, c).
Qed.

Lemma as_float_array_numbers (s : Series) :
  Forall is_number s → ∃ xs, as_float_array s = Ok xs.
Proof.
  intros Hs. unfold as_float_array.
  destruct (mapM_Forall (to_float_or (ValueError "could not convert string to float"))
              is_number (fun _ => True) s) as (xs & Hxs & _); [|done|by exists xs].
  intros v Hv. destruct v; [by eexists..|done].
Qed.

Lemma transpose_rows n (cols : matrix) :
  length (transpose n cols) = n ∧
  Forall (fun row : list float => length row = length cols) (transpose n cols).
Proof.
  unfold transpose. split; [by rewrite length_fmap, length_seq|].
  apply Forall_fmap, Forall_true. intros i. simpl. by rewrite length_fmap.
Qed.

(** X19.  The feature scorer of a prepared table receives numbers only:
    dropping [price] succeeds, the eleven feature columns and the target
    convert to a float matrix with one row per listing and eleven columns
    and to a float vector of the same length, and the scoring of lines 44
    to 47 succeeds or fails with the estimator. *)
Theorem score_features_numeric `{Sklearn} w raw data :
  wf raw → prepare w raw = Ok data →
  ∃ X y Xm ym,
    drop_columns data ["price"] = Ok X ∧ getitem data "price" = Ok y ∧
    to_matrix X = Ok Xm ∧ as_float_array y = Ok ym ∧
    length (column_names X) = 11%nat ∧
    length Xm = n_rows data ∧
    Forall (fun row : list float => length row = 11%nat) Xm ∧
    length ym = n_rows data ∧
    score_features w data =
      (importance ← mutual_info_regression (global_rng w) Xm ym;
       Ok (X, y, dict (zip (column_names X) importance))).
Proof.
  intros Hwf Hdata.
  destruct (prepare_table _ _ _ Hwf Hdata) as (Hwf' & Hnames & Hprice & Hfloat & Hcode).
  assert (∀ n, n ∈ column_names data → column_all is_number data n) as Hnumber.
  { intros n Hn. rewrite Hnames in Hn.
    assert (n = "price" ∨ n ∈ numerical_columns ++ derived_columns ∨ n ∈ categorical_columns)
      as [->|[Hf|Hc]].
    { revert Hn. unfold projected_columns, derived_columns at 1. simpl.
      rewrite !elem_of_cons. intros Hn.
      repeat (destruct Hn as [->|Hn];
              [first [by left|right; left; compute_done|right; right; compute_done]|]).
      by apply elem_of_nil in Hn. }
    - eapply column_all_impl; [|exact Hprice]. apply price_in_range_number.
    - eapply column_all_impl; [|exact (Hfloat n Hf)]. apply is_float_number.
    - eapply column_all_impl; [|exact (Hcode n Hc)]. apply is_code_number. }
  destruct (drop_columns data ["price"]) as [X|e] eqn:HX.
  2:{ unfold drop_columns in HX. rewrite Hnames in HX. by vm_compute in HX. }
  pose proof (drop_columns_wf _ _ _ Hwf' HX) as HwfX.
  pose proof HX as [_ HX']%drop_columns_Ok.
  assert (column_names X = filter (fun n => n ∉ ["price"]) (column_names data)) as HnamesX.
  { rewrite HX'. unfold column_names. simpl. clear.
    induction (columns data) as [|[k v] l IH]; [done|].
    rewrite fmap_cons. destruct (decide (k ∉ ["price"])).
    - rewrite !filter_cons_True by done. by rewrite fmap_cons, IH.
    - by rewrite !filter_cons_False. }
  rewrite Hnames in HnamesX.
  assert (length (column_names X) = 11%nat) as HlenX by (by rewrite HnamesX).
  destruct Hprice as (y & Hy & Ry).
  destruct (as_float_array_numbers y) as [ym Hym].
  { eapply Forall_impl; [exact Ry|apply price_in_range_number]. }
  destruct (mapM_Forall (fun c : string * Series => as_float_array c.2)
              (fun c => Forall is_number c.2) (fun _ => True) (columns X))
    as (cols & Hcols & _).
  { intros c Hc. destruct (as_float_array_numbers c.2 Hc) as [xs Hxs]. by exists xs. }
  { apply Forall_forall. intros [n c] Hc. simpl.
    assert ((n, c) ∈ columns data) as Hin.
    { rewrite HX' in Hc. simpl in Hc. by apply list_elem_of_filter in Hc as [_ ?]. }
    destruct (Hnumber n) as (col & Hcol & Ncol).
    { apply list_elem_of_fmap. by exists (n, c). }
    rewrite (elem_of_getitem _ _ _ Hwf' Hin) in Hcol. by injection Hcol as ->. }
  assert (to_matrix X = Ok (transpose (n_rows X) cols)) as HXm
    by (unfold to_matrix; by rewrite Hcols).
  assert (n_rows X = n_rows data) as Hrows by (by rewrite HX').
  destruct (transpose_rows (n_rows X) cols) as [Hlen Hrow].
  exists X, y, (transpose (n_rows X) cols), ym. split_and!; try done.
  - by rewrite Hlen.
  - rewrite (mapM_Ok_length _ _ _ Hcols) in Hrow.
    unfold column_names in HlenX. rewrite length_fmap in HlenX. by rewrite HlenX in Hrow.
  - rewrite (mapM_Ok_length _ _ _ Hym). by apply getitem_length with "price".
  - unfold score_features. by rewrite HX, bind_Ok_l, Hy, bind_Ok_l, HXm, bind_Ok_l, Hym.
Qed.

Lemma score_features_numeric_witness :
  ∃ data X Xm,
    prepare (H := stub_sklearn) world_a cars40 = Ok data ∧
    drop_columns data ["price"] = Ok X ∧ to_matrix X = Ok Xm ∧
    length (column_names X) = 11%nat ∧ length Xm = n_rows data.
Proof.
  eassert (prepare (H := stub_sklearn) world_a cars40 = Ok _) as Hdata
    by (vm_compute; reflexivity).
  assert (wf cars40) as Hwf by (split; [by repeat constructor|compute_done]).
  destruct (score_features_numeric (H := stub_sklearn) _ _ _ Hwf Hdata)
    as (X & y & Xm & ym & HX & _ & HXm & _ & HlenX & HlenXm & _).
  eexists _, X, Xm.
  split; [exact Hdata|]. split; [exact HX|]. split; [exact HXm|].
  split; [exact HlenX|exact HlenXm].
Defined.

(** ** The clock of a run *)

Lemma feature_engineer_Ok current_year data out :
  feature_engineer current_year data = Ok out →
  ∃ year price odometer fuel odometer1 car_age price_per_km odometer_fuel,
    getitem data "year" = Ok year ∧ getitem data "price" = Ok price ∧
    getitem data "odometer" = Ok odometer ∧ getitem data "fuel" = Ok fuel ∧
    mapM (rsub_int current_year) year = Ok car_age ∧
    mapM (add_int 1) odometer = Ok odometer1 ∧
    zip_withM truediv price odometer1 = Ok price_per_km ∧
    zip_withM mul odometer fuel = Ok odometer_fuel ∧
    getitem out "car_age" = Ok car_age ∧
    getitem out "price_per_km" = Ok price_per_km ∧
    getitem out "odometer_fuel" = Ok odometer_fuel.
Proof.
  unfold feature_engineer. intros H.
  apply bind_Ok in H as (year & Hyear & H).
  apply bind_Ok in H as (car_age & Hcar_age & H).
  apply bind_Ok in H as (data1 & H1 & H).
  apply bind_Ok in H as (price & Hprice & H).
  apply bind_Ok in H as (odometer & Hodometer & H).
  apply bind_Ok in H as (odometer1 & Hodometer1 & H).
  apply bind_Ok in H as (price_per_km & Hprice_per_km & H).
  apply bind_Ok in H as (data2 & H2 & H).
  apply bind_Ok in H as (odometer' & Hodometer' & H).
  apply bind_Ok in H as (fuel & Hfuel & H3).
  apply bind_Ok in H3 as (odometer_fuel & Hodometer_fuel & H3).
  rewrite (getitem_setitem_ne _ _ _ _ "price" H1) in Hprice by done.
  rewrite (getitem_setitem_ne _ _ _ _ "odometer" H1) in Hodometer by done.
  rewrite (getitem_setitem_ne _ _ _ _ "odometer" H2),
    (getitem_setitem_ne _ _ _ _ "odometer" H1) in Hodometer' by done.
  rewrite (getitem_setitem_ne _ _ _ _ "fuel" H2),
    (getitem_setitem_ne _ _ _ _ "fuel" H1) in Hfuel by done.
  assert (odometer' = odometer) as -> by congruence.
  exists year, price, odometer, fuel, odometer1, car_age, price_per_km, odometer_fuel.
  split_and!; try done.
  - rewrite (getitem_setitem_ne _ _ _ _ "car_age" H3),
      (getitem_setitem_ne _ _ _ _ "car_age" H2) by done.
    apply setitem_Ok in H1 as [_ ->]. unfold getitem. simpl. by rewrite dict_get_dict_set_eq.
  - rewrite (getitem_setitem_ne _ _ _ _ "price_per_km" H3) by done.
    apply setitem_Ok in H2 as [_ ->]. unfold getitem. simpl. by rewrite dict_get_dict_set_eq.
  - apply setitem_Ok in H3 as [_ ->]. unfold getitem. simpl. by rewrite dict_get_dict_set_eq.
Qed.

Lemma is_float_fmap (col : Series) : Forall is_float col → ∃ xs, col = VFloat <$> xs.
Proof.
  induction 1 as [|v col Hv _ [xs ->]]; [by exists []|].
  destruct v as [x| |]; [|done..]. by exists (x :: xs).
Qed.

Lemma rsub_int_floats k (xs : list float) :
  mapM (rsub_int k) (VFloat <$> xs) = Ok ((fun x => VFloat (Num.of_Z k - x)) <$> xs).
Proof.
  induction xs as [|x xs IH]; [done|].
  rewrite !fmap_cons. apply mapM_Ok_cons. by eexists _, _.
Qed.

(** X20.  The clock enters a run through [car_age] only.  On a well-formed
    table the preparation fails under one clock exactly as under another.
    When it succeeds, the two prepared tables have the same row labels and
    columns and agree on every column but [car_age], which in either is
    the float [current_year - year] of the imputed [year] column. *)
Theorem clock_only_in_car_age `{Sklearn} w1 w2 raw :
  wf raw →
  (∀ e, prepare w1 raw = Raise e → prepare w2 raw = Raise e) ∧
  (∀ data1, prepare w1 raw = Ok data1 →
     ∃ data2 year,
       prepare w2 raw = Ok data2 ∧
       index data2 = index data1 ∧ column_names data2 = column_names data1 ∧
       (∀ n, n ≠ "car_age" → getitem data2 n = getitem data1 n) ∧
       getitem data1 "year" = Ok (VFloat <$> year) ∧
       getitem data1 "car_age"
         = Ok ((fun x => VFloat (Num.of_Z (clock_year w1) - x)) <$> year) ∧
       getitem data2 "car_age"
         = Ok ((fun x => VFloat (Num.of_Z (clock_year w2) - x)) <$> year)).
Proof.
  intros Hwf.
  assert (∀ w d1 d2 d3 d4,
            cleaning raw = Ok d1 → impute d1 = Ok d2 → outlier_filter d2 = Ok d3 →
            encode d3 = Ok d4 →
            ∃ data, feature_engineer (clock_year w) d4 = Ok data) as Htotal.
  { intros w d1 d2 d3 d4 Hd1 Hd2 Hd3 Hd4.
    destruct (encoded_table _ _ _ _ _ Hwf Hd1 Hd2 Hd3 Hd4)
      as (Hwf4 & _ & Hprice4 & Fyear4 & Fodo4 & Hcodes4).
    destruct (engineer_encoded_table (clock_year w) d4) as (data & Hdata & _);
      [done..|apply Hcodes4; compute_done|].
    by exists data. }
  split.
  - intros e. unfold prepare.
    destruct (cleaning raw) as [d1|] eqn:Hd1; [|done]. rewrite !bind_Ok_l.
    destruct (impute d1) as [d2|] eqn:Hd2; [|done]. rewrite !bind_Ok_l.
    destruct (outlier_filter d2) as [d3|] eqn:Hd3; [|done]. rewrite !bind_Ok_l.
    destruct (encode d3) as [d4|] eqn:Hd4; [|done]. rewrite !bind_Ok_l.
    destruct (Htotal w1 d1 d2 d3 d4) as [data Hdata]; [done..|]. by rewrite Hdata.
  - intros data1 Hdata1. pose proof (prepare_names _ _ _ Hdata1) as Hnames1.
    unfold prepare in Hdata1.
    apply bind_Ok in Hdata1 as (d1 & Hd1 & Hdata1).
    apply bind_Ok in Hdata1 as (d2 & Hd2 & Hdata1).
    apply bind_Ok in Hdata1 as (d3 & Hd3 & Hdata1).
    apply bind_Ok in Hdata1 as (d4 & Hd4 & Hdata1).
    destruct (Htotal w2 d1 d2 d3 d4) as [data2 Hdata2]; [done..|].
    assert (prepare w2 raw = Ok data2) as Hprepare2.
    { unfold prepare.
      by rewrite Hd1, bind_Ok_l, Hd2, bind_Ok_l, Hd3, bind_Ok_l, Hd4, bind_Ok_l. }
    destruct (encoded_table _ _ _ _ _ Hwf Hd1 Hd2 Hd3 Hd4)
      as (_ & _ & _ & (year & Hyear & [ys ->]%is_float_fmap) & _).
    destruct (feature_engineer_Ok _ _ _ Hdata1)
      as (year1 & price1 & odo1 & fuel1 & odo1' & age1 & ppk1 & of1 &
          Hy1 & Hp1 & Ho1 & Hf1 & Hage1 & Hodo1 & Hppk1 & Hof1 & Gage1 & Gppk1 & Gof1).
    destruct (feature_engineer_Ok _ _ _ Hdata2)
      as (year2 & price2 & odo2 & fuel2 & odo2' & age2 & ppk2 & of2 &
          Hy2 & Hp2 & Ho2 & Hf2 & Hage2 & Hodo2 & Hppk2 & Hof2 & Gage2 & Gppk2 & Gof2).
    rewrite Hyear in Hy1, Hy2. injection Hy1 as <-. injection Hy2 as <-.
    rewrite rsub_int_floats in Hage1, Hage2. injection Hage1 as <-. injection Hage2 as <-.
    assert (price2 = price1) as -> by congruence.
    assert (odo2 = odo1) as -> by congruence.
    assert (fuel2 = fuel1) as -> by congruence.
    assert (odo2' = odo1') as -> by congruence.
    assert (ppk2 = ppk1) as -> by congruence.
    assert (of2 = of1) as -> by congruence.
    exists data2, ys. split_and!; [done| | | |..|done|done].
    + by rewrite (feature_engineer_index _ _ _ Hdata1), (feature_engineer_index _ _ _ Hdata2).
    + by rewrite Hnames1, (prepare_names _ _ _ Hprepare2).
    + intros n Hn.
      destruct (decide (n = "price_per_km")) as [->|Hppk]; [by rewrite Gppk1, Gppk2|].
      destruct (decide (n = "odometer_fuel")) as [->|Hof]; [by rewrite Gof1, Gof2|].
      assert (n ∉ derived_columns) as Hd.
      { unfold derived_columns. rewrite !elem_of_cons.
        intros [?|[?|[?|?%elem_of_nil]]]; done. }
      by rewrite (feature_engineer_other _ _ _ _ Hdata1 Hd),
        (feature_engineer_other _ _ _ _ Hdata2 Hd).
    + rewrite (feature_engineer_other _ _ _ "year" Hdata1); [done|compute_done].
Qed.

Lemma clock_only_in_car_age_witness :
  ∃ data1 data2,
    prepare (H := stub_sklearn) world_a cars40 = Ok data1 ∧
    prepare (H := stub_sklearn)
      {| clock_year := 2030; global_rng := global_rng world_a |} cars40 = Ok data2 ∧
    getitem data2 "price_per_km" = getitem data1 "price_per_km".
Proof.
  eassert (prepare (H := stub_sklearn) world_a cars40 = Ok _) as Hdata
    by (vm_compute; reflexivity).
  assert (wf cars40) as Hwf by (split; [by repeat constructor|compute_done]).
  destruct (clock_only_in_car_age (H := stub_sklearn) world_a
              {| clock_year := 2030; global_rng := global_rng world_a |} cars40 Hwf)
    as [_ Hok].
  destruct (Hok _ Hdata) as (data2 & year & Hdata2 & _ & _ & Hsame & _).
  eexists _, data2. split; [exact Hdata|]. split; [exact Hdata2|].
  apply Hsame. discriminate.
Defined.

(** ** The outputs of a run *)

Lemma script_Ok `{Sklearn} w raw outputs :
  script w raw = Ok outputs →
  ∃ data X y scores,
    prepare w raw = Ok data ∧ score_features w data = Ok (X, y, scores) ∧
    train X y scores = Ok outputs.
Proof.
  unfold script. intros H0.
  apply bind_Ok in H0 as (data & Hdata & H0).
  apply bind_Ok in H0 as ([[X y] scores] & Hscore & H0).
  by exists data, X, y, scores.
Qed.

Lemma train_unfold `{Sklearn} X y scores outputs :
  train X y scores = Ok outputs →
  ∃ Xs ym results,
    importance_dict outputs = scores ∧
    selected_features outputs = select_features scores ∧
    getitem_columns X (select_features scores) = Ok Xs ∧
    as_float_array y = Ok ym ∧
    train_test_split Xs ym 0.1 42 = Ok (split outputs) ∧
    GradientBoostingRegressor_fit 42 (X_train (split outputs)) (y_train (split outputs))
      = Ok (gbr_model outputs) ∧
    predict (gbr_model outputs) (X_test (split outputs)) = Ok (y_pred outputs) ∧
    evaluate_model (y_test (split outputs)) (y_pred outputs) "Gradient Boosting Regressor"
      = Ok (printed outputs, metrics outputs) ∧
    staged_predict (gbr_model outputs) (X_test (split outputs)) = Ok results ∧
    mapM (mean_squared_error (y_test (split outputs))) results = Ok (test_errors outputs).
Proof.
  unfold train. intros H0.
  apply bind_Ok in H0 as (Xs & HXs & H0).
  apply bind_Ok in H0 as (ym & Hym & H0).
  apply bind_Ok in H0 as (s & Hs & H0).
  apply bind_Ok in H0 as (model & Hmodel & H0).
  apply bind_Ok in H0 as (pred & Hpred & H0).
  apply bind_Ok in H0 as ([lines m] & Hreport & H0).
  apply bind_Ok in H0 as (results & Hresults & H0).
  apply bind_Ok in H0 as (errors & Herrors & [= <-]). simpl.
  by exists Xs, ym, results.
Qed.

Lemma staged_last `{Sklearn} learning_rate trees X raw :
  trees ≠ [] →
  last (staged learning_rate trees X raw)
    = Some (foldl (fun raw tree => add_stage learning_rate tree X raw) raw trees).
Proof.
  revert raw. induction trees as [|tree trees IH]; intros raw Hne; [done|].
  destruct trees as [|tree' trees]; [done|].
  change (staged learning_rate (tree :: tree' :: trees) X raw)
    with (add_stage learning_rate tree X raw
            :: staged learning_rate (tree' :: trees) X (add_stage learning_rate tree X raw)).
  rewrite last_cons, IH by done. done.
Qed.

Lemma mapM_Ok_last {A B} (f : A → result B) l l' x :
  mapM f l = Ok l' → last l = Some x → ∃ y, f x = Ok y ∧ last l' = Some y.
Proof.
  intros Hl Hx. rewrite last_lookup in Hx.
  destruct (mapM_Ok_lookup f _ _ _ _ Hl Hx) as (y & Hy & Hy').
  exists y. split; [done|]. by rewrite last_lookup, (mapM_Ok_length f _ _ Hl).
Qed.

Lemma evaluate_model_Ok y_test y_pred model_name lines m :
  evaluate_model y_test y_pred model_name = Ok (lines, m) →
  mean_absolute_error y_test y_pred = Ok m.1.1 ∧
  mean_squared_error y_test y_pred = Ok m.1.2 ∧
  r2_score y_test y_pred = Ok m.2 ∧
  length lines = 5%nat ∧ length y_pred = length y_test ∧ (0 < length y_test)%nat.
Proof.
  unfold evaluate_model. intros H0.
  apply bind_Ok in H0 as (mae & Hmae & H0).
  apply bind_Ok in H0 as (mse & Hmse & H0).
  apply bind_Ok in H0 as (r2 & Hr2 & [= <- <-]). simpl. split_and!; try done.
  - unfold mean_absolute_error in Hmae.
    destruct (check_reg_targets y_test y_pred) as [[]|] eqn:Hcheck; [|done].
    by apply check_reg_targets_Ok in Hcheck as (-> & _).
  - unfold mean_absolute_error in Hmae.
    destruct (check_reg_targets y_test y_pred) as [[]|] eqn:Hcheck; [|done].
    by apply check_reg_targets_Ok in Hcheck as (_ & ? & _).
Qed.

Lemma predict_length `{Sklearn} model X y_pred :
  predict model X = Ok y_pred → length y_pred = n_rows X.
Proof.
  unfold predict. intros (Xm & HXm & [= <-])%bind_Ok.
  rewrite foldl_add_stage_length; [by apply to_matrix_length|].
  by rewrite length_replicate.
Qed.

(** X21.  A run that ends well has selected at least one feature, the keys
    of the importance dictionary that score above 0.01.  The training and
    test tables have exactly the selected columns and share the rows of
    the prepared table between them, neither being empty; targets and
    predictions have one entry per row of their table; five lines are
    printed; and the last of the staged test errors of lines 114 and 115
    is the mean squared error that [evaluate_model] reported. *)
Theorem script_outputs `{Sklearn} w raw outputs :
  script w raw = Ok outputs →
  let s := split outputs in
  ∃ data X y,
    prepare w raw = Ok data ∧
    score_features w data = Ok (X, y, importance_dict outputs) ∧
    selected_features outputs = select_features (importance_dict outputs) ∧
    selected_features outputs ≠ [] ∧
    column_names (X_train s) = selected_features outputs ∧
    column_names (X_test s) = selected_features outputs ∧
    (n_rows (X_train s) + n_rows (X_test s) = n_rows data)%nat ∧
    (0 < n_rows (X_train s))%nat ∧ (0 < n_rows (X_test s))%nat ∧
    length (y_train s) = n_rows (X_train s) ∧
    length (y_test s) = n_rows (X_test s) ∧
    length (y_pred outputs) = n_rows (X_test s) ∧
    length (printed outputs) = 5%nat ∧
    mean_squared_error (y_test s) (y_pred outputs) = Ok (metrics outputs).1.2 ∧
    last (test_errors outputs) = Some (metrics outputs).1.2.
Proof.
  intros (data & X & y & scores & Hdata & Hscore & Htrain)%script_Ok s.
  pose proof Htrain as (Xs & ym & results & Hdict & Hsel & HXs & Hym & Hs & Hfit & Hpred &
                        Hreport & Hresults & Herrors)%train_unfold.
  fold s in Hs, Hfit, Hpred, Hreport, Hresults, Herrors.
  rewrite Hdict, Hsel.
  destruct (evaluate_model_Ok _ _ _ _ _ Hreport) as (_ & Hmse & _ & Hlines & Hlen & Hpos).
  pose proof (predict_length _ _ _ Hpred) as Hlen'.
  destruct (train_test_split_unfold _ _ _ _ _ Hs)
    as (n_test & p & Hy & _ & Hlt & _ & Hperm & HXtr & HXte & Hytr & Hyte).
  assert (length p = n_rows Xs) as Hp by (by rewrite Hperm, length_seq).
  pose proof (take_rows_n_rows _ _ _ HXtr) as Ntr.
  pose proof (take_rows_n_rows _ _ _ HXte) as Nte.
  pose proof (mapM_Ok_length _ _ _ Hytr) as Ltr.
  pose proof (mapM_Ok_length _ _ _ Hyte) as Lte.
  rewrite length_drop in Ntr, Ltr. rewrite length_take in Nte, Lte.
  assert (n_rows Xs = n_rows data) as Hrows.
  { apply getitem_columns_Ok in HXs as (cols & _ & ->).
    apply score_features_Ok in Hscore as (_ & _ & _ & [_ ->]%drop_columns_Ok & _). done. }
  exists data, X, y. split_and!; try done; try lia.
  - intros Hnil. rewrite (train_no_features _ _ _ Hnil) in Htrain.
    destruct (as_float_array y); [|done]. rewrite bind_Ok_l in Htrain.
    by destruct (train_test_split _ _ 0.1 42).
  - by rewrite (take_rows_names _ _ _ HXtr), (getitem_columns_names _ _ _ HXs).
  - by rewrite (take_rows_names _ _ _ HXte), (getitem_columns_names _ _ _ HXs).
  - apply staged_predict_Ok in Hresults as (Xm & HXm & ->).
    destruct (fit_Ok _ _ _ _ Hfit) as [Htrees _].
    destruct (mapM_Ok_last _ _ _ _ Herrors (staged_last _ _ _ _ ltac:(by intros Hnil; rewrite Hnil in Htrees)))
      as (mse & Hmse' & ->).
    unfold predict in Hpred. rewrite HXm, bind_Ok_l in Hpred. injection Hpred as Hpred.
    rewrite Hpred in Hmse'. congruence.
Qed.

Lemma script_outputs_witness :
  ∃ outputs,
    script (H := stub_sklearn) world_a cars40 = Ok outputs ∧
    length (y_pred outputs) = n_rows (X_test (split outputs)) ∧
    last (test_errors outputs) = Some (metrics outputs).1.2.
Proof.
  assert (∃ outputs, script (H := stub_sklearn) world_a cars40 = Ok outputs)
    as [outputs Hrun] by (eexists; vm_compute; reflexivity).
  destruct (script_outputs (H := stub_sklearn) _ _ _ Hrun)
    as (data & X & y & _ & _ & _ & _ & _ & _ & _ & _ & _ & _ & _ & Hlen & _ & _ & Hlast).
  exists outputs. split; [exact Hrun|]. split; [exact Hlen|exact Hlast].
Defined.
